(** * Taproot Assets (taro): commitment layer, universe leaves, send states

    A shallow embedding of
    - the [commitment] package (outer MS-SMT commitment: [NewTaroCommitment],
      [Delete], [Upsert], [Commitment], [Commitments],
      [NewTaroCommitmentWithRoot], [TapLeaf], [TapBranchHash],
      [IsTaroCommitmentScript], [TapscriptRoot], [Proof], [Copy], [Merge]),
    - the [taroscript] package ([IdentifyTapScriptSibling]),
    - the [universe] package (proof types and their strings, universe
      identifiers, [Leaf.SmtLeafNode], [Proof.VerifyRoot],
      [ValidateProofUniverseType], server addresses),
    - the [tarofreighter] package (the [SendState] enumeration, the two
      parcel kinds with their kits, [pkg] and
      [deliverTxBroadcastResp]),
    - the [rfqmsg] package (sell requests).

    Pointers to the mutable objects of the commitment layer are addresses
    into an explicit store, so that sharing between two commitments is
    visible.  A function that returns an [error], or that can panic, is a
    computation in the monad [Go.M].  A pointer that the code tests against
    nil, or to which it assigns a value that may be nil, is an [option];
    any other pointer stands for the object it points to.

    The packages [mssmt], [asset] and [chanutils] are other packages of the
    repository, and [chainhash], [txscript], [schnorr], [btcec] and [net]
    are libraries.  What the code calls from them is a parameter of the
    embedding (a class or a section variable); [Reference] instantiates the
    parameters of the commitment layer, to evaluate the code on concrete
    commitments. *)

From Stdlib Require Import ZArith List String Lia Sorted.
From Stdlib.Strings Require Import Byte.
From stdpp Require Import base option list vector gmap strings pretty.
Import ListNotations.
Local Open Scope Z_scope.

(** ** Go run-time conventions *)

Module Go.

(** [errors.New(msg)] and [fmt.Errorf(msg)] give an [ErrorString];
    [fmt.Errorf(msg + "%w", err)] gives a [WrapError]. *)
Inductive error : Type :=
  | ErrorString (msg : string)
  | WrapError (msg : string) (err : error).

(** What a function with an [error] result returns: its value (with a nil
    error) or a non-nil error. *)
Inductive result (A : Type) : Type :=
  | Val (a : A)
  | Fail (e : error).
Arguments Val {A} a.
Arguments Fail {A} e.

(** The three ways a call ends: a normal return (with a nil error), the
    return of a non-nil error, or a run-time panic. *)
Inductive res (A : Type) : Type :=
  | Ok (a : A)
  | Err (e : error)
  | Panic (msg : string).
Arguments Ok {A} a.
Arguments Err {A} e.
Arguments Panic {A} msg.

(** A method with a pointer receiver: it reads and updates the store [S],
    and what it wrote stays written when it returns an error. *)
Definition M (S A : Type) : Type := S → res A * S.

Definition ret {S A} (a : A) : M S A := λ s, (Ok a, s).

Definition bind {S A B} (m : M S A) (f : A → M S B) : M S B :=
  λ s, match m s with
       | (Ok a, s') => f a s'
       | (Err e, s') => (Err e, s')
       | (Panic msg, s') => (Panic msg, s')
       end.

Definition throw {S A} (e : error) : M S A := λ s, (Err e, s).
Definition panic {S A} (msg : string) : M S A := λ s, (Panic msg, s).
(** [v, err := f(...); if err != nil { return err }] for a function [f]
    that leaves the store alone. *)
Definition lift {S A} (r : result A) : M S A :=
  λ s, match r with
       | Val a => (Ok a, s)
       | Fail e => (Err e, s)
       end.

(** A call that leaves the store alone and may panic. *)
Definition call {S A} (r : res A) : M S A := λ s, (r, s).

(** [if err != nil { return fmt.Errorf(msg + "%w", err) }] *)
Definition wrap {S A} (msg : string) (m : M S A) : M S A :=
  λ s, match m s with
       | (Err e, s') => (Err (WrapError msg e), s')
       | other => other
       end.

(** The message of the run-time error raised by a nil dereference. *)
Definition nil_dereference : string :=
  "runtime error: invalid memory address or nil pointer dereference".

(** The message of the run-time error raised by a write to a nil map. *)
Definition nil_map_write : string :=
  "assignment to entry in nil map".

End Go.

#[global] Instance M_ret {S} : MRet (Go.M S) := λ A, Go.ret.
#[global] Instance M_bind {S} : MBind (Go.M S) := λ A B f m, Go.bind m f.

(** ** Bytes: [byte(x)] conversions and [encoding/binary] *)

#[global] Instance byte_eq_dec : EqDecision byte := Byte.byte_eq_dec.
#[global] Instance byte_countable : Countable byte :=
  inj_countable Byte.to_N Byte.of_N Byte.of_to_N.

(** A Go array [[n]byte] is a vector of [n] bytes.  The instance below makes
    it a key type whose maps evaluate. *)
Fixpoint vec_of_list {A} (n : nat) (l : list A) : option (vec A n) :=
  match n, l with
  | O, [] => Some [#]
  | S n', x :: l' => (λ v, x ::: v) <$> vec_of_list n' l'
  | _, _ => None
  end.

Lemma vec_of_list_to_list {A n} (v : vec A n) :
  vec_of_list n (vec_to_list v) = Some v.
Proof. induction v as [|x n v IH]; simpl; [done|]. by rewrite IH. Qed.

#[global] Instance array_countable `{Countable A} n : Countable (vec A n) | 0 :=
  inj_countable vec_to_list (vec_of_list n) vec_of_list_to_list.

Module Bytes.

Definition to_Z (b : byte) : Z := Z.of_N (Byte.to_N b).

(** [byte(x)] for an unsigned integer [x]: the low eight bits. *)
Definition of_Z (z : Z) : byte :=
  match Byte.of_N (Z.to_N (z mod 256)) with
  | Some b => b
  | None => x00
  end.

(** [binary.BigEndian.PutUint32] *)
Definition PutUint32 (v : Z) : list byte :=
  [of_Z (Z.shiftr v 24); of_Z (Z.shiftr v 16); of_Z (Z.shiftr v 8); of_Z v].

(** [binary.BigEndian.PutUint64] *)
Definition PutUint64 (v : Z) : list byte :=
  [of_Z (Z.shiftr v 56); of_Z (Z.shiftr v 48); of_Z (Z.shiftr v 40);
   of_Z (Z.shiftr v 32); of_Z (Z.shiftr v 24); of_Z (Z.shiftr v 16);
   of_Z (Z.shiftr v 8); of_Z v].

(** [binary.BigEndian.Uint64]: the unsigned integer a big-endian byte string
    stands for. *)
Definition Uint (bs : list byte) : Z :=
  fold_left (λ acc b, acc * 256 + to_Z b) bs 0.

(** [bytes.Join(parts, nil)] *)
Definition Join (parts : list (list byte)) : list byte := concat parts.

(** [bytes.Compare]: the lexicographic order, as -1, 0 or +1. *)
Fixpoint Compare (a b : list byte) : Z :=
  match a, b with
  | [], [] => 0
  | [], _ :: _ => -1
  | _ :: _, [] => 1
  | x :: a', y :: b' =>
      if to_Z x <? to_Z y then -1
      else if to_Z y <? to_Z x then 1
      else Compare a' b'
  end.

(** [bytes.Equal] *)
Definition Equal (a b : list byte) : bool := bool_decide (a = b).

(** [var a [n]byte; copy(a[:], src)]: the first [n] bytes of [src], and
    zeros where [src] is shorter. *)
Fixpoint array_of (n : nat) (src : list byte) : vec byte n :=
  match n with
  | O => [#]
  | S n' =>
      match src with
      | [] => x00 ::: array_of n' []
      | b :: rest => b ::: array_of n' rest
      end
  end.

(** The digits of [encoding/hex] and of the verb [%x]. *)
Definition hextable : string := "0123456789abcdef".

Definition hexdigit (n : Z) : Ascii.ascii :=
  default Ascii.zero (String.get (Z.to_nat n) hextable).

(** [hex.EncodeToString(src)], which is also [fmt.Sprintf("%x", src)] for a
    byte slice or a byte array. *)
Fixpoint EncodeToString (src : list byte) : string :=
  match src with
  | [] => EmptyString
  | v :: rest =>
      String (hexdigit (Z.shiftr (to_Z v) 4))
        (String (hexdigit (Z.land (to_Z v) 0x0f)) (EncodeToString rest))
  end.

End Bytes.

(** ** [crypto/sha256] (FIPS 180-4), on 32-bit words held in [Z] *)

Module Sha256.

Definition u32 (z : Z) : Z := z mod 2 ^ 32.

(** [bits.RotateLeft32(x, -n)] *)
Definition rotr (x n : Z) : Z :=
  Z.lor (Z.shiftr x n) (u32 (Z.shiftl x (32 - n))).

(** [^x] on a 32-bit word *)
Definition not32 (x : Z) : Z := Z.lxor x 0xffffffff.

(** The first 64 primes. *)
Definition primes : list Z :=
  [2; 3; 5; 7; 11; 13; 17; 19; 23; 29; 31; 37; 41; 43; 47; 53; 59; 61; 67;
   71; 73; 79; 83; 89; 97; 101; 103; 107; 109; 113; 127; 131; 137; 139; 149;
   151; 157; 163; 167; 173; 179; 181; 191; 193; 197; 199; 211; 223; 227;
   229; 233; 239; 241; 251; 257; 263; 269; 271; 277; 281; 283; 293; 307;
   311].

(** The integer cube root of a number below [2 ^ (3 * bits)], bit by bit. *)
Fixpoint cbrt (bits : nat) (n r : Z) : Z :=
  match bits with
  | O => r
  | S b =>
      let r' := r + 2 ^ Z.of_nat b in
      cbrt b n (if r' * r' * r' <=? n then r' else r)
  end.

(** The initial hash value: the first 32 bits of the fractional parts of
    the square roots of the first 8 primes. *)
Definition init : list Z :=
  map (λ p, u32 (Z.sqrt (p * 2 ^ 64))) (firstn 8 primes).

(** The round constants: the first 32 bits of the fractional parts of the
    cube roots of the first 64 primes. *)
Definition _K : list Z :=
  map (λ p, u32 (cbrt 36 (p * 2 ^ 96) 0)) primes.

(** The message as big-endian 32-bit words. *)
Fixpoint words (p : list byte) : list Z :=
  match p with
  | b0 :: b1 :: b2 :: b3 :: rest =>
      Z.lor (Z.lor (Z.shiftl (Bytes.to_Z b0) 24) (Z.shiftl (Bytes.to_Z b1) 16))
            (Z.lor (Z.shiftl (Bytes.to_Z b2) 8) (Bytes.to_Z b3)) :: words rest
  | _ => []
  end.

(** The padding of a message of [len] bytes: a 0x80 byte, zero bytes up to
    56 modulo 64, and the length in bits on eight bytes. *)
Definition padding (len : Z) : list byte :=
  x80 :: repeat x00 (Z.to_nat ((55 - len) mod 64))
      ++ Bytes.PutUint64 (Z.shiftl len 3).

(** The message schedule: [n] more words after the ones in [w]. *)
Fixpoint schedule (n : nat) (w : list Z) : list Z :=
  match n with
  | O => w
  | S n' =>
      let i := length w in
      let v1 := nth (i - 2) w 0 in
      let t1 := Z.lxor (Z.lxor (rotr v1 17) (rotr v1 19)) (Z.shiftr v1 10) in
      let v2 := nth (i - 15) w 0 in
      let t2 := Z.lxor (Z.lxor (rotr v2 7) (rotr v2 18)) (Z.shiftr v2 3) in
      schedule n' (w ++ [u32 (t1 + nth (i - 7) w 0 + t2 + nth (i - 16) w 0)])
  end.

Record regs : Type :=
  Regs { ra : Z; rb : Z; rc : Z; rd : Z; re : Z; rf : Z; rg : Z; rh : Z }.

Definition round (r : regs) (kw : Z * Z) : regs :=
  let '(Regs a b c d e f g h) := r in
  let t1 := h + Z.lxor (Z.lxor (rotr e 6) (rotr e 11)) (rotr e 25)
              + Z.lxor (Z.land e f) (Z.land (not32 e) g) + fst kw + snd kw in
  let t2 := Z.lxor (Z.lxor (rotr a 2) (rotr a 13)) (rotr a 22)
              + Z.lxor (Z.lxor (Z.land a b) (Z.land a c)) (Z.land b c) in
  Regs (u32 (t1 + t2)) a b c (u32 (d + t1)) e f g.

Definition block (hs : list Z) (chunk : list Z) : list Z :=
  match hs with
  | [h0; h1; h2; h3; h4; h5; h6; h7] =>
      let w := schedule 48 chunk in
      let '(Regs a b c d e f g h) :=
        fold_left round (combine _K w) (Regs h0 h1 h2 h3 h4 h5 h6 h7) in
      [u32 (h0 + a); u32 (h1 + b); u32 (h2 + c); u32 (h3 + d);
       u32 (h4 + e); u32 (h5 + f); u32 (h6 + g); u32 (h7 + h)]
  | _ => hs
  end.

Fixpoint blocks (n : nat) (hs : list Z) (ws : list Z) : list Z :=
  match n with
  | O => hs
  | S n' => blocks n' (block hs (firstn 16 ws)) (skipn 16 ws)
  end.

(** [sha256.Sum256], as a byte string *)
Definition Sum256 (data : list byte) : list byte :=
  let ws := words (data ++ padding (Z.of_nat (length data))) in
  flat_map Bytes.PutUint32 (blocks (length ws / 16) init ws).

(** [sha256.Sum256], as the array [[32]byte] *)
Definition Sum256_array (data : list byte) : vec byte 32 :=
  default (vreplicate 32 x00) (vec_of_list 32 (Sum256 data)).

End Sha256.

(** ** The [mssmt] package, as the other packages use it *)

Module Mssmt.

(** What a caller observes of a [Node]: [NodeHash()] and [NodeSum()].  A
    [*BranchNode] is used through the same two methods. *)
Record Node : Type := { NodeHash : vec byte 32; NodeSum : Z }.

Definition Node_Copy (n : Node) : Node :=
  {| NodeHash := NodeHash n; NodeSum := NodeSum n |}.

Record LeafNode : Type := { Value : list byte; sum : Z }.

Definition NewLeafNode (value : list byte) (s : Z) : LeafNode :=
  {| Value := value; sum := s |}.

(** A merkle proof: the siblings along the path of a key. *)
Record MerkleProof : Type := { Nodes : list Node }.

(** The [Tree] interface ([Insert], [Delete], [Root], [MerkleProof]),
    together with the constructor [NewCompactedTree(NewDefaultStore())] and
    the constant [EmptyTreeRootHash], all taken as given.  An operation
    that returns an error leaves the tree as it was.  [Root] gives the two
    values it returns: the root (a pointer, [None] when nil) and the
    error ([None] when nil). *)
Class Tree (T : Type) : Type := {
  NewCompactedTree : T;
  EmptyTreeRootHash : vec byte 32;
  Insert : T → vec byte 32 → LeafNode → Go.result T;
  Delete : T → vec byte 32 → Go.result T;
  Root : T → option Node * option Go.error;
  GetMerkleProof : T → vec byte 32 → Go.result MerkleProof
}.

End Mssmt.

(** ** [txscript] tapscript leaves *)

Module Txscript.

Record TapLeaf : Type := { LeafVersion : byte; Script : list byte }.

Definition BaseLeafVersion : byte := xc0.

Definition NewBaseTapLeaf (script : list byte) : TapLeaf :=
  {| LeafVersion := BaseLeafVersion; Script := script |}.

End Txscript.

(** ** The [commitment] package *)

Module Commitment.

Import Go.

Definition taroMarkerTag : string := "taro".

Definition TaroMarker : list byte :=
  Sha256.Sum256 (list_byte_of_string taroMarkerTag).

Definition ErrMissingAssetCommitment : error :=
  ErrorString "taro commitment: missing asset commitment".

Definition TaroCommitmentScriptSize : Z := 1 + 32 + 32 + 8.

(** [asset.V0] of the [asset.Version] type (a [uint8]). *)
Definition V0 : Z := 0.

(** An [AssetCommitment] as the outer layer reads it: its exported fields,
    and its unexported tree and asset map as one component [inner]. *)
Record AssetCommitment (Inner : Type) : Type := {
  asset_Version : Z;
  asset_AssetID : vec byte 32;
  asset_TreeRoot : Mssmt.Node;
  asset_inner : Inner
}.
Arguments asset_Version {Inner} _.
Arguments asset_AssetID {Inner} _.
Arguments asset_TreeRoot {Inner} _.
Arguments asset_inner {Inner} _.

(** The methods of [*AssetCommitment] that the outer layer calls, taken as
    given.  [AssetCommitment_Copy] gives the contents of the new object,
    [AssetCommitment_Merge c other] the contents of the receiver after the
    call together with the error returned. *)
Class AssetCommitmentMethods (Inner Asset : Type) : Type := {
  TaroCommitmentKey : AssetCommitment Inner → vec byte 32;
  TaroCommitmentLeaf : AssetCommitment Inner → Mssmt.LeafNode;
  AssetCommitment_Copy :
    AssetCommitment Inner → result (AssetCommitment Inner);
  AssetCommitment_Merge :
    AssetCommitment Inner → AssetCommitment Inner →
    AssetCommitment Inner * option error;
  AssetCommitment_AssetProof :
    AssetCommitment Inner → vec byte 32 →
    result (option Asset * Mssmt.MerkleProof)
}.

(** [TaroCommitment].  [TreeRoot], [tree] and [assetCommitments] are [None]
    when they are nil.  The tree is created inside [NewTaroCommitment] and
    handed to nobody else, so it is held by value; the asset commitments are
    pointers ([*AssetCommitment]) and may be shared. *)
Record TaroCommitment (T : Type) : Type := {
  Version : Z;
  TreeRoot : option Mssmt.Node;
  tree : option T;
  assetCommitments : option (gmap (vec byte 32) positive)
}.
Arguments Version {T} _.
Arguments TreeRoot {T} _.
Arguments tree {T} _.
Arguments assetCommitments {T} _.

(** The store: the [AssetCommitment] and [TaroCommitment] objects by
    address. *)
Record Heap (T Inner : Type) : Type := {
  assets_at : gmap positive (AssetCommitment Inner);
  taros_at : gmap positive (TaroCommitment T)
}.
Arguments assets_at {T Inner} _.
Arguments taros_at {T Inner} _.

(** [commitment.TaroProof], [commitment.AssetProof] and [commitment.Proof] *)
Record TaroProof : Type := {
  TaroProof_Proof : Mssmt.MerkleProof;
  TaroProof_Version : Z
}.

Record AssetProof : Type := {
  AssetProof_Proof : Mssmt.MerkleProof;
  AssetProof_Version : Z;
  AssetProof_AssetID : vec byte 32
}.

Record CommitmentProof : Type := {
  Proof_AssetProof : option AssetProof;
  Proof_TaroProof : TaroProof
}.

Section Methods.

Context {T Inner Asset : Type}.
Context `{!Mssmt.Tree T} `{!AssetCommitmentMethods Inner Asset}.

(** The order in which a [range] over the asset commitment map (and
    [maps.Values]) visits its entries; Go leaves it unspecified. *)
Variable range :
  gmap (vec byte 32) positive → list (vec byte 32 * positive).

Abbreviation heap := (Heap T Inner).
Abbreviation Cmd := (M heap).

(** *** Access to the store *)

Definition load_asset (p : positive) : Cmd (AssetCommitment Inner) :=
  λ h, match assets_at h !! p with
       | Some a => (Ok a, h)
       | None => (Panic nil_dereference, h)
       end.

Definition store_asset (p : positive) (a : AssetCommitment Inner) : Cmd unit :=
  λ h, (Ok tt, {| assets_at := <[p := a]> (assets_at h);
                  taros_at := taros_at h |}).

Definition new_asset (a : AssetCommitment Inner) : Cmd positive :=
  λ h, let p := fresh (dom (assets_at h)) in
       (Ok p, {| assets_at := <[p := a]> (assets_at h);
                 taros_at := taros_at h |}).

Definition load_taro (c : positive) : Cmd (TaroCommitment T) :=
  λ h, match taros_at h !! c with
       | Some tc => (Ok tc, h)
       | None => (Panic nil_dereference, h)
       end.

Definition store_taro (c : positive) (tc : TaroCommitment T) : Cmd unit :=
  λ h, (Ok tt, {| assets_at := assets_at h;
                  taros_at := <[c := tc]> (taros_at h) |}).

Definition new_taro (tc : TaroCommitment T) : Cmd positive :=
  λ h, let c := fresh (dom (taros_at h)) in
       (Ok c, {| assets_at := assets_at h;
                 taros_at := <[c := tc]> (taros_at h) |}).

(** *** Statements on the fields of the receiver [c] *)

(** [_, err := c.tree.Delete(ctx, key); if err != nil { return err }] *)
Definition c_tree_Delete (c : positive) (key : vec byte 32) : Cmd unit :=
  tc ← load_taro c;
  match tree tc with
  | None => panic nil_dereference
  | Some t =>
      t' ← lift (Mssmt.Delete t key);
      store_taro c {| Version := Version tc; TreeRoot := TreeRoot tc;
                      tree := Some t';
                      assetCommitments := assetCommitments tc |}
  end.

(** [_, err := c.tree.Insert(ctx, key, leaf); if err != nil { return err }] *)
Definition c_tree_Insert (c : positive) (key : vec byte 32)
    (leaf : Mssmt.LeafNode) : Cmd unit :=
  tc ← load_taro c;
  match tree tc with
  | None => panic nil_dereference
  | Some t =>
      t' ← lift (Mssmt.Insert t key leaf);
      store_taro c {| Version := Version tc; TreeRoot := TreeRoot tc;
                      tree := Some t';
                      assetCommitments := assetCommitments tc |}
  end.

(** [c.TreeRoot, err = c.tree.Root(ctx); if err != nil { return err }]: the
    field is assigned before the error is looked at. *)
Definition c_TreeRoot_update (c : positive) : Cmd unit :=
  tc ← load_taro c;
  match tree tc with
  | None => panic nil_dereference
  | Some t =>
      let '(root, err) := Mssmt.Root t in
      store_taro c {| Version := Version tc; TreeRoot := root;
                      tree := tree tc;
                      assetCommitments := assetCommitments tc |};;
      match err with
      | Some e => throw e
      | None => mret tt
      end
  end.

(** [delete(c.assetCommitments, key)]; on a nil map it does nothing. *)
Definition c_assetCommitments_delete (c : positive) (key : vec byte 32)
    : Cmd unit :=
  tc ← load_taro c;
  store_taro c {| Version := Version tc; TreeRoot := TreeRoot tc;
                  tree := tree tc;
                  assetCommitments := delete key <$> assetCommitments tc |}.

(** [c.assetCommitments[key] = asset]; on a nil map it panics. *)
Definition c_assetCommitments_set (c : positive) (key : vec byte 32)
    (asset : positive) : Cmd unit :=
  tc ← load_taro c;
  match assetCommitments tc with
  | None => panic nil_map_write
  | Some m =>
      store_taro c {| Version := Version tc; TreeRoot := TreeRoot tc;
                      tree := tree tc;
                      assetCommitments := Some (<[key := asset]> m) |}
  end.

(** *** [NewTaroCommitment] *)

(** The loop over [assets]. *)
Fixpoint NewTaroCommitment_loop (assets : list positive) (maxVersion : Z)
    (tree : T) (assetCommitments : gmap (vec byte 32) positive)
    : Cmd (Z * T * gmap (vec byte 32) positive) :=
  match assets with
  | [] => mret (maxVersion, tree, assetCommitments)
  | p :: rest =>
      asset ← load_asset p;
      let maxVersion :=
        if maxVersion <? asset_Version asset then asset_Version asset
        else maxVersion in
      let key := TaroCommitmentKey asset in
      let leaf := TaroCommitmentLeaf asset in
      tree ← lift (Mssmt.Insert tree key leaf);
      NewTaroCommitment_loop rest maxVersion tree
        (<[key := p]> assetCommitments)
  end.

Definition NewTaroCommitment (assets : list positive) : Cmd positive :=
  '(maxVersion, tree, assetCommitments) ←
     NewTaroCommitment_loop assets V0 Mssmt.NewCompactedTree ∅;
  match Mssmt.Root tree with
  | (_, Some err) => throw err
  | (root, None) =>
      new_taro {| Version := maxVersion; TreeRoot := root;
                  assetCommitments := Some assetCommitments;
                  tree := Some tree |}
  end.

(** *** [Delete] and [Upsert] *)

Definition Delete (c : positive) (asset : option positive) : Cmd unit :=
  match asset with
  | None => throw ErrMissingAssetCommitment
  | Some p =>
      a ← load_asset p;
      let key := TaroCommitmentKey a in
      c_tree_Delete c key;;
      c_TreeRoot_update c;;
      c_assetCommitments_delete c key
  end.

Definition Upsert (c : positive) (asset : option positive) : Cmd unit :=
  match asset with
  | None => throw ErrMissingAssetCommitment
  | Some p =>
      a ← load_asset p;
      let key := TaroCommitmentKey a in
      let leaf := TaroCommitmentLeaf a in
      (if decide (Mssmt.NodeHash (asset_TreeRoot a) = Mssmt.EmptyTreeRootHash)
       then
         c_tree_Delete c key;;
         c_assetCommitments_delete c key
       else
         c_tree_Insert c key leaf;;
         c_assetCommitments_set c key p);;
      c_TreeRoot_update c
  end.

(** *** [NewTaroCommitmentWithRoot] *)

Definition NewTaroCommitmentWithRoot (version : Z)
    (root : option Mssmt.Node) : Cmd positive :=
  new_taro {| Version := version; TreeRoot := root;
              assetCommitments := None; tree := None |}.

(** *** [TapLeaf] *)

(** The method reads the fields of [c] and writes nothing, so it is a
    function of the value of [c]; it panics on a nil [TreeRoot]. *)
Definition TapLeaf (c : TaroCommitment T) : res Txscript.TapLeaf :=
  match TreeRoot c with
  | None => Panic nil_dereference
  | Some root =>
      let rootHash := Mssmt.NodeHash root in
      let rootSum := Bytes.PutUint64 (Mssmt.NodeSum root) in
      let leafParts :=
        [[Bytes.of_Z (Version c)]; TaroMarker; vec_to_list rootHash;
         rootSum] in
      let leafScript := Bytes.Join leafParts in
      Ok (Txscript.NewBaseTapLeaf leafScript)
  end.

(** [c.TapLeaf()] on a pointer. *)
Definition TapLeaf_at (c : positive) : Cmd Txscript.TapLeaf :=
  tc ← load_taro c; call (TapLeaf tc).

(** *** [Proof] *)

Definition missing_asset_commitments : string :=
  "missing asset commitments to compute proofs".

Definition TaroCommitment_Proof (c : positive)
    (taroCommitmentKey assetCommitmentKey : vec byte 32)
    : Cmd (option Asset * CommitmentProof) :=
  tc ← load_taro c;
  match assetCommitments tc, tree tc with
  | Some m, Some t =>
      merkleProof ← lift (Mssmt.GetMerkleProof t taroCommitmentKey);
      let proof :=
        {| TaroProof_Proof := merkleProof; TaroProof_Version := Version tc |} in
      match m !! taroCommitmentKey with
      | None =>
          mret (None, {| Proof_AssetProof := None; Proof_TaroProof := proof |})
      | Some p =>
          assetCommitment ← load_asset p;
          '(asset, assetProof) ←
             lift (AssetCommitment_AssetProof assetCommitment
                     assetCommitmentKey);
          mret (asset,
                {| Proof_AssetProof :=
                     Some {| AssetProof_Proof := assetProof;
                             AssetProof_Version :=
                               asset_Version assetCommitment;
                             AssetProof_AssetID :=
                               asset_AssetID assetCommitment |};
                   Proof_TaroProof := proof |})
      end
  | _, _ => panic missing_asset_commitments
  end.

(** *** [Copy] *)

(** [AssetCommitment.Copy] on a pointer: a new object. *)
Definition AssetCommitment_Copy_at (p : positive) : Cmd positive :=
  a ← load_asset p;
  a' ← lift (AssetCommitment_Copy a);
  new_asset a'.

(** [chanutils.CopyAllErr] *)
Fixpoint CopyAllErr (xs : list positive) : Cmd (list positive) :=
  match xs with
  | [] => mret []
  | x :: rest =>
      y ← AssetCommitment_Copy_at x;
      ys ← CopyAllErr rest;
      mret (y :: ys)
  end.

(** [len(m)] of a map that may be nil. *)
Definition len (m : option (gmap (vec byte 32) positive)) : nat :=
  match m with
  | None => O
  | Some m => size m
  end.

(** [maps.Values(m)] *)
Definition maps_Values (m : option (gmap (vec byte 32) positive))
    : list positive :=
  match m with
  | None => []
  | Some m => (range m).*2
  end.

Definition Copy (c : positive) : Cmd positive :=
  tc ← load_taro c;
  if decide (len (assetCommitments tc) = O) then
    match TreeRoot tc with
    | None => panic nil_dereference
    | Some root =>
        let rootCopy := Mssmt.Node_Copy root in
        new_taro {| Version := Version tc; TreeRoot := Some rootCopy;
                    tree := None; assetCommitments := None |}
    end
  else
    newAssetCommitments ← CopyAllErr (maps_Values (assetCommitments tc));
    NewTaroCommitment newAssetCommitments.

(** *** [Merge] *)

(** [AssetCommitment.Merge] on pointers: the receiver is updated in
    place. *)
Definition AssetCommitment_Merge_at (p other : positive) : Cmd unit :=
  a ← load_asset p;
  b ← load_asset other;
  let '(a', err) := AssetCommitment_Merge a b in
  store_asset p a';;
  match err with
  | None => mret tt
  | Some e => throw e
  end.

(** The body of the loop of [Merge], for one [key, otherCommitment] pair. *)
Definition Merge_body (c : positive) (key : vec byte 32)
    (otherCommitment : positive) : Cmd unit :=
  tc ← load_taro c;
  existingCommitment ←
    match assetCommitments tc ≫= (λ m, m !! key) with
    | Some existingCommitment =>
        commitmentCopy ←
          wrap "error copying asset commitment: "
            (AssetCommitment_Copy_at otherCommitment);
        wrap "error merging asset commitment: "
          (AssetCommitment_Merge_at existingCommitment commitmentCopy);;
        mret existingCommitment
    | None => mret otherCommitment
    end;
  existingCommitmentCopy ←
    wrap "error copying asset commitment: "
      (AssetCommitment_Copy_at existingCommitment);
  wrap "error upserting other commitment: "
    (Upsert c (Some existingCommitmentCopy)).

(** The loop of [Merge] over the keys the [range] started with.  An entry
    is read when the loop reaches it, and an entry that is gone by then is
    not produced (this matters only when [other] is [c] itself). *)
Fixpoint Merge_loop (c other : positive) (keys : list (vec byte 32))
    : Cmd unit :=
  match keys with
  | [] => mret tt
  | key :: rest =>
      otc ← load_taro other;
      match assetCommitments otc ≫= (λ m, m !! key) with
      | Some otherCommitment => Merge_body c key otherCommitment
      | None => mret tt
      end;;
      Merge_loop c other rest
  end.

Definition cannot_merge : error :=
  ErrorString "cannot merge commitments without asset commitments".

Definition Merge (c other : positive) : Cmd unit :=
  otc ← load_taro other;
  match assetCommitments otc with
  | None => throw cannot_merge
  | Some m =>
      if decide (size m = O) then mret tt
      else Merge_loop c other (range m).*1
  end.

(** *** [Commitment] and [Commitments] *)

(** [asset.Asset.TaroCommitmentKey], taken as given. *)
Variable Asset_TaroCommitmentKey : Asset → vec byte 32.

(** [c.Commitment(a)]: the pointer found under the key of [a], or [None]
    when the second value returned is false.  A look-up in a nil map finds
    nothing. *)
Definition TaroCommitment_Commitment (c : positive) (a : Asset)
    : Cmd (option positive) :=
  tc ← load_taro c;
  let key := Asset_TaroCommitmentKey a in
  mret (assetCommitments tc ≫= (λ m, m !! key)).

(** [c.Commitments()]: a new map with the entries of [c.assetCommitments]
    (none when that map is nil). *)
Definition Commitments (c : positive) : Cmd (gmap (vec byte 32) positive) :=
  tc ← load_taro c;
  let assetCommitments' : gmap (vec byte 32) positive := ∅ in
  mret (match assetCommitments tc with
        | Some m => m ∪ assetCommitments'
        | None => assetCommitments'
        end).

End Methods.

(** *** Tapscript hashes of a commitment *)

Section Tapscript.

Context {T : Type}.

(** From [chainhash] and [txscript], taken as given:
    [chainhash.TaggedHash(tag, msgs...)], [TapLeaf.TapHash()] and, for
    [ScriptTreeRoot leaves], the hash
    [txscript.AssembleTaprootScriptTree(leaves...).RootNode.TapHash()]. *)
Variable TaggedHash : string → list (list byte) → vec byte 32.
Variable TapHash : Txscript.TapLeaf → vec byte 32.
Variable ScriptTreeRoot : list Txscript.TapLeaf → vec byte 32.

(** [chainhash.TagTapBranch] *)
Definition TagTapBranch : string := "TapBranch".

(** [TapBranchHash] *)
Definition TapBranchHash (l r : vec byte 32) : vec byte 32 :=
  let '(l, r) :=
    if 0 <? Bytes.Compare (vec_to_list l) (vec_to_list r) then (r, l)
    else (l, r) in
  TaggedHash TagTapBranch [vec_to_list l; vec_to_list r].

(** [IsTaroCommitmentScript].  [script[0]] is read only when the length is
    [TaroCommitmentScriptSize]. *)
Definition IsTaroCommitmentScript (script : list byte) : bool :=
  if negb (Z.of_nat (length script) =? TaroCommitmentScriptSize) then false
  else if negb (bool_decide (nth 0 script x00 = Bytes.of_Z V0)) then false
  else Bytes.Equal (take (length TaroMarker) (drop 1 script)) TaroMarker.

(** [c.TapscriptRoot(sibling)]; [sibling] is [None] for a nil pointer. *)
Definition TapscriptRoot (c : TaroCommitment T)
    (sibling : option (vec byte 32)) : res (vec byte 32) :=
  match TapLeaf c with
  | Ok commitmentLeaf =>
      match sibling with
      | None => Ok (ScriptTreeRoot [commitmentLeaf])
      | Some sibling => Ok (TapBranchHash (TapHash commitmentLeaf) sibling)
      end
  | Err e => Err e
  | Panic msg => Panic msg
  end.

End Tapscript.

End Commitment.

(** ** The [taroscript] package *)

Module Taroscript.

Import Go.

Section Taroscript.

(** [TapLeaf.TapHash()] and
    [txscript.AssembleTaprootScriptTree(leaves...).RootNode.TapHash()],
    taken as given. *)
Variable TapHash : Txscript.TapLeaf → vec byte 32.
Variable ScriptTreeRoot : list Txscript.TapLeaf → vec byte 32.

(** [IdentifyTapScriptSibling]: the root hash and the sibling leaf (a
    pointer into [leaves], [None] when nil). *)
Definition IdentifyTapScriptSibling (leaves : list Txscript.TapLeaf)
    : result (vec byte 32 * option Txscript.TapLeaf) :=
  match leaves with
  | [leaf] => Val (TapHash leaf, None)
  | [leaf0; leaf1] =>
      let rootHash := ScriptTreeRoot leaves in
      let siblingIndex :=
        if Commitment.IsTaroCommitmentScript (Txscript.Script leaf0)
        then 1%nat else 0%nat in
      Val (rootHash, leaves !! siblingIndex)
  | _ =>
      Fail (ErrorString ("unexpected number of tapscript leaves: "
                         +:+ pretty (length leaves)))
  end.

End Taroscript.

End Taroscript.

(** ** The [universe] package *)

Module Universe.

Import Go.

(** [ProofType] is a [uint8]; its constants are numbered by [iota]. *)
Definition ProofTypeUnspecified : Z := 0.
Definition ProofTypeIssuance : Z := 1.
Definition ProofTypeTransfer : Z := 2.
Definition ProofTypeIgnore : Z := 3.
Definition ProofTypeBurn : Z := 4.
Definition ProofTypeMintSupply : Z := 5.

(** [ProofType.String] *)
Definition ProofType_String (t : Z) : string :=
  if t =? ProofTypeUnspecified then "unspecified"
  else if t =? ProofTypeIssuance then "issuance"
  else if t =? ProofTypeTransfer then "transfer"
  else if t =? ProofTypeIgnore then "ignore"
  else if t =? ProofTypeBurn then "burn"
  else if t =? ProofTypeMintSupply then "mint_supply"
  else "unknown(" +:+ pretty t +:+ ")".

(** [ParseStrProofType] *)
Definition ParseStrProofType (typeStr : string) : result Z :=
  if decide (typeStr = "unspecified") then Val ProofTypeUnspecified
  else if decide (typeStr = "issuance") then Val ProofTypeIssuance
  else if decide (typeStr = "transfer") then Val ProofTypeTransfer
  else if decide (typeStr = "ignore") then Val ProofTypeIgnore
  else if decide (typeStr = "burn") then Val ProofTypeBurn
  else if decide (typeStr = "mint_supply") then Val ProofTypeMintSupply
  else Fail (ErrorString ("unknown proof type: " +:+ typeStr)).

(** The [LeafKey] interface, through the one method used here. *)
Class LeafKey (K : Type) : Type := {
  UniverseKey : K → vec byte 32
}.

Section Universe.

(** [asset.Asset] with its method [IsGenesisAsset], [btcec.PublicKey],
    [GenesisWithGroup], and from [mssmt] the functions [Proof.Root] and
    [IsEqualNode] (a [Node] interface value may be nil: [None]), all taken
    as given. *)
Context {Asset PublicKey GenesisWithGroup K : Type} `{!LeafKey K}.
Variable IsGenesisAsset : Asset → bool.
Variable MerkleProof_Root :
  Mssmt.MerkleProof → vec byte 32 → Mssmt.LeafNode → Mssmt.Node.
Variable IsEqualNode : option Mssmt.Node → option Mssmt.Node → bool.

Record Identifier : Type := {
  AssetID : vec byte 32;
  GroupKey : option PublicKey;
  ProofType : Z
}.

(** [NewProofTypeFromAsset]; the argument is [None] for a nil pointer. *)
Definition NewProofTypeFromAsset (a : option Asset) : result Z :=
  match a with
  | None => Fail (ErrorString "asset is nil")
  | Some a =>
      if IsGenesisAsset a then Val ProofTypeIssuance
      else Val ProofTypeTransfer
  end.

(** [ValidateProofUniverseType]; [Val tt] is the nil error. *)
Definition ValidateProofUniverseType (a : option Asset) (uniID : Identifier)
    : result unit :=
  match NewProofTypeFromAsset a with
  | Fail err => Fail err
  | Val expectedProofType =>
      if decide (expectedProofType ≠ ProofType uniID) then
        Fail (ErrorString
                ("proof type mismatch: expected "
                 +:+ ProofType_String expectedProofType
                 +:+ ", got " +:+ ProofType_String (ProofType uniID)))
      else Val tt
  end.

Record Leaf : Type := {
  Leaf_GenesisWithGroup : GenesisWithGroup;
  RawProof : list byte;
  Leaf_Asset : Asset;
  Amt : Z;
  IsBurn : bool
}.

(** [Leaf.SmtLeafNode] *)
Definition SmtLeafNode (m : Leaf) : Mssmt.LeafNode :=
  let amount := Amt m in
  let amount :=
    if negb (IsGenesisAsset (Leaf_Asset m)) && negb (IsBurn m) then 1
    else amount in
  Mssmt.NewLeafNode (RawProof m) amount.

(** [universe.Proof] *)
Record UniverseProof : Type := {
  Proof_Leaf : Leaf;
  Proof_LeafKey : K;
  UniverseRoot : option Mssmt.Node;
  UniverseInclusionProof : Mssmt.MerkleProof;
  MultiverseRoot : option Mssmt.Node;
  MultiverseInclusionProof : option Mssmt.MerkleProof
}.

(** The root that [VerifyRoot] rebuilds from the leaf, the leaf key and the
    inclusion proof. *)
Definition reconstructedRoot (i : UniverseProof) : Mssmt.Node :=
  MerkleProof_Root (UniverseInclusionProof i)
    (UniverseKey (Proof_LeafKey i)) (SmtLeafNode (Proof_Leaf i)).

(** [Proof.VerifyRoot] *)
Definition VerifyRoot (i : UniverseProof) (expectedRoot : option Mssmt.Node)
    : bool :=
  IsEqualNode (UniverseRoot i) expectedRoot
  && IsEqualNode (Some (reconstructedRoot i)) expectedRoot.

(** *** Universe identifiers *)

(** From [schnorr], [btcec] and [asset], taken as given:
    [schnorr.SerializePubKey], [schnorr.ParsePubKey],
    [btcec.PublicKey.IsEqual], [asset.Asset.ID()] and, for
    [Asset_GroupPubKey a], the pointer [&a.GroupKey.GroupPubKey] ([None]
    when [a.GroupKey] is nil). *)
Variable SerializePubKey : PublicKey → list byte.
Variable ParsePubKey : list byte → result PublicKey.
Variable PublicKey_IsEqual : PublicKey → PublicKey → bool.
Variable Asset_ID : Asset → vec byte 32.
Variable Asset_GroupPubKey : Asset → option PublicKey.

(** [schnorr.PubKeyBytesLen] and [btcec.PubKeyBytesLenCompressed] *)
Definition PubKeyBytesLen : nat := 32.
Definition PubKeyBytesLenCompressed : nat := 33.

(** [Identifier.Bytes] *)
Definition Identifier_Bytes (i : Identifier) : vec byte 32 :=
  match GroupKey i with
  | Some groupKey => Sha256.Sum256_array (SerializePubKey groupKey)
  | None => AssetID i
  end.

(** [Identifier.Key]: an [IdentifierKey], which is a [[33]byte]. *)
Definition Identifier_Key (i : Identifier) : vec byte 33 :=
  let id := Identifier_Bytes i in
  id +++ [# Bytes.of_Z (ProofType i)].

(** [Identifier.String]: [fmt.Sprintf("%s-%x", i.ProofType, i.Bytes())] *)
Definition Identifier_String (i : Identifier) : string :=
  ProofType_String (ProofType i) +:+ "-"
  +:+ Bytes.EncodeToString (vec_to_list (Identifier_Bytes i)).

(** [Identifier.IsEqual]; the receiver is [None] for a nil pointer.  Two
    pointers of which one is nil are equal when both are nil. *)
Definition Identifier_IsEqual (i : option Identifier) (other : Identifier)
    : bool :=
  match i with
  | None => false
  | Some i =>
      let groupKeysEqual :=
        match GroupKey i, GroupKey other with
        | Some k, Some k' => PublicKey_IsEqual k k'
        | None, None => true
        | _, _ => false
        end in
      bool_decide (AssetID i = AssetID other)
      && groupKeysEqual
      && bool_decide (ProofType i = ProofType other)
  end.

(** The zero value of [asset.ID]. *)
Definition ID_zero : vec byte 32 := vreplicate 32 x00.

(** [NewUniIDFromAsset] *)
Definition NewUniIDFromAsset (a : Asset) : Identifier :=
  let proofType :=
    if IsGenesisAsset a then ProofTypeIssuance else ProofTypeTransfer in
  match Asset_GroupPubKey a with
  | Some groupPubKey =>
      {| AssetID := ID_zero; GroupKey := Some groupPubKey;
         ProofType := proofType |}
  | None =>
      {| AssetID := Asset_ID a; GroupKey := None; ProofType := proofType |}
  end.

(** [parseGroupKey] *)
Definition parseGroupKey (scriptKey : list byte) : result PublicKey :=
  if decide (length scriptKey = PubKeyBytesLen) then ParsePubKey scriptKey
  else if decide (length scriptKey = PubKeyBytesLenCompressed)
  then ParsePubKey (drop 1 scriptKey)
  else Fail (ErrorString ("unknown script key length: "
                          +:+ pretty (length scriptKey))).

(** [NewUniIDFromRawArgs]; a nil slice is the empty list. *)
Definition NewUniIDFromRawArgs (assetIDBytes groupKeyBytes : list byte)
    (proofTypeStr : string) : result Identifier :=
  match ParseStrProofType proofTypeStr with
  | Fail err => Fail err
  | Val proofType =>
      if decide (length groupKeyBytes ≠ 0%nat) then
        match parseGroupKey groupKeyBytes with
        | Fail err => Fail (WrapError "unable to parse group key: " err)
        | Val groupKey =>
            Val {| AssetID := ID_zero; GroupKey := Some groupKey;
                   ProofType := proofType |}
        end
      else if decide (length assetIDBytes = 0%nat) then
        Fail (ErrorString "asset ID bytes and group key bytes are both nil")
      else
        let assetID := Bytes.array_of 32 assetIDBytes in
        Val {| AssetID := assetID; GroupKey := None;
               ProofType := proofType |}
  end.

End Universe.

(** *** Universe server addresses *)

Section ServerAddrs.

(** [net.Addr], and the state of the name service that
    [net.ResolveTCPAddr] consults; [net.SplitHostPort], [strconv.Atoi],
    [net.JoinHostPort] and [net.ResolveTCPAddr] are taken as given. *)
Context {Addr World : Type}.
Variable SplitHostPort : string → result (string * string).
Variable Atoi : string → result Z.
Variable JoinHostPort : string → string → string.
Variable ResolveTCPAddr : World → string → string → result Addr.

Definition DefaultUniverseRPCPort : Z := 10029.

(** [resolverUniverseAddr]; [strconv.Itoa] is [pretty]. *)
Definition resolverUniverseAddr (w : World) (uniAddr : string)
    : result Addr :=
  if decide (String.length uniAddr = 0%nat) then
    Fail (ErrorString "universe host cannot be empty")
  else
    let hostport :=
      match SplitHostPort uniAddr with
      | Fail _ => Val (uniAddr, DefaultUniverseRPCPort)
      | Val (h, p) =>
          match Atoi p with
          | Fail err => Fail err
          | Val portNum => Val (h, portNum)
          end
      end in
    match hostport with
    | Fail err => Fail err
    | Val (host, port) =>
        let hostPort := JoinHostPort host (pretty port) in
        ResolveTCPAddr w "tcp" hostPort
    end.

(** [ServerAddr]; [addr] is [None] while it is nil. *)
Record ServerAddr : Type := {
  ServerAddr_ID : Z;
  addrStr : string;
  addr : option Addr
}.

Definition NewServerAddrFromStr (s : string) : ServerAddr :=
  {| ServerAddr_ID := 0; addrStr := s; addr := None |}.

Definition NewServerAddr (i : Z) (s : string) : ServerAddr :=
  {| ServerAddr_ID := i; addrStr := s; addr := None |}.

(** [ServerAddr.Addr]: what it returns, and the receiver after the call. *)
Definition ServerAddr_Addr (w : World) (s : ServerAddr)
    : result Addr * ServerAddr :=
  match addr s with
  | Some a => (Val a, s)
  | None =>
      match resolverUniverseAddr w (addrStr s) with
      | Fail err => (Fail err, s)
      | Val a =>
          (Val a, {| ServerAddr_ID := ServerAddr_ID s; addrStr := addrStr s;
                     addr := Some a |})
      end
  end.

(** [ServerAddr.HostStr] *)
Definition HostStr (s : ServerAddr) : string := addrStr s.

End ServerAddrs.

End Universe.

(** ** The [tarofreighter] package *)

Module Tarofreighter.

(** [SendState] is a [uint8]; its constants are numbered by [iota]. *)
Definition SendStateVirtualCommitmentSelect : Z := 0.
Definition SendStateVirtualSign : Z := 1.
Definition SendStateAnchorSign : Z := 2.
Definition SendStateLogCommit : Z := 3.
Definition SendStateBroadcast : Z := 4.
Definition SendStateWaitTxConf : Z := 5.
Definition SendStateStoreProofs : Z := 6.
Definition SendStateReceiverProofTransfer : Z := 7.
Definition SendStateComplete : Z := 8.

(** The declared states, in the order of their declaration. *)
Definition SendStates : list Z :=
  [SendStateVirtualCommitmentSelect; SendStateVirtualSign;
   SendStateAnchorSign; SendStateLogCommit; SendStateBroadcast;
   SendStateWaitTxConf; SendStateStoreProofs;
   SendStateReceiverProofTransfer; SendStateComplete].

(** [SendState.String] *)
Definition SendState_String (s : Z) : string :=
  if s =? SendStateVirtualCommitmentSelect
  then "SendStateVirtualCommitmentSelect"
  else if s =? SendStateVirtualSign then "SendStateVirtualSign"
  else if s =? SendStateAnchorSign then "SendStateAnchorSign"
  else if s =? SendStateLogCommit then "SendStateLogCommit"
  else if s =? SendStateBroadcast then "SendStateBroadcast"
  else if s =? SendStateWaitTxConf then "SendStateWaitTxConf"
  else if s =? SendStateStoreProofs then "SendStateStoreProofs"
  else if s =? SendStateReceiverProofTransfer
  then "SendStateReceiverProofTransfer"
  else if s =? SendStateComplete then "SendStateComplete"
  else "<unknown_state(" +:+ pretty s +:+ ")>".

Section Parcels.

(** The types of other packages that a parcel and a send package carry:
    [address.Taro], [taropsbt.VPacket], [parcelKit] (two channels),
    [PassiveAssetReAnchor], [AnchorTransaction], [OutboundParcel], the
    proof map and [chainntnfs.TxConfirmation]. *)
Context {Taro VPacket parcelKit PassiveAssetReAnchor AnchorTransaction
         OutboundParcel FinalProofs TxConfirmation : Type}.

Record AddressParcel : Type := {
  AddressParcel_parcelKit : parcelKit;
  destAddrs : list Taro
}.

(** [inputCommitment] is a [*commitment.TaroCommitment]: an address, or
    [None] for nil.  [vPkt] is the packet pointed to ([pkg] reads its
    outputs for the log line). *)
Record PreSignedParcel : Type := {
  PreSignedParcel_parcelKit : parcelKit;
  vPkt : VPacket;
  inputCommitment : option positive
}.

(** The [Parcel] interface has these two implementations. *)
Inductive Parcel : Type :=
  | OfAddressParcel (p : AddressParcel)
  | OfPreSignedParcel (p : PreSignedParcel).

Record sendPackage : Type := {
  SendState : Z;
  VirtualPacket : option VPacket;
  PassiveAssets : list PassiveAssetReAnchor;
  Parcel_ : option Parcel;
  InputCommitment : option positive;
  AnchorTx : option AnchorTransaction;
  OutboundPkg : option OutboundParcel;
  FinalProofs_ : option FinalProofs;
  TransferTxConfEvent : option TxConfirmation
}.

(** [sendPackage{}]: every field has the zero value of its type. *)
Definition sendPackage_zero : sendPackage :=
  {| SendState := 0; VirtualPacket := None; PassiveAssets := [];
     Parcel_ := None; InputCommitment := None; AnchorTx := None;
     OutboundPkg := None; FinalProofs_ := None;
     TransferTxConfEvent := None |}.

(** [AddressParcel.pkg]: [&sendPackage{Parcel: p}].  The log line it writes
    first is not part of the result. *)
Definition AddressParcel_pkg (p : AddressParcel) : sendPackage :=
  let z := sendPackage_zero in
  {| SendState := SendState z;
     VirtualPacket := VirtualPacket z;
     PassiveAssets := PassiveAssets z;
     Parcel_ := Some (OfAddressParcel p);
     InputCommitment := InputCommitment z;
     AnchorTx := AnchorTx z;
     OutboundPkg := OutboundPkg z;
     FinalProofs_ := FinalProofs_ z;
     TransferTxConfEvent := TransferTxConfEvent z |}.

(** [PreSignedParcel.pkg] *)
Definition PreSignedParcel_pkg (p : PreSignedParcel) : sendPackage :=
  let z := sendPackage_zero in
  {| SendState := SendStateAnchorSign;
     VirtualPacket := Some (vPkt p);
     PassiveAssets := PassiveAssets z;
     Parcel_ := Some (OfPreSignedParcel p);
     InputCommitment := inputCommitment p;
     AnchorTx := AnchorTx z;
     OutboundPkg := OutboundPkg z;
     FinalProofs_ := FinalProofs_ z;
     TransferTxConfEvent := TransferTxConfEvent z |}.

(** The [pkg] method of the [Parcel] interface. *)
Definition pkg (p : Parcel) : sendPackage :=
  match p with
  | OfAddressParcel p => AddressParcel_pkg p
  | OfPreSignedParcel p => PreSignedParcel_pkg p
  end.

End Parcels.

(** *** Parcel kits and the delivery of the broadcast response *)

Section Delivery.

Import Go.

Context {Taro VPacket PassiveAssetReAnchor AnchorTransaction OutboundParcel
         FinalProofs TxConfirmation : Type}.

(** A channel made by [make(chan A, capacity)], with the values sent and
    not yet received, oldest first. *)
Record chan (A : Type) : Type := { capacity : nat; waiting : list A }.
Arguments capacity {A} _.
Arguments waiting {A} _.

(** A [parcelKit] object: its two channels, by address ([None] for a nil
    channel). *)
Record parcelKit : Type := {
  respChan : option positive;
  errChan : option positive
}.

(** The store: the [parcelKit] objects and the channels of the two element
    types.  A [*parcelKit] is an address, or [None] for nil. *)
Record Freight : Type := {
  kits_at : gmap positive parcelKit;
  respChans_at : gmap positive (chan OutboundParcel);
  errChans_at : gmap positive (chan error)
}.

Abbreviation kitptr := (option positive).

(** How a call without results ends: it returns, panics, or stays blocked
    on a channel as long as no other goroutine receives from it. *)
Inductive ended : Type :=
  | Returned
  | Panicked (msg : string)
  | Blocked.

(** [&parcelKit{respChan: make(chan *OutboundParcel, 1),
                errChan: make(chan error, 1)}] *)
Definition new_parcelKit (f : Freight) : positive * Freight :=
  let respChan := fresh (dom (respChans_at f)) in
  let errChan := fresh (dom (errChans_at f)) in
  let kit := fresh (dom (kits_at f)) in
  (kit,
   {| kits_at :=
        <[kit := {| respChan := Some respChan; errChan := Some errChan |}]>
          (kits_at f);
      respChans_at :=
        <[respChan := {| capacity := 1; waiting := [] |}]> (respChans_at f);
      errChans_at :=
        <[errChan := {| capacity := 1; waiting := [] |}]> (errChans_at f) |}).

(** [NewAddressParcel] *)
Definition NewAddressParcel (destAddrs : list Taro) (f : Freight)
    : AddressParcel (Taro := Taro) (parcelKit := kitptr) * Freight :=
  let '(kit, f') := new_parcelKit f in
  ({| AddressParcel_parcelKit := Some kit; destAddrs := destAddrs |}, f').

(** [NewPreSignedParcel] *)
Definition NewPreSignedParcel (vPkt : VPacket)
    (inputCommitment : option positive) (f : Freight)
    : PreSignedParcel (VPacket := VPacket) (parcelKit := kitptr) * Freight :=
  let '(kit, f') := new_parcelKit f in
  ({| PreSignedParcel_parcelKit := Some kit; vPkt := vPkt;
      inputCommitment := inputCommitment |}, f').

(** The [kit] method of the [Parcel] interface. *)
Definition kit (p : Parcel (Taro := Taro) (VPacket := VPacket)
                      (parcelKit := kitptr)) : kitptr :=
  match p with
  | OfAddressParcel p => AddressParcel_parcelKit p
  | OfPreSignedParcel p => PreSignedParcel_parcelKit p
  end.

(** [AddressParcel.dest] *)
Definition dest (p : AddressParcel (Taro := Taro) (parcelKit := kitptr))
    : list Taro :=
  destAddrs p.

(** [ch <- v] on a channel of the store [chans]: the value is queued when
    the buffer has room; the send blocks when the buffer is full, and on a
    nil channel. *)
Definition send {A} (chans : gmap positive (chan A)) (ch : option positive)
    (v : A) : option (gmap positive (chan A)) :=
  match ch ≫= (λ a, (λ c, (a, c)) <$> chans !! a) with
  | Some (a, c) =>
      if decide (length (waiting c) < capacity c)%nat then
        Some (<[a := {| capacity := capacity c;
                        waiting := waiting c ++ [v] |}]> chans)
      else None
  | None => None
  end.

(** [sendPackage.deliverTxBroadcastResp].  The transaction hash and the
    numbers of inputs and outputs go to the log line only, so what is left
    of [s.OutboundPkg.AnchorTx.TxHash()] is the dereference of
    [s.OutboundPkg]. *)
Definition deliverTxBroadcastResp
    (s : sendPackage (Taro := Taro) (VPacket := VPacket)
           (parcelKit := kitptr)
           (PassiveAssetReAnchor := PassiveAssetReAnchor)
           (AnchorTransaction := AnchorTransaction)
           (OutboundParcel := OutboundParcel) (FinalProofs := FinalProofs)
           (TxConfirmation := TxConfirmation))
    (f : Freight) : ended * Freight :=
  match Parcel_ s with
  | None => (Returned, f)
  | Some parcel =>
      match OutboundPkg s with
      | None => (Panicked nil_dereference, f)
      | Some outboundPkg =>
          match kit parcel ≫= (λ k, kits_at f !! k) with
          | None => (Panicked nil_dereference, f)
          | Some parcelKit =>
              match send (respChans_at f) (respChan parcelKit)
                      outboundPkg with
              | Some respChans =>
                  (Returned,
                   {| kits_at := kits_at f; respChans_at := respChans;
                      errChans_at := errChans_at f |})
              | None => (Blocked, f)
              end
          end
      end
  end.

End Delivery.

End Tarofreighter.

(** ** The [rfqmsg] package: sell requests *)

Module Rfqmsg.

Import Go.

Section SellRequests.

(** [route.Vertex] and [btcec.PublicKey] *)
Context {Vertex PublicKey : Type}.

(** Declared in other files of the package, and taken as given: the
    version [V0] of the [WireMsgDataVersion] type (a [uint8]) and the
    message type [MsgTypeRequest]. *)
Variable V0 : Z.
Variable MsgTypeRequest : Z.

Definition latestSellRequestVersion : Z := V0.

(** [SellRequest]; the two pointers are [None] when nil. *)
Record SellRequest : Type := {
  Peer : Vertex;
  Version : Z;
  ID : vec byte 32;
  AssetID : option (vec byte 32);
  AssetGroupKey : option PublicKey;
  AssetAmount : Z;
  AskPrice : Z
}.

(** [WireMessage] *)
Record WireMessage : Type := {
  WireMessage_Peer : Vertex;
  MsgType : Z;
  Data : list byte
}.

(** What [NewSellRequestMsgFromWire] reads of a [requestWireMsgData]: the
    values of the records [Version], [ID] and [AssetMaxAmount], and the
    optional records [OutAssetID], [OutAssetGroupKey] (whose value is a
    pointer) and [SuggestedRateTick]. *)
Record requestWireMsgData : Type := {
  msgData_Version : Z;
  msgData_ID : vec byte 32;
  OutAssetID : option (vec byte 32);
  OutAssetGroupKey : option (option PublicKey);
  SuggestedRateTick : option Z;
  AssetMaxAmount : Z
}.

(** [SellRequest.Validate]; [Val tt] is the nil error. *)
Definition Validate (q : SellRequest) : result unit :=
  match AssetID q, AssetGroupKey q with
  | None, None =>
      Fail (ErrorString "asset id and group key cannot both be nil")
  | Some _, Some _ =>
      Fail (ErrorString "asset id and group key cannot both be non-nil")
  | _, _ =>
      if latestSellRequestVersion <? Version q then
        Fail (ErrorString ("unsupported sell request message version: "
                           +:+ pretty (Version q)))
      else Val tt
  end.

(** [NewSellRequest]; [random] is what [rand.Read] gives for the id. *)
Definition NewSellRequest (random : result (vec byte 32)) (peer : Vertex)
    (assetID : option (vec byte 32)) (assetGroupKey : option PublicKey)
    (assetAmount askPrice : Z) : result SellRequest :=
  match random with
  | Fail err => Fail (WrapError "unable to generate random id: " err)
  | Val id =>
      Val {| Peer := peer; Version := latestSellRequestVersion; ID := id;
             AssetID := assetID; AssetGroupKey := assetGroupKey;
             AssetAmount := assetAmount; AskPrice := askPrice |}
  end.

(** [NewSellRequestMsgFromWire] *)
Definition NewSellRequestMsgFromWire (wireMsg : WireMessage)
    (msgData : requestWireMsgData) : result SellRequest :=
  if negb (MsgType wireMsg =? MsgTypeRequest) then
    Fail (ErrorString
            ("unable to create a sell request message from wire message "
             +:+ "of type " +:+ pretty (MsgType wireMsg)))
  else
    let assetID := OutAssetID msgData in
    let assetGroupKey := default None (OutAssetGroupKey msgData) in
    match assetID, assetGroupKey with
    | None, None =>
        Fail (ErrorString
                ("inbound asset ID and group key cannot both be unset "
                 +:+ "for incoming buy request"))
    | _, _ =>
        let askPrice := default 0 (SuggestedRateTick msgData) in
        let req :=
          {| Peer := WireMessage_Peer wireMsg;
             Version := msgData_Version msgData;
             ID := msgData_ID msgData;
             AssetID := assetID;
             AssetGroupKey := assetGroupKey;
             AssetAmount := AssetMaxAmount msgData;
             AskPrice := askPrice |} in
        match Validate req with
        | Fail err =>
            Fail (WrapError "unable to validate sell request: " err)
        | Val _ => Val req
        end
    end.

(** [SellRequest.MsgPeer] and [SellRequest.MsgID] *)
Definition MsgPeer (q : SellRequest) : Vertex := Peer q.
Definition MsgID (q : SellRequest) : vec byte 32 := ID q.

End SellRequests.

End Rfqmsg.

(** ** A reference implementation of the packages taken as given *)

Module Reference.

Import Go.

#[global] Instance LeafNode_eq_dec : EqDecision Mssmt.LeafNode.
Proof. solve_decision. Defined.

(** The error of an insertion whose sums would pass [2^64 - 1]. *)
Definition ErrIntegerOverflow : error := ErrorString "integer overflow".

Definition EmptyLeaf : Mssmt.LeafNode := Mssmt.NewLeafNode [] 0.

(** The sum of the root: the sum of the leaves. *)
Definition total (t : gmap (vec byte 32) Mssmt.LeafNode) : Z :=
  map_fold (λ _ leaf acc, Mssmt.sum leaf + acc) 0 t.

Definition entry_bytes (kv : vec byte 32 * Mssmt.LeafNode) : list byte :=
  vec_to_list kv.1 ++ Bytes.PutUint64 (Mssmt.sum kv.2) ++ Mssmt.Value kv.2.

(** The hash of the root.  It is taken over the list of the leaves in one
    go, not level by level through 256 levels of branches; like the hash of
    an MS-SMT root it depends on nothing but the non-empty leaves. *)
Definition digest (t : gmap (vec byte 32) Mssmt.LeafNode) : vec byte 32 :=
  Sha256.Sum256_array (concat (entry_bytes <$> map_to_list t)).

Definition root_of (t : gmap (vec byte 32) Mssmt.LeafNode) : Mssmt.Node :=
  {| Mssmt.NodeHash := digest t; Mssmt.NodeSum := total t |}.

Definition tree_Insert (t : gmap (vec byte 32) Mssmt.LeafNode)
    (key : vec byte 32) (leaf : Mssmt.LeafNode)
    : result (gmap (vec byte 32) Mssmt.LeafNode) :=
  let t' := if decide (leaf = EmptyLeaf) then delete key t
            else <[key := leaf]> t in
  if 2 ^ 64 - 1 <? total t' then Fail ErrIntegerOverflow else Val t'.

(** Modelled from the spec: the [mssmt] tree of section 4.A, held as the map
    of its non-empty leaves.  [Insert] overwrites the leaf and fails with an
    integer overflow when the sum would pass [2^64 - 1]; [Delete k] is
    [Insert k EmptyLeaf]; [EmptyTreeRootHash] is the root hash of the tree
    without leaves.  It serves to evaluate the commitment layer on concrete
    commitments. *)
#[global] Instance RefTree : Mssmt.Tree (gmap (vec byte 32) Mssmt.LeafNode) := {|
  Mssmt.NewCompactedTree := ∅;
  Mssmt.EmptyTreeRootHash := digest ∅;
  Mssmt.Insert := tree_Insert;
  Mssmt.Delete := λ t key, tree_Insert t key EmptyLeaf;
  Mssmt.Root := λ t, (Some (root_of t), None);
  Mssmt.GetMerkleProof := λ t key, Val {| Mssmt.Nodes := [] |}
|}.

Abbreviation RefAsset :=
  (Commitment.AssetCommitment (gmap (vec byte 32) Mssmt.LeafNode)).

(** [AssetCommitment.Merge]: every asset of [other] is upserted into the
    receiver. *)
Definition asset_Merge (c other : RefAsset) : RefAsset * option error :=
  let inner := Commitment.asset_inner other ∪ Commitment.asset_inner c in
  if 2 ^ 64 - 1 <? total inner then (c, Some ErrIntegerOverflow)
  else ({| Commitment.asset_Version := Commitment.asset_Version c;
           Commitment.asset_AssetID := Commitment.asset_AssetID c;
           Commitment.asset_TreeRoot := root_of inner;
           Commitment.asset_inner := inner |}, None).

(** Modelled from the spec: the inner commitment of section 3, an MS-SMT
    keyed by asset commitment key, for an asset without a group key (its
    outer key is the asset id, section 4.B).  Its outer leaf is
    [asset_version || asset_tree_root || asset_sum] with the root sum as
    its sum; a copy has the contents of the original. *)
#[global] Instance RefAssetMethods :
  Commitment.AssetCommitmentMethods
    (gmap (vec byte 32) Mssmt.LeafNode) Mssmt.LeafNode := {|
  Commitment.TaroCommitmentKey := λ a, Commitment.asset_AssetID a;
  Commitment.TaroCommitmentLeaf := λ a,
    Mssmt.NewLeafNode
      (Bytes.of_Z (Commitment.asset_Version a)
       :: vec_to_list (Mssmt.NodeHash (Commitment.asset_TreeRoot a))
       ++ Bytes.PutUint64 (Mssmt.NodeSum (Commitment.asset_TreeRoot a)))
      (Mssmt.NodeSum (Commitment.asset_TreeRoot a));
  Commitment.AssetCommitment_Copy := λ a, Val a;
  Commitment.AssetCommitment_Merge := asset_Merge;
  Commitment.AssetCommitment_AssetProof := λ a key,
    Val (Commitment.asset_inner a !! key, {| Mssmt.Nodes := [] |})
|}.

(** A [range] visits the entries in the order of [map_to_list]. *)
Definition range (m : gmap (vec byte 32) positive)
    : list (vec byte 32 * positive) := map_to_list m.

(** *** Concrete commitments *)

Definition key1 : vec byte 32 := vreplicate 32 x01.
Definition key2 : vec byte 32 := vreplicate 32 x02.

Definition unit_leaf (amount : Z) : Mssmt.LeafNode :=
  Mssmt.NewLeafNode (Bytes.PutUint64 amount) amount.

Definition NewRefAsset (version : Z) (id : vec byte 32)
    (inner : gmap (vec byte 32) Mssmt.LeafNode) : RefAsset :=
  {| Commitment.asset_Version := version;
     Commitment.asset_AssetID := id;
     Commitment.asset_TreeRoot := root_of inner;
     Commitment.asset_inner := inner |}.

(** An asset commitment of version 1 under [key1], one of version 0 under
    [key2], one under [key1] whose tree is empty, and a second one of
    version 0 under [key1]. *)
Definition assetA : RefAsset := NewRefAsset 1 key1 {[ key1 := unit_leaf 5 ]}.
Definition assetB : RefAsset := NewRefAsset 0 key2 {[ key2 := unit_leaf 7 ]}.
Definition assetE : RefAsset := NewRefAsset 0 key1 ∅.
Definition assetC : RefAsset := NewRefAsset 0 key1 {[ key2 := unit_leaf 3 ]}.

Abbreviation RefHeap :=
  (Commitment.Heap (gmap (vec byte 32) Mssmt.LeafNode)
     (gmap (vec byte 32) Mssmt.LeafNode)).

(** The store with these four asset commitments, at the addresses 1 to 4,
    and no commitment yet. *)
Definition heap0 : RefHeap :=
  {| Commitment.assets_at :=
       {[ 1%positive := assetA; 2%positive := assetB; 3%positive := assetE;
          4%positive := assetC ]};
     Commitment.taros_at := ∅ |}.

(** The store after a call. *)
Definition after {A} (m : M RefHeap A) (h : RefHeap) : RefHeap := (m h).2.

(** [c1 := NewTaroCommitment(assetA, assetB)]: a full commitment at
    address 1. *)
Definition heap_full : RefHeap :=
  after (Commitment.NewTaroCommitment [1; 2]%positive) heap0.

(** [c1 := NewTaroCommitmentWithRoot(0, root)] and then
    [c2 := NewTaroCommitment()]: a root-only commitment at address 1 and a
    full commitment without asset commitments at address 2. *)
Definition heap_root_only_and_empty : RefHeap :=
  after (Commitment.NewTaroCommitment [])
    (after (Commitment.NewTaroCommitmentWithRoot 0 (Some (root_of ∅)))
       heap0).

(** [c1 := NewTaroCommitmentWithRoot(0, root)] and then
    [c2 := NewTaroCommitment(assetB)]. *)
Definition heap_root_only_and_full : RefHeap :=
  after (Commitment.NewTaroCommitment [2%positive])
    (after (Commitment.NewTaroCommitmentWithRoot 0 (Some (root_of ∅)))
       heap0).

(** [c1 := NewTaroCommitment(assetA)] and then
    [c2 := NewTaroCommitmentWithRoot(0, root)]. *)
Definition heap_full_and_root_only : RefHeap :=
  after (Commitment.NewTaroCommitmentWithRoot 0 (Some (root_of ∅)))
    (after (Commitment.NewTaroCommitment [1%positive]) heap0).

(** [c1 := NewTaroCommitment(assetB)] and then [c1.Upsert(assetA)]: the
    commitment at address 1 holds an asset commitment of version 1. *)
Definition heap_upserted : RefHeap :=
  after (Commitment.Upsert 1 (Some 1%positive))
    (after (Commitment.NewTaroCommitment [2%positive]) heap0).

(** ... and then [c2, _ := c1.Copy()]. *)
Definition heap_copied : RefHeap :=
  after (Commitment.Copy range 1) heap_upserted.

(** [c1 := NewTaroCommitment(assetA)] and then
    [c2 := NewTaroCommitment(assetC, assetB)]: two full commitments that
    share no asset commitment, with one key in common. *)
Definition heap_two : RefHeap :=
  after (Commitment.NewTaroCommitment [4; 2]%positive)
    (after (Commitment.NewTaroCommitment [1%positive]) heap0).

End Reference.

(** * Properties *)

(** ** Bytes and digests *)

Lemma to_Z_of_Z (z : Z) : Bytes.to_Z (Bytes.of_Z z) = z mod 256.
Proof.
  unfold Bytes.to_Z, Bytes.of_Z.
  pose proof (Z.mod_pos_bound z 256 ltac:(lia)) as Hb.
  destruct (Byte.of_N (Z.to_N (z mod 256))) as [b|] eqn:E.
  - apply Byte.to_of_N in E. rewrite E, Z2N.id; lia.
  - apply Byte.of_N_None_iff in E. lia.
Qed.

(** Reading back the eight bytes of [PutUint64 v] gives [v] as a [uint64]. *)
Lemma Uint_PutUint64 (v : Z) :
  Bytes.Uint (Bytes.PutUint64 v) = v mod 2 ^ 64.
Proof.
  unfold Bytes.Uint, Bytes.PutUint64. cbn [fold_left].
  rewrite !to_Z_of_Z, !Z.shiftr_div_pow2 by lia.
  assert (Hdiv : ∀ a k, 0 ≤ k → a / 2 ^ (k + 8) = a / 2 ^ k / 256).
  { intros a k Hk. rewrite Z.pow_add_r, Z.div_div by lia. reflexivity. }
  change 56 with (48 + 8). rewrite (Hdiv v 48) by lia.
  change 48 with (40 + 8). rewrite (Hdiv v 40) by lia.
  change 40 with (32 + 8). rewrite (Hdiv v 32) by lia.
  change 32 with (24 + 8). rewrite (Hdiv v 24) by lia.
  change 24 with (16 + 8). rewrite (Hdiv v 16) by lia.
  change 16 with (8 + 8). rewrite (Hdiv v 8) by lia.
  change (v / 2 ^ 8) with (v / 256).
  rewrite !(Z.mod_eq _ 256) by lia.
  rewrite (Z.mod_eq v (2 ^ 64)) by lia.
  replace (v / 2 ^ 64)
    with (v / 256 / 256 / 256 / 256 / 256 / 256 / 256 / 256).
  { change (2 ^ 64) with 18446744073709551616. ring. }
  rewrite !Z.div_div by lia. reflexivity.
Qed.

Lemma length_PutUint32 (v : Z) : length (Bytes.PutUint32 v) = 4%nat.
Proof. reflexivity. Qed.

Lemma length_PutUint64 (v : Z) : length (Bytes.PutUint64 v) = 8%nat.
Proof. reflexivity. Qed.

Lemma length_block (hs chunk : list Z) :
  length hs = 8%nat → length (Sha256.block hs chunk) = 8%nat.
Proof.
  intros Hl. do 9 (destruct hs as [|? hs]; try discriminate Hl).
  unfold Sha256.block.
  by destruct (fold_left _ _ _).
Qed.

Lemma length_blocks (n : nat) (hs ws : list Z) :
  length hs = 8%nat → length (Sha256.blocks n hs ws) = 8%nat.
Proof.
  revert hs ws. induction n as [|n IH]; intros hs ws Hl; simpl; [done|].
  apply IH, length_block, Hl.
Qed.

Lemma length_flat_map_PutUint32 (ws : list Z) :
  length (flat_map Bytes.PutUint32 ws) = (4 * length ws)%nat.
Proof. induction ws as [|w ws IH]; simpl; [done|]. rewrite IH. lia. Qed.

(** A SHA-256 digest has 32 bytes, whatever the message. *)
Lemma length_Sum256 (data : list byte) :
  length (Sha256.Sum256 data) = 32%nat.
Proof.
  unfold Sha256.Sum256.
  by rewrite length_flat_map_PutUint32, length_blocks.
Qed.

Lemma vec_of_list_length {A} (n : nat) (l : list A) :
  length l = n → ∃ v, vec_of_list n l = Some v ∧ vec_to_list v = l.
Proof.
  revert l. induction n as [|n IH]; intros [|x l] Hl; try discriminate Hl.
  - by exists [#].
  - destruct (IH l) as (v & Hv & Hvl); [by injection Hl|].
    exists (x ::: v). simpl. rewrite Hv. split; [done|]. by rewrite <- Hvl.
Qed.

(** The array form of a digest holds the bytes of its string form. *)
Lemma Sum256_array_to_list (data : list byte) :
  vec_to_list (Sha256.Sum256_array data) = Sha256.Sum256 data.
Proof.
  unfold Sha256.Sum256_array.
  destruct (vec_of_list_length 32 (Sha256.Sum256 data) (length_Sum256 data))
    as (v & -> & Hv).
  exact Hv.
Qed.

(** The marker, byte by byte: the SHA-256 digest of the string taro. *)
Lemma TaroMarker_bytes :
  Commitment.TaroMarker =
  [x8f; xf5; x2c; x91; xed; x7d; x50; x94; x40; xaa; x7f; xbf; x04; xad;
   x60; xad; x55; x4e; x4a; x01; xf1; x01; xe5; x22; x29; x16; xe7; x0f;
   x9f; x68; xfb; x45].
Proof. vm_compute. reflexivity. Qed.

(** The digest of the three bytes abc, as FIPS 180-4 gives it. *)
Lemma Sum256_abc :
  Sha256.Sum256 [x61; x62; x63] =
  [xba; x78; x16; xbf; x8f; x01; xcf; xea; x41; x41; x40; xde; x5d; xae;
   x22; x23; xb0; x03; x61; xa3; x96; x17; x7a; x9c; xb4; x10; xff; x61;
   xf2; x00; x15; xad].
Proof. vm_compute. reflexivity. Qed.

(** A message of two blocks (a hundred bytes a) hashes as in Go. *)
Lemma Sum256_two_blocks :
  Sha256.Sum256 (repeat x61 100) =
  [x28; x16; x59; x78; x88; xe4; xa0; xd3; xa3; x6b; x82; xb8; x33; x16;
   xab; x32; x68; x0e; xb8; xf0; x0f; x8c; xd3; xb9; x04; xd6; x81; x24;
   x6d; x28; x5a; x0e].
Proof. vm_compute. reflexivity. Qed.

(** ** The tapscript leaf of a commitment *)

(** C1: the script of the leaf that [c.TapLeaf()] returns is the version
    byte, the 32 bytes of the marker [SHA256("taro")], the 32 bytes of the
    root hash and the root sum as a big-endian [uint64] on 8 bytes, in this
    order; it has 73 bytes, which is [TaroCommitmentScriptSize].  The call
    returns a leaf for every commitment whose [TreeRoot] is not nil (on a
    nil [TreeRoot] it panics). *)
Theorem TapLeaf_script {T : Type} (c : Commitment.TaroCommitment T) :
  match Commitment.TreeRoot c with
  | Some root =>
      ∃ leaf,
        Commitment.TapLeaf c = Go.Ok leaf
        ∧ let script := Txscript.Script leaf in
          let marker := Sha256.Sum256 (list_byte_of_string "taro") in
          let root_hash := vec_to_list (Mssmt.NodeHash root) in
          let root_sum := Bytes.PutUint64 (Mssmt.NodeSum root) in
          script = [Bytes.of_Z (Commitment.Version c)] ++ marker
                     ++ root_hash ++ root_sum
          ∧ Commitment.TaroMarker = marker
          ∧ length marker = 32%nat
          ∧ length root_hash = 32%nat
          ∧ length root_sum = 8%nat
          ∧ Bytes.Uint root_sum = Mssmt.NodeSum root mod 2 ^ 64
          ∧ length script = 73%nat
          ∧ Z.of_nat (length script) = Commitment.TaroCommitmentScriptSize
  | None => Commitment.TapLeaf c = Go.Panic Go.nil_dereference
  end.
Proof.
  unfold Commitment.TapLeaf.
  destruct (Commitment.TreeRoot c) as [root|]; [|reflexivity].
  eexists. split; [reflexivity|].
  set (script := Txscript.Script _).
  set (marker := Sha256.Sum256 _).
  set (root_hash := vec_to_list _).
  set (root_sum := Bytes.PutUint64 _).
  assert (Hscript : script = [Bytes.of_Z (Commitment.Version c)] ++ marker
                             ++ root_hash ++ root_sum).
  { unfold script, Txscript.NewBaseTapLeaf, Bytes.Join.
    cbn [Txscript.Script concat]. rewrite app_nil_r. reflexivity. }
  assert (Hm : length marker = 32%nat) by apply length_Sum256.
  assert (Hh : length root_hash = 32%nat) by apply length_vec_to_list.
  assert (Hlen : length script = 73%nat).
  { rewrite Hscript, !length_app, Hm, Hh. reflexivity. }
  split; [exact Hscript|].
  split; [reflexivity|].
  split; [exact Hm|].
  split; [exact Hh|].
  split; [apply length_PutUint64|].
  split; [apply Uint_PutUint64|].
  split; [exact Hlen|].
  rewrite Hlen. reflexivity.
Qed.

(** ** Universe leaves, proofs and proof types *)

Section UniverseFacts.

Context {Asset PublicKey GenesisWithGroup K : Type} `{!Universe.LeafKey K}.
Variable IsGenesisAsset : Asset → bool.
Variable MerkleProof_Root :
  Mssmt.MerkleProof → vec byte 32 → Mssmt.LeafNode → Mssmt.Node.
Variable IsEqualNode : option Mssmt.Node → option Mssmt.Node → bool.

(** C5: the MS-SMT leaf of a universe leaf carries the raw proof bytes as
    its value; its sum is the amount of the leaf when the asset is a genesis
    asset or the leaf is a burn, and 1 in every other case. *)
Theorem SmtLeafNode_value_and_sum
    (m : Universe.Leaf (Asset := Asset) (GenesisWithGroup := GenesisWithGroup)) :
  let node := Universe.SmtLeafNode IsGenesisAsset m in
  Mssmt.Value node = Universe.RawProof m
  ∧ (IsGenesisAsset (Universe.Leaf_Asset m) = true ∨ Universe.IsBurn m = true
     → Mssmt.sum node = Universe.Amt m)
  ∧ (IsGenesisAsset (Universe.Leaf_Asset m) = false
     ∧ Universe.IsBurn m = false
     → Mssmt.sum node = 1).
Proof.
  unfold Universe.SmtLeafNode, Mssmt.NewLeafNode. cbn [Mssmt.Value Mssmt.sum].
  split; [reflexivity|].
  destruct (IsGenesisAsset (Universe.Leaf_Asset m)), (Universe.IsBurn m);
    cbn [negb andb]; split; try reflexivity.
  all: try (intros [Hg|Hb]; congruence).
  all: intros [Hg Hb]; congruence.
Qed.

(** C6: [VerifyRoot] answers true exactly when the root rebuilt from the
    leaf, the leaf key and the inclusion proof equals the expected root and
    the root carried in the proof equals the expected root; when either
    comparison fails it answers false. *)
Theorem VerifyRoot_iff
    (p : Universe.UniverseProof (Asset := Asset)
           (GenesisWithGroup := GenesisWithGroup) (K := K))
    (expected : option Mssmt.Node) :
  let rebuilt :=
    MerkleProof_Root (Universe.UniverseInclusionProof p)
      (Universe.UniverseKey (Universe.Proof_LeafKey p))
      (Universe.SmtLeafNode IsGenesisAsset (Universe.Proof_Leaf p)) in
  let verdict :=
    Universe.VerifyRoot IsGenesisAsset MerkleProof_Root IsEqualNode p
      expected in
  (verdict = true
   ↔ IsEqualNode (Some rebuilt) expected = true
     ∧ IsEqualNode (Universe.UniverseRoot p) expected = true)
  ∧ (IsEqualNode (Some rebuilt) expected = false
     ∨ IsEqualNode (Universe.UniverseRoot p) expected = false
     → verdict = false).
Proof.
  intros rebuilt verdict.
  unfold verdict, Universe.VerifyRoot, Universe.reconstructedRoot.
  fold rebuilt.
  destruct (IsEqualNode (Some rebuilt) expected),
    (IsEqualNode (Universe.UniverseRoot p) expected); cbn [andb].
  all: split; [split; [intros Hv|intros [Ha Hb]]|intros [Ha|Hb]];
    try congruence; auto.
Qed.

(** The proof type of an asset is [ProofTypeIssuance] or
    [ProofTypeTransfer], and nothing else. *)
Lemma NewProofTypeFromAsset_range (a : Asset) :
  Universe.NewProofTypeFromAsset IsGenesisAsset (Some a)
    = Go.Val Universe.ProofTypeIssuance
  ∨ Universe.NewProofTypeFromAsset IsGenesisAsset (Some a)
    = Go.Val Universe.ProofTypeTransfer.
Proof.
  unfold Universe.NewProofTypeFromAsset.
  destruct (IsGenesisAsset a); [by left | by right].
Qed.

(** C9: for a non-nil asset and an identifier whose proof type is neither
    issuance nor transfer, [ValidateProofUniverseType] returns an error (the
    proof type mismatch), since the proof type of an asset is issuance or
    transfer and nothing else. *)
Theorem ValidateProofUniverseType_rejects
    (a : Asset) (uniID : Universe.Identifier (PublicKey := PublicKey)) :
  Universe.ProofType uniID ≠ Universe.ProofTypeIssuance →
  Universe.ProofType uniID ≠ Universe.ProofTypeTransfer →
  (Universe.NewProofTypeFromAsset IsGenesisAsset (Some a)
     = Go.Val Universe.ProofTypeIssuance
   ∨ Universe.NewProofTypeFromAsset IsGenesisAsset (Some a)
     = Go.Val Universe.ProofTypeTransfer)
  ∧ ∃ expected,
      Universe.NewProofTypeFromAsset IsGenesisAsset (Some a)
        = Go.Val expected
      ∧ Universe.ValidateProofUniverseType IsGenesisAsset (Some a) uniID
        = Go.Fail
            (Go.ErrorString
               ("proof type mismatch: expected "
                +:+ Universe.ProofType_String expected
                +:+ ", got "
                +:+ Universe.ProofType_String (Universe.ProofType uniID))).
Proof.
  intros Hi Ht. split; [apply NewProofTypeFromAsset_range|].
  unfold Universe.ValidateProofUniverseType.
  destruct (NewProofTypeFromAsset_range a) as [-> | ->];
    eexists; (split; [reflexivity|]); by rewrite decide_True by congruence.
Qed.

End UniverseFacts.

(** An asset is modelled by the answer of [IsGenesisAsset]: here a transfer
    asset, checked against a burn universe and a mint supply universe. *)
Lemma ValidateProofUniverseType_rejects_witness :
  (∃ e, Universe.ValidateProofUniverseType (λ b : bool, b) (Some false)
          {| Universe.AssetID := Reference.key1;
             Universe.GroupKey := @None unit;
             Universe.ProofType := Universe.ProofTypeBurn |} = Go.Fail e)
  ∧ ∃ e, Universe.ValidateProofUniverseType (λ b : bool, b) (Some true)
          {| Universe.AssetID := Reference.key1;
             Universe.GroupKey := @None unit;
             Universe.ProofType := Universe.ProofTypeMintSupply |} = Go.Fail e.
Proof.
  split.
  - destruct (ValidateProofUniverseType_rejects (λ b : bool, b) false
      {| Universe.AssetID := Reference.key1;
         Universe.GroupKey := @None unit;
         Universe.ProofType := Universe.ProofTypeBurn |})
      as [_ (expected & _ & Hv)]; [discriminate | discriminate |].
    eexists. exact Hv.
  - destruct (ValidateProofUniverseType_rejects (λ b : bool, b) true
      {| Universe.AssetID := Reference.key1;
         Universe.GroupKey := @None unit;
         Universe.ProofType := Universe.ProofTypeMintSupply |})
      as [_ (expected & _ & Hv)]; [discriminate | discriminate |].
    eexists. exact Hv.
Defined.

(** ** Send states *)

(** C7: the package of a pre-signed parcel starts in [SendStateAnchorSign],
    the package of an address parcel in [SendStateVirtualCommitmentSelect]
    (the zero value of the field, which the struct literal leaves unset);
    the latter is the first of the nine declared states, which are strictly
    increasing in their declaration order. *)
Theorem pkg_initial_SendState
    {Taro VPacket parcelKit PassiveAssetReAnchor AnchorTransaction
     OutboundParcel FinalProofs TxConfirmation : Type} :
  (∀ p : Tarofreighter.PreSignedParcel,
     Tarofreighter.SendState
       (Tarofreighter.PreSignedParcel_pkg
          (Taro := Taro) (VPacket := VPacket) (parcelKit := parcelKit)
          (PassiveAssetReAnchor := PassiveAssetReAnchor)
          (AnchorTransaction := AnchorTransaction)
          (OutboundParcel := OutboundParcel) (FinalProofs := FinalProofs)
          (TxConfirmation := TxConfirmation) p)
     = Tarofreighter.SendStateAnchorSign)
  ∧ (∀ p : Tarofreighter.AddressParcel,
       Tarofreighter.SendState
         (Tarofreighter.AddressParcel_pkg
            (Taro := Taro) (VPacket := VPacket) (parcelKit := parcelKit)
            (PassiveAssetReAnchor := PassiveAssetReAnchor)
            (AnchorTransaction := AnchorTransaction)
            (OutboundParcel := OutboundParcel) (FinalProofs := FinalProofs)
            (TxConfirmation := TxConfirmation) p)
       = Tarofreighter.SendStateVirtualCommitmentSelect)
  ∧ length Tarofreighter.SendStates = 9%nat
  ∧ head Tarofreighter.SendStates
    = Some Tarofreighter.SendStateVirtualCommitmentSelect
  ∧ Tarofreighter.SendStates !! 2%nat = Some Tarofreighter.SendStateAnchorSign
  ∧ StronglySorted Z.lt Tarofreighter.SendStates
  ∧ (∀ s, s ∈ Tarofreighter.SendStates →
       Tarofreighter.SendStateVirtualCommitmentSelect ≤ s).
Proof.
  split; [reflexivity|]. split; [reflexivity|].
  split; [reflexivity|]. split; [reflexivity|]. split; [reflexivity|].
  split.
  - unfold Tarofreighter.SendStates.
    repeat (apply SSorted_cons;
            [|repeat (apply List.Forall_cons; [reflexivity|]);
              apply List.Forall_nil]).
    apply SSorted_nil.
  - intros s Hs. unfold Tarofreighter.SendStates in Hs.
    repeat (apply elem_of_cons in Hs as [->|Hs]; [done|]).
    by apply elem_of_nil in Hs.
Qed.

(** ** The commitment layer *)

Section CommitmentFacts.

Import Go Commitment.

Context {T Inner Asset : Type}.
Context `{!Mssmt.Tree T} `{!AssetCommitmentMethods Inner Asset}.
Variable range :
  gmap (vec byte 32) positive → list (vec byte 32 * positive).

(** C2: for an inner commitment whose tree root hash is the empty-tree root
    hash, [c.Upsert(inner)] does what [c.Delete(inner)] does: the two calls
    end in the same way and leave the same outer tree and the same tree
    root; when they succeed they leave the same store, in which the entry is
    deleted from the outer tree (no leaf is inserted) and from the asset
    commitment map. *)
Theorem Upsert_empty_is_Delete (h : Heap T Inner) (c p : positive)
    (inner : AssetCommitment Inner) :
  assets_at h !! p = Some inner →
  Mssmt.NodeHash (asset_TreeRoot inner) = Mssmt.EmptyTreeRootHash →
  let key := TaroCommitmentKey inner in
  let up := Upsert c (Some p) h in
  let del := Delete c (Some p) h in
  up.1 = del.1
  ∧ assets_at up.2 = assets_at del.2
  ∧ TreeRoot <$> taros_at up.2 !! c = TreeRoot <$> taros_at del.2 !! c
  ∧ tree <$> taros_at up.2 !! c = tree <$> taros_at del.2 !! c
  ∧ (up.1 = Ok tt →
     up.2 = del.2
     ∧ ∃ tc t t',
         taros_at h !! c = Some tc
         ∧ tree tc = Some t
         ∧ Mssmt.Delete t key = Val t'
         ∧ (Mssmt.Root t').2 = None
         ∧ taros_at up.2 !! c
           = Some {| Version := Version tc; TreeRoot := (Mssmt.Root t').1;
                     tree := Some t';
                     assetCommitments :=
                       delete key <$> assetCommitments tc |}).
Proof.
  intros Hp Hempty key up del.
  unfold up, del, Upsert, Delete.
  unfold mbind, M_bind, bind, load_asset. rewrite Hp.
  rewrite decide_True by exact Hempty. fold key.
  unfold c_tree_Delete, c_TreeRoot_update, c_assetCommitments_delete.
  unfold mbind, M_bind, bind, load_taro, store_taro, lift, panic.
  destruct (taros_at h !! c) as [tc|] eqn:Hc; [|by cbn; rewrite ?Hc].
  destruct (tree tc) as [t|] eqn:Ht; [|by cbn; rewrite ?Hc].
  destruct (Mssmt.Delete t key) as [t'|e] eqn:Hd; [|by cbn; rewrite ?Hc].
  cbn. rewrite !lookup_insert_eq. cbn. rewrite !lookup_insert_eq. cbn.
  destruct (Mssmt.Root t') as [root [e|]] eqn:Hr; cbn.
  - rewrite !lookup_insert_eq. cbn.
    do 4 (split; [reflexivity|]). discriminate.
  - rewrite !lookup_insert_eq. cbn. rewrite !insert_insert_eq.
    rewrite !lookup_insert_eq.
    do 4 (split; [reflexivity|]). intros _. split; [reflexivity|].
    exists tc, t, t'. rewrite Hr. cbn. done.
Qed.

(** C3, as the code has it: when the argument [other] is a root-only
    commitment (its asset commitment map is nil), [c.Merge(other)] returns
    the error that the commitments cannot be merged, whatever the receiver
    is, and leaves the store as it was; when [other] has an empty, non-nil
    map, [Merge] returns no error and leaves the store as it was, also for
    a root-only receiver. *)
Theorem Merge_root_only_argument (h : Heap T Inner) (c other : positive)
    (otc : TaroCommitment T) :
  taros_at h !! other = Some otc →
  (assetCommitments otc = None →
   Merge range c other h = (Err cannot_merge, h))
  ∧ (∀ m, assetCommitments otc = Some m → size m = O →
       Merge range c other h = (Ok tt, h)).
Proof.
  intros Ho. unfold Merge, mbind, M_bind, bind, load_taro. rewrite Ho.
  split.
  - by intros ->.
  - intros m -> Hm. by rewrite decide_True.
Qed.

(** C8: on a commitment made by [NewTaroCommitmentWithRoot], [Proof] panics,
    whatever the two keys; and on any commitment, [Proof] panics with that
    message exactly when the asset commitment map or the tree is nil. *)
Theorem Proof_panics_on_root_only (h : Heap T Inner) (version : Z)
    (root : option Mssmt.Node)
    (taroCommitmentKey assetCommitmentKey : vec byte 32) :
  let made := NewTaroCommitmentWithRoot version root h in
  (∃ c, made.1 = Ok c
        ∧ taros_at made.2 !! c
          = Some {| Version := version; TreeRoot := root;
                    tree := None; assetCommitments := None |}
        ∧ (TaroCommitment_Proof c taroCommitmentKey assetCommitmentKey
             made.2).1
          = Panic "missing asset commitments to compute proofs")
  ∧ (∀ (h' : Heap T Inner) (c : positive) (tc : TaroCommitment T),
       taros_at h' !! c = Some tc →
       (TaroCommitment_Proof c taroCommitmentKey assetCommitmentKey h').1
       = Panic "missing asset commitments to compute proofs"
       ↔ assetCommitments tc = None ∨ tree tc = None).
Proof.
  intros made. split.
  - exists (fresh (dom (taros_at h))). cbn.
    unfold TaroCommitment_Proof, mbind, M_bind, bind, load_taro. cbn.
    by rewrite lookup_insert_eq.
  - intros h' c tc Hc.
    unfold TaroCommitment_Proof, mbind, M_bind, bind, load_taro, load_asset.
    rewrite Hc.
    destruct (assetCommitments tc) as [m|], (tree tc) as [t|]; cbn.
    2-4: split; [auto|reflexivity].
    split; [|by intros [|]].
    unfold lift. destruct (Mssmt.GetMerkleProof t taroCommitmentKey); cbn;
      [|discriminate].
    destruct (m !! taroCommitmentKey) as [p|]; cbn; [|discriminate].
    destruct (assets_at h' !! p) as [ac|]; cbn; [|discriminate].
    destruct (AssetCommitment_AssetProof ac assetCommitmentKey) as [[? ?]|];
      cbn; discriminate.
Qed.

End CommitmentFacts.

(** ** [Merge] and the commitment it merges from *)

Section MergeFrame.

Import Go Commitment.

Context {T Inner Asset : Type}.
Context `{!Mssmt.Tree T} `{!AssetCommitmentMethods Inner Asset}.
Variable range :
  gmap (vec byte 32) positive → list (vec byte 32 * positive).

(** The receiver [c], the argument [other], the store [h0] at the call, and
    the asset commitment map [mo] of [other] at the call. *)
Variables (c other : positive) (h0 : Heap T Inner).
Variables (otc : TaroCommitment T) (mo : gmap (vec byte 32) positive).

(** The asset commitments that [other] points to. *)
Definition owned (p : positive) : Prop := ∃ k, mo !! k = Some p.

(** A commitment none of whose asset commitments is one of [other]'s. *)
Definition apart (tc : TaroCommitment T) : Prop :=
  ∀ mc k p, assetCommitments tc = Some mc → mc !! k = Some p → ¬ owned p.

Hypothesis distinct : c ≠ other.
Hypothesis other_at : taros_at h0 !! other = Some otc.
Hypothesis other_map : assetCommitments otc = Some mo.
Hypothesis other_allocated : ∀ p, owned p → is_Some (assets_at h0 !! p).
Hypothesis c_apart : ∀ tc, taros_at h0 !! c = Some tc → apart tc.

(** What every step of [c.Merge(other)] keeps true of the store. *)
Definition framed (h : Heap T Inner) : Prop :=
  taros_at h !! other = Some otc
  ∧ (∀ p, owned p → assets_at h !! p = assets_at h0 !! p)
  ∧ (∀ tc, taros_at h !! c = Some tc → apart tc).

(** [keeps m Q]: from a framed store, [m] ends in a framed store, however it
    ends, and a value it returns satisfies [Q]. *)
Definition keeps {A} (m : M (Heap T Inner) A) (Q : A → Prop) : Prop :=
  ∀ h, framed h →
       match m h with
       | (Ok a, h') => framed h' ∧ Q a
       | (_, h') => framed h'
       end.

Lemma framed_start : framed h0.
Proof. by split_and!. Qed.

Lemma keeps_ret {A} (a : A) (Q : A → Prop) : Q a → keeps (mret a) Q.
Proof. intros Ha h Hh. by split. Qed.

Lemma keeps_bind {A B} (m : M (Heap T Inner) A) (f : A → M (Heap T Inner) B)
    (Q : A → Prop) (R : B → Prop) :
  keeps m Q → (∀ a, Q a → keeps (f a) R) → keeps (m ≫= f) R.
Proof.
  intros Hm Hf h Hh. specialize (Hm h Hh).
  unfold mbind, M_bind, bind.
  destruct (m h) as [[a|e|msg] h']; [|done..].
  destruct Hm as [Hh' Ha]. by apply Hf.
Qed.

Lemma keeps_weaken {A} (m : M (Heap T Inner) A) (Q R : A → Prop) :
  keeps m Q → (∀ a, Q a → R a) → keeps m R.
Proof.
  intros Hm HQR h Hh. specialize (Hm h Hh).
  destruct (m h) as [[a|e|msg] h']; [|done..].
  destruct Hm. split; auto.
Qed.

Lemma keeps_throw {A} (e : error) (Q : A → Prop) : keeps (throw e) Q.
Proof. by intros h Hh. Qed.

Lemma keeps_panic {A} (msg : string) (Q : A → Prop) : keeps (panic msg) Q.
Proof. by intros h Hh. Qed.

Lemma keeps_lift {A} (r : result A) : keeps (lift r) (λ _, True).
Proof. intros h Hh. by destruct r. Qed.

Lemma keeps_wrap {A} (msg : string) (m : M (Heap T Inner) A) (Q : A → Prop) :
  keeps m Q → keeps (wrap msg m) Q.
Proof.
  intros Hm h Hh. specialize (Hm h Hh). unfold wrap.
  by destruct (m h) as [[a|e|msg'] h'].
Qed.

Lemma keeps_load_asset (p : positive) : keeps (load_asset p) (λ _, True).
Proof. intros h Hh. unfold load_asset. by destruct (assets_at h !! p). Qed.

Lemma keeps_load_c : keeps (load_taro c) apart.
Proof.
  intros h Hh. unfold load_taro.
  destruct (taros_at h !! c) as [tc|] eqn:Hc; [|done].
  split; [done|]. by apply Hh.
Qed.

Lemma keeps_load_other : keeps (load_taro other) (λ tc, tc = otc).
Proof.
  intros h Hh. unfold load_taro.
  rewrite (proj1 Hh). by split.
Qed.

Lemma keeps_store_c (tc : TaroCommitment T) :
  apart tc → keeps (store_taro c tc) (λ _, True).
Proof.
  intros Htc h (Ho & Ha & Hc). unfold store_taro. split; [|done].
  split_and!; cbn.
  - by rewrite lookup_insert_ne.
  - done.
  - intros tc'. rewrite lookup_insert_eq. by intros [= <-].
Qed.

Lemma keeps_store_asset (p : positive) (a : AssetCommitment Inner) :
  ¬ owned p → keeps (store_asset p a) (λ _, True).
Proof.
  intros Hp h (Ho & Ha & Hc). unfold store_asset. split; [|done].
  split_and!; cbn; [done| |done].
  intros q Hq. rewrite lookup_insert_ne; [by apply Ha|].
  by intros ->.
Qed.

Lemma keeps_new_asset (a : AssetCommitment Inner) :
  keeps (new_asset a) (λ q, ¬ owned q).
Proof.
  intros h (Ho & Ha & Hc). unfold new_asset.
  assert (Hfresh : ¬ owned (fresh (dom (assets_at h)))).
  { intros Hq. apply (is_fresh (dom (assets_at h))).
    apply elem_of_dom. rewrite (Ha _ Hq). by apply other_allocated. }
  split; [|done].
  split_and!; cbn; [done| |done].
  intros q Hq. rewrite lookup_insert_ne; [by apply Ha|].
  by intros <-.
Qed.

Lemma apart_delete (tc : TaroCommitment T) (key : vec byte 32) :
  apart tc →
  apart {| Version := Version tc; TreeRoot := TreeRoot tc; tree := tree tc;
           assetCommitments := delete key <$> assetCommitments tc |}.
Proof.
  intros Htc mc k p Hmc Hk. cbn in Hmc.
  destruct (assetCommitments tc) as [m|] eqn:Hm; [|done].
  injection Hmc as <-. apply lookup_delete_Some in Hk as [_ Hk].
  by eapply Htc.
Qed.

Lemma apart_insert (tc : TaroCommitment T) (m : gmap (vec byte 32) positive)
    (key : vec byte 32) (q : positive) :
  apart tc → assetCommitments tc = Some m → ¬ owned q →
  apart {| Version := Version tc; TreeRoot := TreeRoot tc; tree := tree tc;
           assetCommitments := Some (<[key := q]> m) |}.
Proof.
  intros Htc Hm Hq mc k p [= <-] Hk.
  apply lookup_insert_Some in Hk as [[_ <-]|[_ Hk]]; [done|].
  by eapply Htc.
Qed.

Lemma keeps_c_tree_Delete (key : vec byte 32) :
  keeps (c_tree_Delete c key) (λ _, True).
Proof.
  unfold c_tree_Delete.
  eapply keeps_bind; [apply keeps_load_c|]. intros tc Htc.
  destruct (tree tc) as [t|]; [|apply keeps_panic].
  eapply keeps_bind; [apply keeps_lift|]. intros t' _.
  apply keeps_store_c. intros mc k p Hmc. by apply Htc.
Qed.

Lemma keeps_c_tree_Insert (key : vec byte 32) (leaf : Mssmt.LeafNode) :
  keeps (c_tree_Insert c key leaf) (λ _, True).
Proof.
  unfold c_tree_Insert.
  eapply keeps_bind; [apply keeps_load_c|]. intros tc Htc.
  destruct (tree tc) as [t|]; [|apply keeps_panic].
  eapply keeps_bind; [apply keeps_lift|]. intros t' _.
  apply keeps_store_c. intros mc k p Hmc. by apply Htc.
Qed.

Lemma keeps_c_TreeRoot_update : keeps (c_TreeRoot_update c) (λ _, True).
Proof.
  unfold c_TreeRoot_update.
  eapply keeps_bind; [apply keeps_load_c|]. intros tc Htc.
  destruct (tree tc) as [t|]; [|apply keeps_panic].
  destruct (Mssmt.Root t) as [root err].
  eapply keeps_bind with (Q := λ _, True).
  - apply keeps_store_c. intros mc k p Hmc. by apply Htc.
  - intros ? _. destruct err; [apply keeps_throw | by apply keeps_ret].
Qed.

Lemma keeps_c_assetCommitments_delete (key : vec byte 32) :
  keeps (c_assetCommitments_delete c key) (λ _, True).
Proof.
  unfold c_assetCommitments_delete.
  eapply keeps_bind; [apply keeps_load_c|]. intros tc Htc.
  by apply keeps_store_c, apart_delete.
Qed.

Lemma keeps_c_assetCommitments_set (key : vec byte 32) (q : positive) :
  ¬ owned q → keeps (c_assetCommitments_set c key q) (λ _, True).
Proof.
  intros Hq. unfold c_assetCommitments_set.
  eapply keeps_bind; [apply keeps_load_c|]. intros tc Htc.
  destruct (assetCommitments tc) as [m|] eqn:Hm; [|apply keeps_panic].
  by apply keeps_store_c, apart_insert.
Qed.

(** [c.Upsert(q)] for an asset commitment [q] that is not one of [other]'s. *)
Lemma keeps_Upsert (q : positive) :
  ¬ owned q → keeps (Upsert c (Some q)) (λ _, True).
Proof.
  intros Hq. unfold Upsert.
  eapply keeps_bind; [apply keeps_load_asset|]. intros a _.
  eapply keeps_bind; [|intros ? _; apply keeps_c_TreeRoot_update].
  case_decide.
  - eapply keeps_bind; [apply keeps_c_tree_Delete|]. intros ? _.
    apply keeps_c_assetCommitments_delete.
  - eapply keeps_bind; [apply keeps_c_tree_Insert|]. intros ? _.
    by apply keeps_c_assetCommitments_set.
Qed.

(** A copy is a new object: none of [other]'s. *)
Lemma keeps_AssetCommitment_Copy_at (p : positive) :
  keeps (AssetCommitment_Copy_at p) (λ q, ¬ owned q).
Proof.
  unfold AssetCommitment_Copy_at.
  eapply keeps_bind; [apply keeps_load_asset|]. intros a _.
  eapply keeps_bind; [apply keeps_lift|]. intros a' _.
  apply keeps_new_asset.
Qed.

(** The in-place merge writes to its receiver alone. *)
Lemma keeps_AssetCommitment_Merge_at (p q : positive) :
  ¬ owned p → keeps (AssetCommitment_Merge_at p q) (λ _, True).
Proof.
  intros Hp. unfold AssetCommitment_Merge_at.
  eapply keeps_bind; [apply keeps_load_asset|]. intros a _.
  eapply keeps_bind; [apply keeps_load_asset|]. intros b _.
  destruct (AssetCommitment_Merge a b) as [a' err].
  eapply keeps_bind; [by apply keeps_store_asset|]. intros ? _.
  destruct err; [apply keeps_throw | by apply keeps_ret].
Qed.

Lemma keeps_Merge_body (key : vec byte 32) (otherCommitment : positive) :
  keeps (Merge_body c key otherCommitment) (λ _, True).
Proof.
  unfold Merge_body.
  eapply keeps_bind; [apply keeps_load_c|]. intros tc Htc.
  eapply keeps_bind with (Q := λ _, True).
  - destruct (assetCommitments tc ≫= _) as [existing|] eqn:He;
      [|by apply keeps_ret].
    assert (¬ owned existing) as Hex.
    { destruct (assetCommitments tc) as [mc|] eqn:Hmc; [|done].
      by eapply Htc. }
    eapply keeps_bind;
      [apply keeps_wrap, keeps_AssetCommitment_Copy_at|]. intros q Hq.
    eapply keeps_bind;
      [by apply keeps_wrap, keeps_AssetCommitment_Merge_at|]. intros ? _.
    by apply keeps_ret.
  - intros existing _.
    eapply keeps_bind;
      [apply keeps_wrap, keeps_AssetCommitment_Copy_at|]. intros q Hq.
    by apply keeps_wrap, keeps_Upsert.
Qed.

Lemma keeps_Merge_loop (keys : list (vec byte 32)) :
  keeps (Merge_loop c other keys) (λ _, True).
Proof.
  induction keys as [|key keys IH]; cbn [Merge_loop]; [by apply keeps_ret|].
  eapply keeps_bind; [apply keeps_load_other|]. intros ? ->.
  eapply keeps_bind; [|intros ? _; apply IH].
  destruct (assetCommitments otc ≫= _);
    [apply keeps_Merge_body | by apply keeps_ret].
Qed.

Lemma keeps_Merge : keeps (Merge range c other) (λ _, True).
Proof.
  unfold Merge.
  eapply keeps_bind; [apply keeps_load_other|]. intros ? ->.
  rewrite other_map.
  case_decide; [by apply keeps_ret | apply keeps_Merge_loop].
Qed.

(** Whatever way [c.Merge(other)] ends, the store it leaves is framed. *)
Lemma Merge_framed : framed (Merge range c other h0).2.
Proof.
  pose proof (keeps_Merge h0 framed_start) as Hk.
  by destruct (Merge range c other h0) as [[[]|e|msg] h']; [destruct Hk|..].
Qed.

End MergeFrame.

(** C10: [c.Merge(other)] does not change [other].  For two distinct
    commitments that share no asset commitment object, where the asset
    commitments of [other] are allocated, the call leaves the object
    [other] (its tree root, tree and asset commitment map) and every asset
    commitment it points to as they were, whether it returns nil, returns
    an error or panics, and in whatever order the map is visited. *)
Theorem Merge_leaves_other_untouched {T Inner Asset : Type}
    `{!Mssmt.Tree T} `{!Commitment.AssetCommitmentMethods Inner Asset}
    (range : gmap (vec byte 32) positive → list (vec byte 32 * positive))
    (h : Commitment.Heap T Inner) (c other : positive)
    (otc : Commitment.TaroCommitment T) (mo : gmap (vec byte 32) positive) :
  c ≠ other →
  Commitment.taros_at h !! other = Some otc →
  Commitment.assetCommitments otc = Some mo →
  (∀ k p, mo !! k = Some p → is_Some (Commitment.assets_at h !! p)) →
  (∀ tc mc k p k',
     Commitment.taros_at h !! c = Some tc →
     Commitment.assetCommitments tc = Some mc →
     mc !! k = Some p → mo !! k' ≠ Some p) →
  let h' := (Commitment.Merge range c other h).2 in
  Commitment.taros_at h' !! other = Some otc
  ∧ ∀ k p, mo !! k = Some p →
           Commitment.assets_at h' !! p = Commitment.assets_at h !! p.
Proof.
  intros Hne Ho Hmo Halloc Hapart h'.
  destruct (Merge_framed range c other h otc mo Hne Ho Hmo) as (H1 & H2 & _).
  - intros p [k Hk]. by eapply Halloc.
  - intros tc Htc mc k p Hmc Hk [k' Hk']. by eapply Hapart.
  - split; [exact H1|]. intros k p Hk. apply H2. by exists k.
Qed.

(** ** The theorems at concrete commitments *)

Section Concrete.

Import Go Commitment Reference.

(** An empty inner commitment upserted into, and deleted from, the full
    commitment of [heap_full]: a successful call that ends in the same store
    either way. *)
Lemma Upsert_empty_is_Delete_witness :
  (Upsert 1 (Some 3%positive) heap_full).1 = Ok tt
  ∧ (Upsert 1 (Some 3%positive) heap_full).2
    = (Delete 1 (Some 3%positive) heap_full).2.
Proof.
  assert (Hroot : (λ a : RefAsset, Mssmt.NodeHash (asset_TreeRoot a))
                    <$> assets_at heap_full !! 3%positive
                  = Some Mssmt.EmptyTreeRootHash)
    by (vm_compute; reflexivity).
  assert (Hup : (Upsert 1 (Some 3%positive) heap_full).1 = Ok tt)
    by (vm_compute; reflexivity).
  destruct (assets_at heap_full !! 3%positive) as [inner|] eqn:Hp;
    [|discriminate Hroot].
  apply (inj Some) in Hroot.
  destruct (Upsert_empty_is_Delete heap_full 1 3 inner Hp Hroot)
    as (_ & _ & _ & _ & Hok).
  split; [exact Hup|]. apply Hok, Hup.
Defined.

(** The full commitment at address 1 merged with the root-only commitment at
    address 2. *)
Lemma Merge_root_only_argument_witness :
  Merge range 1 2 heap_full_and_root_only
  = (Err cannot_merge, heap_full_and_root_only).
Proof.
  refine (proj1 (Merge_root_only_argument range heap_full_and_root_only 1 2
                   {| Version := 0; TreeRoot := Some (root_of ∅);
                      tree := None; assetCommitments := None |} _) _).
  - reflexivity.
  - reflexivity.
Defined.

(** C3 fails for a root-only receiver: the receiver at address 1 was made by
    [NewTaroCommitmentWithRoot], the argument at address 2 is a full
    commitment without asset commitments, and [Merge] returns nil, not an
    error. *)
Lemma Merge_root_only_receiver_returns_nil :
  taros_at heap_root_only_and_empty !! 1%positive
  = Some {| Version := 0; TreeRoot := Some (root_of ∅);
            tree := None; assetCommitments := None |}
  ∧ (∃ otc, taros_at heap_root_only_and_empty !! 2%positive = Some otc
            ∧ tree otc = Some ∅ ∧ assetCommitments otc = Some ∅)
  ∧ Merge range 1 2 heap_root_only_and_empty
    = (Ok tt, heap_root_only_and_empty)
  ∧ (Merge range 1 2 heap_root_only_and_empty).1 ≠ Err cannot_merge.
Proof.
  split; [reflexivity|].
  split; [eexists; split_and!; reflexivity|].
  split; [reflexivity|].
  discriminate.
Qed.

(** With an argument that has an asset commitment, the root-only receiver
    makes [Merge] panic at the nil tree in [Upsert]. *)
Lemma Merge_root_only_receiver_panics :
  (Merge range 1 2 heap_root_only_and_full).1 = Panic nil_dereference.
Proof. vm_compute. reflexivity. Qed.

(** [Proof] on the root-only commitment of [heap_full_and_root_only], and
    on its full commitment. *)
Lemma Proof_on_full_commitment :
  (TaroCommitment_Proof 2 key1 key1 heap_full_and_root_only).1
  = Panic missing_asset_commitments
  ∧ (TaroCommitment_Proof 1 key1 key1 heap_full_and_root_only).1
    = Ok (Some (unit_leaf 5),
          {| Proof_AssetProof :=
               Some {| AssetProof_Proof := {| Mssmt.Nodes := [] |};
                       AssetProof_Version := 1;
                       AssetProof_AssetID := key1 |};
             Proof_TaroProof :=
               {| TaroProof_Proof := {| Mssmt.Nodes := [] |};
                  TaroProof_Version := 1 |} |}).
Proof. split; vm_compute; reflexivity. Qed.

(** C4 at a commitment whose version lags behind its asset commitments:
    [c1 := NewTaroCommitment(assetB)] has version 0, [c1.Upsert(assetA)]
    adds an asset commitment of version 1 and leaves the version at 0, and
    [c2, _ := c1.Copy()] is rebuilt with version 1.  The two commitments
    have the same tree root, and their tapscript leaves differ in the first
    byte. *)
Lemma Copy_after_Upsert_changes_TapLeaf :
  (Copy range 1 heap_upserted).1 = Ok 2%positive
  ∧ (size <$> (taros_at heap_copied !! 1%positive ≫= assetCommitments))
    = Some 2%nat
  ∧ Version <$> taros_at heap_copied !! 1%positive = Some 0
  ∧ Version <$> taros_at heap_copied !! 2%positive = Some 1
  ∧ TreeRoot <$> taros_at heap_copied !! 1%positive
    = TreeRoot <$> taros_at heap_copied !! 2%positive
  ∧ (TapLeaf_at 1 heap_copied).1
    = Ok (Txscript.NewBaseTapLeaf
            (x00 :: TaroMarker
                 ++ vec_to_list
                      (digest {[ key1 := TaroCommitmentLeaf assetA;
                                 key2 := TaroCommitmentLeaf assetB ]})
                 ++ Bytes.PutUint64 12))
  ∧ (TapLeaf_at 2 heap_copied).1
    = Ok (Txscript.NewBaseTapLeaf
            (x01 :: TaroMarker
                 ++ vec_to_list
                      (digest {[ key1 := TaroCommitmentLeaf assetA;
                                 key2 := TaroCommitmentLeaf assetB ]})
                 ++ Bytes.PutUint64 12))
  ∧ (TapLeaf_at 1 heap_copied).1 ≠ (TapLeaf_at 2 heap_copied).1.
Proof.
  do 7 (split; [vm_compute; reflexivity|]).
  vm_compute. discriminate.
Qed.

(** On the commitment of [heap_full], fresh from [NewTaroCommitment], the
    copy has the tapscript leaf of the original. *)
Lemma Copy_of_new_commitment_keeps_TapLeaf :
  (Copy range 1 heap_full).1 = Ok 2%positive
  ∧ match (TapLeaf_at 1 (Copy range 1 heap_full).2).1,
          (TapLeaf_at 2 (Copy range 1 heap_full).2).1 with
    | Ok original, Ok copy => original = copy
    | _, _ => False
    end.
Proof. split; vm_compute; reflexivity. Qed.

(** [c1.Merge(c2)] in [heap_two]: the two commitments share [key1], so the
    merge goes through the in-place merge for [key1] and through the
    insertion of the new key [key2]; the call returns nil. *)
Lemma Merge_leaves_other_untouched_witness :
  let h' := (Merge range 1 2 heap_two).2 in
  taros_at h' !! 2%positive = taros_at heap_two !! 2%positive
  ∧ assets_at h' !! 4%positive = assets_at heap_two !! 4%positive
  ∧ assets_at h' !! 2%positive = assets_at heap_two !! 2%positive.
Proof.
  intros h'.
  assert (Ho : map_to_list <$> (taros_at heap_two !! 2%positive
                                 ≫= assetCommitments)
               = Some [(key2, 2%positive); (key1, 4%positive)])
    by (vm_compute; reflexivity).
  assert (Hc : map_to_list <$> (taros_at heap_two !! 1%positive
                                 ≫= assetCommitments)
               = Some [(key1, 1%positive)])
    by (vm_compute; reflexivity).
  assert (Ha4 : (λ _, tt) <$> assets_at heap_two !! 4%positive = Some tt)
    by (vm_compute; reflexivity).
  assert (Ha2 : (λ _, tt) <$> assets_at heap_two !! 2%positive = Some tt)
    by (vm_compute; reflexivity).
  destruct (taros_at heap_two !! 2%positive) as [otc|] eqn:Hotc;
    [|discriminate Ho].
  cbn [mbind option_bind] in Ho.
  destruct (assetCommitments otc) as [mo|] eqn:Hmo; [|discriminate Ho].
  injection Ho as Ho.
  assert (Hin : ∀ k p, mo !! k = Some p
                       ↔ (k, p) ∈ [(key2, 2%positive); (key1, 4%positive)]).
  { intros k p. by rewrite <- Ho, elem_of_map_to_list. }
  destruct (Merge_leaves_other_untouched range heap_two 1 2 otc mo)
    as [Hother Hassets]; [discriminate|exact Hotc|exact Hmo| | |].
  - intros k p Hk. apply Hin in Hk.
    apply elem_of_cons in Hk as [[= -> ->]|Hk];
      [apply (proj1 (fmap_is_Some (λ _ : RefAsset, tt) _));
       rewrite Ha2; by eexists|].
    apply list_elem_of_singleton in Hk as [= -> ->].
    apply (proj1 (fmap_is_Some (λ _ : RefAsset, tt) _)).
    rewrite Ha4. by eexists.
  - intros tc mc k p k' Htc Hmc Hk Hk'.
    rewrite Htc in Hc. cbn [mbind option_bind] in Hc. rewrite Hmc in Hc.
    injection Hc as Hc.
    apply elem_of_map_to_list in Hk. rewrite Hc in Hk.
    apply list_elem_of_singleton in Hk as [= -> ->].
    apply Hin in Hk'.
    apply elem_of_cons in Hk' as [Hk'|Hk']; [congruence|].
    apply list_elem_of_singleton in Hk'. congruence.
  - split; [exact Hother|]. split.
    + apply (Hassets key1), Hin.
      apply list_elem_of_further, list_elem_of_here.
    + apply (Hassets key2), Hin. apply list_elem_of_here.
Defined.

(** In that run the merge returns nil and the receiver ends with both
    keys. *)
Lemma Merge_two_result :
  (Merge range 1 2 heap_two).1 = Ok tt
  ∧ (λ m, (map_to_list m).*1)
      <$> (taros_at (Merge range 1 2 heap_two).2 !! 1%positive
           ≫= assetCommitments)
    = Some [key2; key1].
Proof. split; vm_compute; reflexivity. Qed.

(** The first hypothesis of [Merge_leaves_other_untouched] at work:
    [c1.Merge(c1)] on the commitment of [heap_full] returns nil and
    re-inserts a copy of each asset commitment, so the map of the argument,
    which is the receiver, ends with other pointers under the same keys. *)
Lemma Merge_with_itself :
  (Merge range 1 1 heap_full).1 = Ok tt
  ∧ map_to_list <$> (taros_at heap_full !! 1%positive ≫= assetCommitments)
    = Some [(key2, 2%positive); (key1, 1%positive)]
  ∧ map_to_list
      <$> (taros_at (Merge range 1 1 heap_full).2 !! 1%positive
           ≫= assetCommitments)
    = Some [(key2, 6%positive); (key1, 8%positive)].
Proof. split_and!; vm_compute; reflexivity. Qed.

End Concrete.

(** * Further properties of the code *)

(** ** Bytes, again *)

Lemma to_Z_inj (x y : byte) : Bytes.to_Z x = Bytes.to_Z y → x = y.
Proof.
  unfold Bytes.to_Z. intros H. apply N2Z.inj in H.
  apply (f_equal Byte.of_N) in H. rewrite !Byte.of_to_N in H. congruence.
Qed.

Lemma of_Z_eq_iff (x y : Z) : Bytes.of_Z x = Bytes.of_Z y ↔ x mod 256 = y mod 256.
Proof.
  split; intros H.
  - by rewrite <- !to_Z_of_Z, H.
  - apply to_Z_inj. by rewrite !to_Z_of_Z.
Qed.

Lemma shiftr_mod_byte (v k : Z) :
  0 ≤ k ≤ 56 →
  Z.shiftr (v mod 2 ^ 64) k mod 256 = Z.shiftr v k mod 256.
Proof.
  intros Hk. change 256 with (2 ^ 8). apply Z.bits_inj'. intros i Hi.
  rewrite !Z.testbit_mod_pow2, !Z.shiftr_spec, Z.testbit_mod_pow2 by lia.
  destruct (Z.ltb_spec i 8); [|reflexivity]. cbn [andb].
  destruct (Z.ltb_spec (i + k) 64); [reflexivity|lia].
Qed.

Lemma PutUint64_mod (v : Z) :
  Bytes.PutUint64 (v mod 2 ^ 64) = Bytes.PutUint64 v.
Proof.
  unfold Bytes.PutUint64.
  repeat (f_equal; [apply of_Z_eq_iff, shiftr_mod_byte; lia|]).
  f_equal. apply of_Z_eq_iff.
  rewrite <- (Z.shiftr_0_r (v mod 2 ^ 64)), <- (Z.shiftr_0_r v) at 1.
  apply shiftr_mod_byte. lia.
Qed.

Lemma PutUint64_eq_iff (v w : Z) :
  Bytes.PutUint64 v = Bytes.PutUint64 w ↔ v mod 2 ^ 64 = w mod 2 ^ 64.
Proof.
  split; intros H.
  - by rewrite <- !Uint_PutUint64, H.
  - by rewrite <- (PutUint64_mod v), H, PutUint64_mod.
Qed.

(** ** Tapscript leaves and commitment scripts *)

Lemma length_TaroMarker : length Commitment.TaroMarker = 32%nat.
Proof. apply length_Sum256. Qed.

(** The leaf of a commitment whose [TreeRoot] is not nil. *)
Lemma TapLeaf_Some {T} (c : Commitment.TaroCommitment T) (root : Mssmt.Node) :
  Commitment.TreeRoot c = Some root →
  Commitment.TapLeaf c
  = Go.Ok (Txscript.NewBaseTapLeaf
             (Bytes.of_Z (Commitment.Version c)
              :: Commitment.TaroMarker
                 ++ vec_to_list (Mssmt.NodeHash root)
                 ++ Bytes.PutUint64 (Mssmt.NodeSum root))).
Proof.
  intros Hroot. unfold Commitment.TapLeaf. rewrite Hroot.
  unfold Bytes.Join. cbn [concat]. by rewrite app_nil_r.
Qed.

(** A script of 73 bytes with the marker after its first byte. *)
Lemma IsTaroCommitmentScript_cons (v : byte) (rest : list byte) :
  length rest = 40%nat →
  Commitment.IsTaroCommitmentScript (v :: Commitment.TaroMarker ++ rest)
  = bool_decide (v = Bytes.of_Z Commitment.V0).
Proof.
  intros Hrest. unfold Commitment.IsTaroCommitmentScript.
  pose proof length_TaroMarker as Hm. revert Hm.
  generalize Commitment.TaroMarker. intros m Hm.
  cbn [nth drop]. rewrite drop_0, take_app_length.
  rewrite length_cons, length_app, Hm, Hrest.
  assert (Hsize : (Z.of_nat (S (32 + 40))
                   =? Commitment.TaroCommitmentScriptSize) = true)
    by reflexivity.
  rewrite Hsize. cbn [negb]. unfold Bytes.Equal.
  rewrite (bool_decide_eq_true_2 (m = m) eq_refl).
  destruct (bool_decide (v = Bytes.of_Z Commitment.V0)); reflexivity.
Qed.

(** X2: [IsTaroCommitmentScript] recognises the script of the leaf that
    [c.TapLeaf()] returns exactly when the version byte of [c] is 0: the
    leaf of a commitment of another version is not taken for a Taro
    commitment.  ([TapLeaf] returns no error, and panics only on a nil
    [TreeRoot].) *)
Theorem TapLeaf_IsTaroCommitmentScript {T : Type}
    (c : Commitment.TaroCommitment T) :
  match Commitment.TapLeaf c with
  | Go.Ok leaf =>
      Commitment.IsTaroCommitmentScript (Txscript.Script leaf)
      = bool_decide (Commitment.Version c mod 256 = 0)
  | Go.Err _ => False
  | Go.Panic _ => Commitment.TreeRoot c = None
  end.
Proof.
  destruct (Commitment.TreeRoot c) as [root|] eqn:Hroot.
  - rewrite (TapLeaf_Some c root Hroot).
    unfold Txscript.NewBaseTapLeaf. cbn [Txscript.Script].
    rewrite IsTaroCommitmentScript_cons
      by (rewrite length_app, length_vec_to_list, length_PutUint64; done).
    apply bool_decide_ext. rewrite of_Z_eq_iff. unfold Commitment.V0.
    by rewrite Z.mod_0_l.
  - unfold Commitment.TapLeaf. by rewrite Hroot.
Qed.

(** X3: the tapscript leaf commits to the version byte, the root hash and
    the root sum, and to nothing else: two commitments have the same
    [TapLeaf] exactly when they agree on these three (the version as a byte,
    the sum as a [uint64]), or both have a nil [TreeRoot]. *)
Theorem TapLeaf_eq_iff {T : Type} (c c' : Commitment.TaroCommitment T) :
  Commitment.TapLeaf c = Commitment.TapLeaf c'
  ↔ match Commitment.TreeRoot c, Commitment.TreeRoot c' with
    | Some root, Some root' =>
        Commitment.Version c mod 256 = Commitment.Version c' mod 256
        ∧ Mssmt.NodeHash root = Mssmt.NodeHash root'
        ∧ Mssmt.NodeSum root mod 2 ^ 64 = Mssmt.NodeSum root' mod 2 ^ 64
    | None, None => True
    | _, _ => False
    end.
Proof.
  destruct (Commitment.TreeRoot c) as [root|] eqn:Hroot,
           (Commitment.TreeRoot c') as [root'|] eqn:Hroot'.
  - rewrite (TapLeaf_Some c root Hroot), (TapLeaf_Some c' root' Hroot').
    generalize Commitment.TaroMarker. intros m. split.
    + intros H. injection H as Hv H.
      apply app_inv_head in H.
      apply app_inj_1 in H as [Hh Hs]; [|by rewrite !length_vec_to_list].
      split; [by apply of_Z_eq_iff|].
      split; [by apply vec_to_list_inj2|by apply PutUint64_eq_iff].
    + intros (Hv & Hh & Hs).
      apply of_Z_eq_iff in Hv. apply PutUint64_eq_iff in Hs.
      by rewrite Hv, Hh, Hs.
  - unfold Commitment.TapLeaf at 2. rewrite Hroot', (TapLeaf_Some c root Hroot).
    split; [discriminate|done].
  - unfold Commitment.TapLeaf at 1. rewrite Hroot, (TapLeaf_Some c' root' Hroot').
    split; [discriminate|done].
  - unfold Commitment.TapLeaf. by rewrite Hroot, Hroot'.
Qed.

(** X4: of two leaves of which exactly one carries a Taro commitment
    script, [IdentifyTapScriptSibling] returns the other one as the
    sibling, in whichever order the two are passed, together with the root
    hash of the tree of the two leaves. *)
Theorem IdentifyTapScriptSibling_not_commitment
    (TapHash : Txscript.TapLeaf → vec byte 32)
    (ScriptTreeRoot : list Txscript.TapLeaf → vec byte 32)
    (leaf0 leaf1 : Txscript.TapLeaf) :
  Commitment.IsTaroCommitmentScript (Txscript.Script leaf0)
  ≠ Commitment.IsTaroCommitmentScript (Txscript.Script leaf1) →
  ∃ sibling,
    Taroscript.IdentifyTapScriptSibling TapHash ScriptTreeRoot [leaf0; leaf1]
    = Go.Val (ScriptTreeRoot [leaf0; leaf1], Some sibling)
    ∧ Commitment.IsTaroCommitmentScript (Txscript.Script sibling) = false
    ∧ (sibling = leaf0 ∨ sibling = leaf1).
Proof.
  intros Hne. unfold Taroscript.IdentifyTapScriptSibling.
  destruct (Commitment.IsTaroCommitmentScript (Txscript.Script leaf0)) eqn:H0,
           (Commitment.IsTaroCommitmentScript (Txscript.Script leaf1)) eqn:H1;
    try done.
  - exists leaf1. cbn. auto.
  - exists leaf0. cbn. auto.
Qed.

(** ** [bytes.Compare] and the hash of a tapscript branch *)

Lemma Compare_antisym (a b : list byte) :
  Bytes.Compare a b = - Bytes.Compare b a.
Proof.
  revert b. induction a as [|x a IH]; intros [|y b]; cbn; try reflexivity.
  destruct (Z.ltb_spec (Bytes.to_Z x) (Bytes.to_Z y)),
           (Z.ltb_spec (Bytes.to_Z y) (Bytes.to_Z x)); try lia.
  apply IH.
Qed.

Lemma Compare_eq (a b : list byte) :
  length a = length b → Bytes.Compare a b = 0 → a = b.
Proof.
  revert b. induction a as [|x a IH]; intros [|y b]; cbn; try done.
  intros Hlen.
  destruct (Z.ltb_spec (Bytes.to_Z x) (Bytes.to_Z y)); [lia|].
  destruct (Z.ltb_spec (Bytes.to_Z y) (Bytes.to_Z x)); [lia|].
  intros Hc. f_equal; [apply to_Z_inj; lia|]. apply IH; [lia|done].
Qed.

(** X1: [TapBranchHash] does not depend on the order of its two
    arguments. *)
Theorem TapBranchHash_comm
    (TaggedHash : string → list (list byte) → vec byte 32)
    (l r : vec byte 32) :
  Commitment.TapBranchHash TaggedHash l r
  = Commitment.TapBranchHash TaggedHash r l.
Proof.
  unfold Commitment.TapBranchHash.
  pose proof (Compare_antisym (vec_to_list l) (vec_to_list r)) as Ha.
  destruct (Z.ltb_spec 0 (Bytes.Compare (vec_to_list l) (vec_to_list r)));
    destruct (Z.ltb_spec 0 (Bytes.Compare (vec_to_list r) (vec_to_list l)));
    try reflexivity; try lia.
  assert (l = r) as ->; [|reflexivity].
  apply vec_to_list_inj2, Compare_eq; [by rewrite !length_vec_to_list|lia].
Qed.

(** ** The tapscript root of a commitment *)

Section TapscriptRoots.

Import Go Commitment.

Context {T Inner : Type}.
Variable TaggedHash : string → list (list byte) → vec byte 32.
Variable TapHash : Txscript.TapLeaf → vec byte 32.
Variable ScriptTreeRoot : list Txscript.TapLeaf → vec byte 32.

(** X5: the tapscript leaf and the tapscript root of a commitment are those
    of the root-only commitment made from its version and its tree root:
    who knows these two reconstructs the root, with or without a sibling. *)
Theorem TapscriptRoot_of_root_only (h : Heap T Inner) (c : positive)
    (tc : TaroCommitment T) (sibling : option (vec byte 32)) :
  taros_at h !! c = Some tc →
  let made := NewTaroCommitmentWithRoot (Version tc) (TreeRoot tc) h in
  ∃ c' tc',
    made.1 = Ok c'
    ∧ taros_at made.2 !! c' = Some tc'
    ∧ taros_at made.2 !! c = Some tc
    ∧ tree tc' = None
    ∧ assetCommitments tc' = None
    ∧ TapLeaf tc' = TapLeaf tc
    ∧ TapscriptRoot TaggedHash TapHash ScriptTreeRoot tc' sibling
      = TapscriptRoot TaggedHash TapHash ScriptTreeRoot tc sibling.
Proof.
  intros Hc made. eexists _, _. split; [reflexivity|]. cbn.
  rewrite lookup_insert_eq. split; [reflexivity|]. split.
  - rewrite lookup_insert_ne; [done|].
    intros Heq. apply (is_fresh (dom (taros_at h))). rewrite Heq.
    by apply elem_of_dom.
  - by split_and!.
Qed.

End TapscriptRoots.

(** ** Footprints of the calls on the store *)

Section Footprints.

Import Go.

Context {S : Type}.

(** [steps R m]: however [m] ends, the store it leaves is related by [R] to
    the store it started from. *)
Definition steps {A} (R : relation S) (m : M S A) : Prop :=
  ∀ s, R s (m s).2.

Context (R : relation S) `{!PreOrder R}.

Lemma steps_ret {A} (a : A) : steps R (mret a : M S A).
Proof. intros s. reflexivity. Qed.

Lemma steps_throw {A} (e : error) : steps R (throw e : M S A).
Proof. intros s. reflexivity. Qed.

Lemma steps_panic {A} (msg : string) : steps R (panic msg : M S A).
Proof. intros s. reflexivity. Qed.

Lemma steps_lift {A} (r : result A) : steps R (lift r : M S A).
Proof. intros s. destruct r; reflexivity. Qed.

Lemma steps_call {A} (r : res A) : steps R (call r : M S A).
Proof. intros s. reflexivity. Qed.

Lemma steps_bind {A B} (m : M S A) (f : A → M S B) :
  steps R m → (∀ a, steps R (f a)) → steps R (m ≫= f).
Proof.
  intros Hm Hf s. specialize (Hm s). unfold mbind, M_bind, bind.
  destruct (m s) as [[a|e|msg] s']; [|done..].
  etransitivity; [exact Hm|apply Hf].
Qed.

Lemma steps_wrap {A} (msg : string) (m : M S A) :
  steps R m → steps R (wrap msg m).
Proof.
  intros Hm s. specialize (Hm s). unfold wrap.
  by destruct (m s) as [[a|e|msg'] s'].
Qed.

End Footprints.

(** ** What [Upsert], [Delete] and [Merge] write to *)

Section CommitmentFootprint.

Import Go Commitment.

Context {T Inner Asset : Type}.
Context `{!Mssmt.Tree T} `{!AssetCommitmentMethods Inner Asset}.
Variable range :
  gmap (vec byte 32) positive → list (vec byte 32 * positive).

(** From [h] to [h'], no commitment other than [c] has changed, and [c]
    has its [Version]. *)
Definition commitment_only (c : positive) (h h' : Heap T Inner) : Prop :=
  (∀ c', c' ≠ c → taros_at h' !! c' = taros_at h !! c')
  ∧ Version <$> taros_at h' !! c = Version <$> taros_at h !! c.

(** ... and no asset commitment has changed either. *)
Definition writes_to (c : positive) (h h' : Heap T Inner) : Prop :=
  assets_at h' = assets_at h ∧ commitment_only c h h'.

#[local] Instance commitment_only_preorder c : PreOrder (commitment_only c).
Proof.
  split.
  - by intros h.
  - intros h1 h2 h3 [H1 H1'] [H2 H2']. split.
    + intros c' Hc'. by rewrite H2, H1.
    + by rewrite H2', H1'.
Qed.

#[local] Instance writes_to_preorder c : PreOrder (writes_to c).
Proof.
  split.
  - intros h. split; [done|reflexivity].
  - intros h1 h2 h3 [H1 H1'] [H2 H2']. split; [by rewrite H2, H1|].
    by etransitivity.
Qed.

Lemma steps_load_asset (R : relation (Heap T Inner)) `{!PreOrder R}
    (p : positive) :
  steps R (load_asset p).
Proof. intros h. unfold load_asset. by destruct (assets_at h !! p). Qed.

Lemma steps_load_taro (R : relation (Heap T Inner)) `{!PreOrder R}
    (c : positive) :
  steps R (load_taro c).
Proof. intros h. unfold load_taro. by destruct (taros_at h !! c). Qed.

Lemma steps_c_tree_Delete (c : positive) (key : vec byte 32) :
  steps (writes_to c) (c_tree_Delete c key).
Proof.
  intros h. unfold c_tree_Delete, mbind, M_bind, bind, load_taro, store_taro,
    lift, panic.
  destruct (taros_at h !! c) as [tc|] eqn:Hc; [|reflexivity].
  destruct (tree tc) as [t|]; [|reflexivity].
  destruct (Mssmt.Delete t key) as [t'|e]; [|reflexivity].
  cbn. split; [done|]. split; cbn.
  - intros c' Hc'. by rewrite lookup_insert_ne.
  - by rewrite lookup_insert_eq, Hc.
Qed.

Lemma steps_c_tree_Insert (c : positive) (key : vec byte 32)
    (leaf : Mssmt.LeafNode) :
  steps (writes_to c) (c_tree_Insert c key leaf).
Proof.
  intros h. unfold c_tree_Insert, mbind, M_bind, bind, load_taro, store_taro,
    lift, panic.
  destruct (taros_at h !! c) as [tc|] eqn:Hc; [|reflexivity].
  destruct (tree tc) as [t|]; [|reflexivity].
  destruct (Mssmt.Insert t key leaf) as [t'|e]; [|reflexivity].
  cbn. split; [done|]. split; cbn.
  - intros c' Hc'. by rewrite lookup_insert_ne.
  - by rewrite lookup_insert_eq, Hc.
Qed.

Lemma steps_c_TreeRoot_update (c : positive) :
  steps (writes_to c) (c_TreeRoot_update c).
Proof.
  intros h. unfold c_TreeRoot_update, mbind, M_bind, bind, load_taro,
    store_taro, panic.
  destruct (taros_at h !! c) as [tc|] eqn:Hc; [|reflexivity].
  destruct (tree tc) as [t|]; [|reflexivity].
  destruct (Mssmt.Root t) as [root [e|]]; cbn.
  all: split; [done|]; split; cbn;
    [intros c' Hc'; by rewrite lookup_insert_ne
    |by rewrite lookup_insert_eq, Hc].
Qed.

Lemma steps_c_assetCommitments_delete (c : positive) (key : vec byte 32) :
  steps (writes_to c) (c_assetCommitments_delete c key).
Proof.
  intros h. unfold c_assetCommitments_delete, mbind, M_bind, bind, load_taro,
    store_taro.
  destruct (taros_at h !! c) as [tc|] eqn:Hc; [|reflexivity].
  cbn. split; [done|]. split; cbn.
  - intros c' Hc'. by rewrite lookup_insert_ne.
  - by rewrite lookup_insert_eq, Hc.
Qed.

Lemma steps_c_assetCommitments_set (c : positive) (key : vec byte 32)
    (p : positive) :
  steps (writes_to c) (c_assetCommitments_set c key p).
Proof.
  intros h. unfold c_assetCommitments_set, mbind, M_bind, bind, load_taro,
    store_taro, panic.
  destruct (taros_at h !! c) as [tc|] eqn:Hc; [|reflexivity].
  destruct (assetCommitments tc) as [m|]; [|reflexivity].
  cbn. split; [done|]. split; cbn.
  - intros c' Hc'. by rewrite lookup_insert_ne.
  - by rewrite lookup_insert_eq, Hc.
Qed.

Lemma steps_Delete (c : positive) (asset : option positive) :
  steps (writes_to c) (Delete c asset).
Proof.
  unfold Delete. destruct asset as [p|]; [|apply steps_throw, _].
  apply steps_bind; [apply _|apply steps_load_asset, _|]. intros a.
  apply steps_bind; [apply _|apply steps_c_tree_Delete|]. intros _.
  apply steps_bind; [apply _|apply steps_c_TreeRoot_update|]. intros _.
  apply steps_c_assetCommitments_delete.
Qed.

Lemma steps_Upsert (c : positive) (asset : option positive) :
  steps (writes_to c) (Upsert c asset).
Proof.
  unfold Upsert. destruct asset as [p|]; [|apply steps_throw, _].
  apply steps_bind; [apply _|apply steps_load_asset, _|]. intros a.
  apply steps_bind; [apply _| |intros _; apply steps_c_TreeRoot_update].
  case_decide.
  - apply steps_bind; [apply _|apply steps_c_tree_Delete|]. intros _.
    apply steps_c_assetCommitments_delete.
  - apply steps_bind; [apply _|apply steps_c_tree_Insert|]. intros _.
    apply steps_c_assetCommitments_set.
Qed.

(** X8: [Upsert] and [Delete] write to the receiver alone, and not to its
    [Version]: however the call ends, every asset commitment and every
    other commitment is as it was, and the receiver has the [Version] it
    had, whatever the versions of the asset commitments it now holds. *)
Theorem Upsert_Delete_footprint (h : Heap T Inner) (c : positive)
    (asset : option positive) :
  let untouched (h' : Heap T Inner) :=
    assets_at h' = assets_at h
    ∧ (∀ c', c' ≠ c → taros_at h' !! c' = taros_at h !! c')
    ∧ Version <$> taros_at h' !! c = Version <$> taros_at h !! c in
  untouched (Upsert c asset h).2 ∧ untouched (Delete c asset h).2.
Proof. split; [apply steps_Upsert|apply steps_Delete]. Qed.

Lemma writes_to_commitment_only (c : positive) {A}
    (m : M (Heap T Inner) A) :
  steps (writes_to c) m → steps (commitment_only c) m.
Proof. intros Hm h. apply Hm. Qed.

Lemma steps_store_asset (c p : positive) (a : AssetCommitment Inner) :
  steps (commitment_only c) (store_asset p a).
Proof. by intros h. Qed.

Lemma steps_new_asset (c : positive) (a : AssetCommitment Inner) :
  steps (commitment_only c) (new_asset a).
Proof. by intros h. Qed.

Lemma steps_AssetCommitment_Copy_at (c p : positive) :
  steps (commitment_only c) (AssetCommitment_Copy_at p).
Proof.
  unfold AssetCommitment_Copy_at.
  apply steps_bind; [apply _|apply steps_load_asset, _|]. intros a.
  apply steps_bind; [apply _|apply steps_lift, _|]. intros a'.
  apply steps_new_asset.
Qed.

Lemma steps_AssetCommitment_Merge_at (c p q : positive) :
  steps (commitment_only c) (AssetCommitment_Merge_at p q).
Proof.
  unfold AssetCommitment_Merge_at.
  apply steps_bind; [apply _|apply steps_load_asset, _|]. intros a.
  apply steps_bind; [apply _|apply steps_load_asset, _|]. intros b.
  destruct (AssetCommitment_Merge a b) as [a' err].
  apply steps_bind; [apply _|apply steps_store_asset|]. intros _.
  destruct err; [apply steps_throw, _|apply steps_ret, _].
Qed.

Lemma steps_Merge_body (c : positive) (key : vec byte 32)
    (otherCommitment : positive) :
  steps (commitment_only c) (Merge_body c key otherCommitment).
Proof.
  unfold Merge_body.
  apply steps_bind; [apply _|apply steps_load_taro, _|]. intros tc.
  apply steps_bind; [apply _| |].
  - destruct (assetCommitments tc ≫= _) as [existing|];
      [|apply steps_ret, _].
    apply steps_bind;
      [apply _|apply steps_wrap, steps_AssetCommitment_Copy_at|]. intros q.
    apply steps_bind;
      [apply _|apply steps_wrap, steps_AssetCommitment_Merge_at|]. intros _.
    apply steps_ret, _.
  - intros existing.
    apply steps_bind;
      [apply _|apply steps_wrap, steps_AssetCommitment_Copy_at|]. intros q.
    apply steps_wrap, writes_to_commitment_only, steps_Upsert.
Qed.

Lemma steps_Merge_loop (c other : positive) (keys : list (vec byte 32)) :
  steps (commitment_only c) (Merge_loop c other keys).
Proof.
  induction keys as [|key keys IH]; cbn [Merge_loop]; [apply steps_ret, _|].
  apply steps_bind; [apply _|apply steps_load_taro, _|]. intros otc.
  apply steps_bind; [apply _| |intros _; apply IH].
  destruct (assetCommitments otc ≫= _);
    [apply steps_Merge_body|apply steps_ret, _].
Qed.

(** X9: [c.Merge(other)] writes to no commitment but [c], and not to the
    [Version] of [c], however it ends and whatever the two commitments
    share. *)
Theorem Merge_footprint (h : Heap T Inner) (c other : positive) :
  let h' := (Merge range c other h).2 in
  (∀ c', c' ≠ c → taros_at h' !! c' = taros_at h !! c')
  ∧ Version <$> taros_at h' !! c = Version <$> taros_at h !! c.
Proof.
  revert h. change (steps (commitment_only c) (Merge range c other)).
  unfold Merge.
  apply steps_bind; [apply _|apply steps_load_taro, _|]. intros otc.
  destruct (assetCommitments otc) as [m|]; [|apply steps_throw, _].
  case_decide; [apply steps_ret, _|apply steps_Merge_loop].
Qed.

End CommitmentFootprint.

(** ** The commitment that [NewTaroCommitment] builds *)

Section NewCommitment.

Import Go Commitment.

Context {T Inner Asset : Type}.
Context `{!Mssmt.Tree T} `{!AssetCommitmentMethods Inner Asset}.
Variable range :
  gmap (vec byte 32) positive → list (vec byte 32 * positive).

(** What the loop of [NewTaroCommitment] returns, from the version [v] and
    the map [m] it starts with. *)
Lemma NewTaroCommitment_loop_Ok (assets : list positive) (v v' : Z)
    (t t' : T) (m m' : gmap (vec byte 32) positive) (h h' : Heap T Inner) :
  NewTaroCommitment_loop assets v t m h = (Ok (v', t', m'), h') →
  h' = h
  ∧ v ≤ v'
  ∧ (∀ p a, p ∈ assets → assets_at h !! p = Some a → asset_Version a ≤ v')
  ∧ (v' = v
     ∨ ∃ p a, p ∈ assets ∧ assets_at h !! p = Some a ∧ asset_Version a = v')
  ∧ (∀ k q, m' !! k = Some q →
       m !! k = Some q
       ∨ (q ∈ assets
          ∧ ∃ a, assets_at h !! q = Some a ∧ TaroCommitmentKey a = k))
  ∧ (∀ p, p ∈ assets →
       ∃ a, assets_at h !! p = Some a
            ∧ is_Some (m' !! TaroCommitmentKey a))
  ∧ (∀ k, is_Some (m !! k) → is_Some (m' !! k)).
Proof.
  revert v t m. induction assets as [|p rest IH]; intros v t m; cbn.
  - intros [= <- <- <- <-]. split_and!.
    + done.
    + lia.
    + intros p a Hp. by apply elem_of_nil in Hp.
    + by left.
    + intros k q Hkq. by left.
    + intros p Hp. by apply elem_of_nil in Hp.
    + done.
  - unfold mbind, M_bind, bind, load_asset, lift.
    destruct (assets_at h !! p) as [a|] eqn:Hp; [|discriminate].
    destruct (Mssmt.Insert t (TaroCommitmentKey a) (TaroCommitmentLeaf a))
      as [t1|e]; [|discriminate].
    intros Hloop. apply IH in Hloop as (-> & Hv & Hle & Hmax & Hm & Hin & Hk).
    set (v1 := if v <? asset_Version a then asset_Version a else v) in *.
    assert (v ≤ v1 ∧ asset_Version a ≤ v1
            ∧ (v1 = v ∨ v1 = asset_Version a)) as (Hv1 & Ha1 & Hv1')
      by (unfold v1; destruct (Z.ltb_spec v (asset_Version a)); lia).
    split_and!; [done|lia| | | | |].
    + intros q b Hq Hb. apply elem_of_cons in Hq as [->|Hq].
      * rewrite Hp in Hb. injection Hb as <-. lia.
      * by eapply Hle.
    + destruct Hmax as [->|(q & b & Hq & Hb & Hvb)].
      * destruct Hv1' as [->| ->]; [by left|].
        right. exists p, a. split_and!; [apply list_elem_of_here|done..].
      * right. exists q, b. split_and!; [by apply list_elem_of_further|done..].
    + intros k q Hkq. apply Hm in Hkq as [Hkq|(Hq & b & Hb & Hkb)].
      * apply lookup_insert_Some in Hkq as [[<- <-]|[_ Hkq]]; [|by left].
        right. split; [apply list_elem_of_here|by exists a].
      * right. split; [by apply list_elem_of_further|by exists b].
    + intros q Hq. apply elem_of_cons in Hq as [->|Hq]; [|by apply Hin].
      exists a. split; [done|]. apply Hk. by rewrite lookup_insert_eq.
    + intros k Hk'. apply Hk. destruct (decide (TaroCommitmentKey a = k)) as [<-|Hne].
      * by rewrite lookup_insert_eq.
      * by rewrite lookup_insert_ne.
Qed.

(** A call of [NewTaroCommitment] that returns a commitment. *)
Lemma NewTaroCommitment_Ok (assets : list positive) (h : Heap T Inner)
    (c : positive) :
  (NewTaroCommitment assets h).1 = Ok c →
  ∃ v t m,
    NewTaroCommitment_loop assets V0 Mssmt.NewCompactedTree ∅ h
    = (Ok (v, t, m), h)
    ∧ (Mssmt.Root t).2 = None
    ∧ c = fresh (dom (taros_at h))
    ∧ (NewTaroCommitment assets h).2
      = {| assets_at := assets_at h;
           taros_at :=
             <[c := {| Version := v; TreeRoot := (Mssmt.Root t).1;
                       tree := Some t; assetCommitments := Some m |}]>
               (taros_at h) |}.
Proof.
  unfold NewTaroCommitment, mbind, M_bind, bind.
  destruct (NewTaroCommitment_loop assets V0 Mssmt.NewCompactedTree ∅ h)
    as [[[[v t] m]|e|msg] h1] eqn:Hloop; [|discriminate..].
  pose proof (NewTaroCommitment_loop_Ok _ _ _ _ _ _ _ _ _ Hloop) as (-> & _).
  destruct (Mssmt.Root t) as [root [e|]] eqn:Hroot; [discriminate|].
  cbn. intros Hc. assert (c = fresh (dom (taros_at h))) as -> by congruence.
  exists v, t, m. by rewrite Hroot.
Qed.

(** X6: the [Version] of the commitment that [NewTaroCommitment] returns is
    the greatest version among the asset commitments passed, and [V0] when
    there is none. *)
Theorem NewTaroCommitment_Version_is_max (assets : list positive)
    (h : Heap T Inner) (c : positive) :
  (NewTaroCommitment assets h).1 = Ok c →
  ∃ tc,
    taros_at (NewTaroCommitment assets h).2 !! c = Some tc
    ∧ V0 ≤ Version tc
    ∧ (∀ p a, p ∈ assets → assets_at h !! p = Some a →
         asset_Version a ≤ Version tc)
    ∧ (Version tc = V0
       ∨ ∃ p a, p ∈ assets ∧ assets_at h !! p = Some a
                ∧ asset_Version a = Version tc).
Proof.
  intros Hc. apply NewTaroCommitment_Ok in Hc as (v & t & m & Hloop & _ & _ & ->).
  apply NewTaroCommitment_loop_Ok in Hloop as (_ & Hv & Hle & Hmax & _).
  eexists. cbn. rewrite lookup_insert_eq. split; [reflexivity|]. by cbn.
Qed.

(** X7: the commitment that [NewTaroCommitment] returns is a new object, made
    without a write to any other; it holds the very pointers it was passed
    (no copies), each under the [TaroCommitmentKey] of its asset commitment,
    and every asset commitment passed has an entry under its key. *)
Theorem NewTaroCommitment_assetCommitments (assets : list positive)
    (h : Heap T Inner) (c : positive) :
  (NewTaroCommitment assets h).1 = Ok c →
  let h' := (NewTaroCommitment assets h).2 in
  (c ∉ dom (taros_at h))
  ∧ assets_at h' = assets_at h
  ∧ (∀ c', c' ≠ c → taros_at h' !! c' = taros_at h !! c')
  ∧ ∃ tc t m,
      taros_at h' !! c = Some tc
      ∧ tree tc = Some t
      ∧ TreeRoot tc = (Mssmt.Root t).1
      ∧ assetCommitments tc = Some m
      ∧ (∀ k q, m !! k = Some q →
           q ∈ assets
           ∧ ∃ a, assets_at h !! q = Some a ∧ TaroCommitmentKey a = k)
      ∧ (∀ p, p ∈ assets →
           ∃ a, assets_at h !! p = Some a
                ∧ is_Some (m !! TaroCommitmentKey a)).
Proof.
  intros Hc h'. unfold h'.
  apply NewTaroCommitment_Ok in Hc as (v & t & m & Hloop & _ & -> & ->).
  apply NewTaroCommitment_loop_Ok in Hloop as (_ & _ & _ & _ & Hm & Hin & _).
  cbn. split_and!; [apply is_fresh|done| |].
  - intros c' Hc'. by rewrite lookup_insert_ne.
  - eexists _, t, m. rewrite lookup_insert_eq. split_and!; try done.
    intros k q Hkq. by apply Hm in Hkq as [Hkq|Hkq].
Qed.

End NewCommitment.

(** ** Look-ups after [Upsert] and [Delete], proofs, copies *)

Section CommitmentContents.

Import Go Commitment.

Context {T Inner Asset : Type}.
Context `{!Mssmt.Tree T} `{!AssetCommitmentMethods Inner Asset}.
Variable range :
  gmap (vec byte 32) positive → list (vec byte 32 * positive).
Variable Asset_TaroCommitmentKey : Asset → vec byte 32.

(** A call of [Upsert] that returns nil. *)
Lemma Upsert_Ok (h : Heap T Inner) (c p : positive)
    (a : AssetCommitment Inner) :
  assets_at h !! p = Some a →
  (Upsert c (Some p) h).1 = Ok tt →
  let key := TaroCommitmentKey a in
  ∃ tc t t',
    taros_at h !! c = Some tc
    ∧ tree tc = Some t
    ∧ (Mssmt.Root t').2 = None
    ∧ (if decide (Mssmt.NodeHash (asset_TreeRoot a)
                  = Mssmt.EmptyTreeRootHash)
       then Mssmt.Delete t key = Val t'
       else Mssmt.Insert t key (TaroCommitmentLeaf a) = Val t'
            ∧ is_Some (assetCommitments tc))
    ∧ (Upsert c (Some p) h).2
      = {| assets_at := assets_at h;
           taros_at :=
             <[c := {| Version := Version tc;
                       TreeRoot := (Mssmt.Root t').1;
                       tree := Some t';
                       assetCommitments :=
                         (if decide (Mssmt.NodeHash (asset_TreeRoot a)
                                     = Mssmt.EmptyTreeRootHash)
                          then delete key else <[key := p]>)
                           <$> assetCommitments tc |}]>
               (taros_at h) |}.
Proof.
  intros Hp. unfold Upsert, mbind, M_bind, bind, load_asset. rewrite Hp.
  unfold c_tree_Delete, c_tree_Insert, c_TreeRoot_update,
    c_assetCommitments_delete, c_assetCommitments_set.
  unfold mbind, M_bind, bind, load_taro, store_taro, lift, panic.
  case_decide as Hempty.
  - destruct (taros_at h !! c) as [tc|] eqn:Hc; [|discriminate].
    destruct (tree tc) as [t|] eqn:Ht; [|discriminate].
    destruct (Mssmt.Delete t (TaroCommitmentKey a)) as [t'|e] eqn:Hd;
      [|discriminate].
    cbn. rewrite !lookup_insert_eq. cbn. rewrite !lookup_insert_eq. cbn.
    destruct (Mssmt.Root t') as [root [e|]] eqn:Hr; cbn; [discriminate|].
    intros _. exists tc, t, t'. rewrite Hr. cbn.
    split_and!; try done. by rewrite !insert_insert_eq.
  - destruct (taros_at h !! c) as [tc|] eqn:Hc; [|discriminate].
    destruct (tree tc) as [t|] eqn:Ht; [|discriminate].
    destruct (Mssmt.Insert t (TaroCommitmentKey a) (TaroCommitmentLeaf a))
      as [t'|e] eqn:Hi; [|discriminate].
    cbn. rewrite !lookup_insert_eq. cbn.
    destruct (assetCommitments tc) as [m|] eqn:Hm; [|discriminate].
    cbn. rewrite !lookup_insert_eq. cbn.
    destruct (Mssmt.Root t') as [root [e|]] eqn:Hr; cbn; [discriminate|].
    intros _. exists tc, t, t'. rewrite Hr, Hm. cbn.
    split_and!; try done. by rewrite !insert_insert_eq.
Qed.

(** A call of [Delete] that returns nil. *)
Lemma Delete_Ok (h : Heap T Inner) (c p : positive)
    (a : AssetCommitment Inner) :
  assets_at h !! p = Some a →
  (Delete c (Some p) h).1 = Ok tt →
  let key := TaroCommitmentKey a in
  ∃ tc t t',
    taros_at h !! c = Some tc
    ∧ tree tc = Some t
    ∧ (Mssmt.Root t').2 = None
    ∧ Mssmt.Delete t key = Val t'
    ∧ (Delete c (Some p) h).2
      = {| assets_at := assets_at h;
           taros_at :=
             <[c := {| Version := Version tc;
                       TreeRoot := (Mssmt.Root t').1;
                       tree := Some t';
                       assetCommitments :=
                         delete key <$> assetCommitments tc |}]>
               (taros_at h) |}.
Proof.
  intros Hp. unfold Delete, mbind, M_bind, bind, load_asset. rewrite Hp.
  unfold c_tree_Delete, c_TreeRoot_update, c_assetCommitments_delete.
  unfold mbind, M_bind, bind, load_taro, store_taro, lift, panic.
  destruct (taros_at h !! c) as [tc|] eqn:Hc; [|discriminate].
  destruct (tree tc) as [t|] eqn:Ht; [|discriminate].
  destruct (Mssmt.Delete t (TaroCommitmentKey a)) as [t'|e] eqn:Hd;
    [|discriminate].
  cbn. rewrite !lookup_insert_eq. cbn.
  destruct (Mssmt.Root t') as [root [e|]] eqn:Hr; cbn;
    rewrite ?lookup_insert_eq; cbn; [discriminate|].
  intros _. exists tc, t, t'. rewrite Hr. cbn.
  split_and!; try done. by rewrite !insert_insert_eq.
Qed.

(** The look-up [c.Commitment(x)] in a store. *)
Lemma Commitment_lookup (h : Heap T Inner) (c : positive)
    (tc : TaroCommitment T) (x : Asset) :
  taros_at h !! c = Some tc →
  TaroCommitment_Commitment Asset_TaroCommitmentKey c x h
  = (Ok (assetCommitments tc ≫= (λ m, m !! Asset_TaroCommitmentKey x)), h).
Proof.
  intros Hc. unfold TaroCommitment_Commitment, mbind, M_bind, bind, load_taro.
  by rewrite Hc.
Qed.

(** X10: after [c.Upsert(p)] has returned nil, [c.Commitment(x)] finds [p] for
    an asset [x] with the key of [p], unless the tree of [p] is empty, in
    which case it finds nothing; for an asset with another key it finds what
    it found before. *)
Theorem Commitment_after_Upsert (h : Heap T Inner) (c p : positive)
    (a : AssetCommitment Inner) (x : Asset) :
  assets_at h !! p = Some a →
  (Upsert c (Some p) h).1 = Ok tt →
  let h' := (Upsert c (Some p) h).2 in
  let lookup := TaroCommitment_Commitment Asset_TaroCommitmentKey c x in
  if decide (Asset_TaroCommitmentKey x = TaroCommitmentKey a) then
    (lookup h').1
    = Ok (if decide (Mssmt.NodeHash (asset_TreeRoot a)
                     = Mssmt.EmptyTreeRootHash)
          then None else Some p)
  else (lookup h').1 = (lookup h).1.
Proof.
  intros Hp Hup h' lookup. unfold h', lookup.
  apply (Upsert_Ok h c p a Hp) in Hup
    as (tc & t & t' & Hc & Ht & Hr & Hm & ->).
  erewrite (Commitment_lookup h c tc) by done.
  erewrite Commitment_lookup by (cbn; apply lookup_insert_eq).
  cbn [fst assetCommitments].
  destruct (decide (Asset_TaroCommitmentKey x = TaroCommitmentKey a))
    as [->|Hne].
  - case_decide as Hempty.
    + destruct (assetCommitments tc) as [m|]; cbn; [|done].
      by rewrite lookup_delete_eq.
    + destruct Hm as [_ [m ->]]. cbn. by rewrite lookup_insert_eq.
  - destruct (assetCommitments tc) as [m|]; cbn; [|done].
    by case_decide; [rewrite lookup_delete_ne|rewrite lookup_insert_ne].
Qed.

(** X11: after [c.Delete(p)] has returned nil, [c.Commitment(x)] finds nothing
    for an asset [x] with the key of [p], and for an asset with another key
    what it found before. *)
Theorem Commitment_after_Delete (h : Heap T Inner) (c p : positive)
    (a : AssetCommitment Inner) (x : Asset) :
  assets_at h !! p = Some a →
  (Delete c (Some p) h).1 = Ok tt →
  let h' := (Delete c (Some p) h).2 in
  let lookup := TaroCommitment_Commitment Asset_TaroCommitmentKey c x in
  if decide (Asset_TaroCommitmentKey x = TaroCommitmentKey a) then
    (lookup h').1 = Ok None
  else (lookup h').1 = (lookup h).1.
Proof.
  intros Hp Hdel h' lookup. unfold h', lookup.
  apply (Delete_Ok h c p a Hp) in Hdel as (tc & t & t' & Hc & Ht & Hr & _ & ->).
  erewrite (Commitment_lookup h c tc) by done.
  erewrite Commitment_lookup by (cbn; apply lookup_insert_eq).
  cbn [fst assetCommitments].
  destruct (assetCommitments tc) as [m|]; cbn; [|by case_decide].
  case_decide as Hk.
  - by rewrite Hk, lookup_delete_eq.
  - by rewrite lookup_delete_ne.
Qed.

(** X12: [Proof] writes nothing.  When it returns a proof, the commitment is a
    full one, the proof carries the [Version] of the commitment, and it
    carries an asset proof exactly when the commitment has an asset
    commitment under [taroCommitmentKey]; that asset proof has the version
    and the asset id of this asset commitment.  Without such an asset
    commitment no asset is returned either. *)
Theorem Proof_of_full_commitment (h : Heap T Inner) (c : positive)
    (taroCommitmentKey assetCommitmentKey : vec byte 32) :
  let r := TaroCommitment_Proof c taroCommitmentKey assetCommitmentKey h in
  r.2 = h
  ∧ ∀ asset proof,
      r.1 = Ok (asset, proof) →
      ∃ tc m t,
        taros_at h !! c = Some tc
        ∧ assetCommitments tc = Some m
        ∧ tree tc = Some t
        ∧ Mssmt.GetMerkleProof t taroCommitmentKey
          = Val (TaroProof_Proof (Proof_TaroProof proof))
        ∧ TaroProof_Version (Proof_TaroProof proof) = Version tc
        ∧ match m !! taroCommitmentKey with
          | None => asset = None ∧ Proof_AssetProof proof = None
          | Some p =>
              ∃ ac assetProof,
                assets_at h !! p = Some ac
                ∧ Proof_AssetProof proof = Some assetProof
                ∧ AssetProof_Version assetProof = asset_Version ac
                ∧ AssetProof_AssetID assetProof = asset_AssetID ac
                ∧ AssetCommitment_AssetProof ac assetCommitmentKey
                  = Val (asset, AssetProof_Proof assetProof)
          end.
Proof.
  intros r. unfold r, TaroCommitment_Proof, mbind, M_bind, bind, load_taro,
    load_asset, lift, panic.
  destruct (taros_at h !! c) as [tc|] eqn:Hc; [|by split].
  destruct (assetCommitments tc) as [m|] eqn:Hm; [|by split].
  destruct (tree tc) as [t|] eqn:Ht; [|by split].
  destruct (Mssmt.GetMerkleProof t taroCommitmentKey) as [merkleProof|e]
    eqn:Hmp; [|by split].
  destruct (m !! taroCommitmentKey) as [p|] eqn:Hk.
  - destruct (assets_at h !! p) as [ac|] eqn:Hp; [|by split].
    destruct (AssetCommitment_AssetProof ac assetCommitmentKey)
      as [[asset' assetProof]|e] eqn:Hap; [|by split].
    cbn. split; [done|]. intros asset proof [= <- <-].
    exists tc, m, t. rewrite Hk. split_and!; try done.
    exists ac. eexists. by split_and!.
  - cbn. split; [done|]. intros asset proof [= <- <-].
    exists tc, m, t. rewrite Hk. by split_and!.
Qed.

End CommitmentContents.

(** ** Copies and root-only commitments *)

Section CommitmentCopies.

Import Go Commitment.

Context {T Inner Asset : Type}.
Context `{!Mssmt.Tree T} `{!AssetCommitmentMethods Inner Asset}.
Variable range :
  gmap (vec byte 32) positive → list (vec byte 32 * positive).
Variable Asset_TaroCommitmentKey : Asset → vec byte 32.

(** From [h] to [h'], objects were added and none was changed. *)
Definition extends (h h' : Heap T Inner) : Prop :=
  assets_at h ⊆ assets_at h' ∧ taros_at h ⊆ taros_at h'.

#[local] Instance extends_preorder : PreOrder extends.
Proof.
  split.
  - by intros h.
  - intros h1 h2 h3 [H1 H1'] [H2 H2']. split; by etransitivity.
Qed.

Lemma steps_extends_new_asset (a : AssetCommitment Inner) :
  steps extends (new_asset a).
Proof.
  intros h. split; cbn; [|done].
  apply insert_subseteq, not_elem_of_dom, is_fresh.
Qed.

Lemma steps_extends_new_taro (tc : TaroCommitment T) :
  steps extends (new_taro tc).
Proof.
  intros h. split; cbn; [done|].
  apply insert_subseteq, not_elem_of_dom, is_fresh.
Qed.

Lemma steps_extends_Copy_at (p : positive) :
  steps extends (AssetCommitment_Copy_at p).
Proof.
  unfold AssetCommitment_Copy_at.
  apply steps_bind; [apply _|apply steps_load_asset, _|]. intros a.
  apply steps_bind; [apply _|apply steps_lift, _|]. intros a'.
  apply steps_extends_new_asset.
Qed.

Lemma steps_extends_CopyAllErr (xs : list positive) :
  steps extends (CopyAllErr xs).
Proof.
  induction xs as [|x xs IH]; cbn [CopyAllErr]; [apply steps_ret, _|].
  apply steps_bind; [apply _|apply steps_extends_Copy_at|]. intros y.
  apply steps_bind; [apply _|apply IH|]. intros ys. apply steps_ret, _.
Qed.

Lemma steps_extends_NewTaroCommitment_loop (assets : list positive) (v : Z)
    (t : T) (m : gmap (vec byte 32) positive) :
  steps extends (NewTaroCommitment_loop assets v t m).
Proof.
  revert v t m. induction assets as [|p rest IH]; intros v t m;
    cbn [NewTaroCommitment_loop]; [apply steps_ret, _|].
  apply steps_bind; [apply _|apply steps_load_asset, _|]. intros a.
  apply steps_bind; [apply _|apply steps_lift, _|]. intros t'. apply IH.
Qed.

Lemma steps_extends_NewTaroCommitment (assets : list positive) :
  steps extends (NewTaroCommitment assets).
Proof.
  unfold NewTaroCommitment.
  apply steps_bind; [apply _|apply steps_extends_NewTaroCommitment_loop|].
  intros [[v t] m]. destruct (Mssmt.Root t) as [root [e|]];
    [apply steps_throw, _|apply steps_extends_new_taro].
Qed.

Lemma steps_extends_Copy (c : positive) : steps extends (Copy range c).
Proof.
  unfold Copy.
  apply steps_bind; [apply _|apply steps_load_taro, _|]. intros tc.
  case_decide.
  - destruct (TreeRoot tc); [apply steps_extends_new_taro|apply steps_panic, _].
  - apply steps_bind; [apply _|apply steps_extends_CopyAllErr|]. intros ys.
    apply steps_extends_NewTaroCommitment.
Qed.

(** The copies that [CopyAllErr] returns are new objects. *)
Lemma CopyAllErr_Ok (xs ys : list positive) (h h' : Heap T Inner) :
  CopyAllErr xs h = (Ok ys, h') → ∀ y, y ∈ ys → y ∉ dom (assets_at h).
Proof.
  revert ys h. induction xs as [|x xs IH]; intros ys h; cbn [CopyAllErr].
  - intros [= <- <-] y Hy. by apply elem_of_nil in Hy.
  - unfold mbind at 1, M_bind at 1, bind at 1.
    pose proof (steps_extends_Copy_at x h) as [Hext _].
    destruct (AssetCommitment_Copy_at x h) as [[y|e|msg] h1] eqn:Hx;
      [|discriminate..].
    assert (y ∉ dom (assets_at h)) as Hy.
    { revert Hx. unfold AssetCommitment_Copy_at, mbind, M_bind, bind,
        load_asset, lift, new_asset.
      destruct (assets_at h !! x) as [a|]; [|discriminate].
      destruct (AssetCommitment_Copy a) as [a'|e]; [|discriminate].
      intros [= <- <-]. apply is_fresh. }
    unfold mbind, M_bind, bind.
    destruct (CopyAllErr xs h1) as [[ys'|e|msg] h2] eqn:Hxs;
      [|discriminate..].
    intros [= <- <-] z Hz. apply elem_of_cons in Hz as [->|Hz]; [done|].
    intros Hin. apply (IH _ _ Hxs z Hz).
    by apply (subseteq_dom _ _ Hext).
Qed.

(** [Copy] on an allocated commitment, by cases. *)
Lemma Copy_unfold (h : Heap T Inner) (c : positive) (tc : TaroCommitment T) :
  taros_at h !! c = Some tc →
  Copy range c h
  = if decide (len (assetCommitments tc) = O) then
      match TreeRoot tc with
      | None => (Panic nil_dereference, h)
      | Some root =>
          new_taro {| Version := Version tc;
                      TreeRoot := Some (Mssmt.Node_Copy root);
                      tree := None; assetCommitments := None |} h
      end
    else
      match CopyAllErr (maps_Values range (assetCommitments tc)) h with
      | (Ok ys, h1) => NewTaroCommitment ys h1
      | (Err e, h1) => (Err e, h1)
      | (Panic msg, h1) => (Panic msg, h1)
      end.
Proof.
  intros Hc. unfold Copy, mbind at 1, M_bind at 1, bind at 1, load_taro.
  rewrite Hc. case_decide; [by destruct (TreeRoot tc)|reflexivity].
Qed.

(** X13: [Copy] is a deep copy.  It changes no object that existed before the
    call, however it ends; the commitment it returns is a new object, and
    every asset commitment this one points to is a new object too. *)
Theorem Copy_is_deep (h : Heap T Inner) (c : positive) :
  let r := Copy range c h in
  assets_at h ⊆ assets_at r.2
  ∧ taros_at h ⊆ taros_at r.2
  ∧ ∀ c', r.1 = Ok c' →
      (c' ∉ dom (taros_at h))
      ∧ ∃ tc', taros_at r.2 !! c' = Some tc'
               ∧ ∀ m' k q, assetCommitments tc' = Some m' →
                           m' !! k = Some q → q ∉ dom (assets_at h).
Proof.
  intros r. destruct (steps_extends_Copy c h) as [Ha Ht].
  split; [exact Ha|]. split; [exact Ht|]. unfold r. clear r Ha Ht.
  intros c'.
  destruct (taros_at h !! c) as [tc|] eqn:Hc;
    [|by unfold Copy, mbind, M_bind, bind, load_taro; rewrite Hc].
  rewrite (Copy_unfold h c tc Hc).
  case_decide as Hlen.
  - destruct (TreeRoot tc) as [root|]; [|discriminate].
    cbn. intros [= <-]. split; [apply is_fresh|].
    eexists. rewrite lookup_insert_eq. split; [reflexivity|]. by cbn.
  - pose proof (steps_extends_CopyAllErr
                  (maps_Values range (assetCommitments tc)) h) as [Ha1 Ht1].
    destruct (CopyAllErr (maps_Values range (assetCommitments tc)) h)
      as [[ys|e|msg] h1] eqn:Hys; [|discriminate..].
    cbn [snd] in Ha1, Ht1.
    pose proof (CopyAllErr_Ok _ _ _ _ Hys) as Hfresh.
    intros Hnew.
    apply NewTaroCommitment_Ok in Hnew as (v & t & m & Hloop & _ & -> & ->).
    apply NewTaroCommitment_loop_Ok in Hloop as (_ & _ & _ & _ & Hm & _).
    split.
    + intros Hd. apply (is_fresh (dom (taros_at h1))).
      by apply (subseteq_dom _ _ Ht1).
    + eexists. cbn. rewrite lookup_insert_eq. split; [reflexivity|].
      cbn. intros m' k q [= <-] Hkq.
      apply Hm in Hkq as [Hkq|[Hq _]]; [done|]. by apply Hfresh.
Qed.

(** X14: the copy of a commitment without asset commitments is a root-only
    commitment with the version and the root of the original, also when the
    original is a full commitment: the copy has the tapscript leaf of the
    original, but [Proof] panics on it and no commitment can merge it in. *)
Theorem Copy_without_asset_commitments (h : Heap T Inner) (c : positive)
    (tc : TaroCommitment T) (root : Mssmt.Node) :
  taros_at h !! c = Some tc →
  len (assetCommitments tc) = O →
  TreeRoot tc = Some root →
  ∃ c' h',
    Copy range c h = (Ok c', h')
    ∧ (c' ∉ dom (taros_at h))
    ∧ assets_at h' = assets_at h
    ∧ taros_at h'
      = <[c' := {| Version := Version tc; TreeRoot := Some root;
                   tree := None; assetCommitments := None |}]> (taros_at h)
    ∧ (TapLeaf_at c' h').1 = (TapLeaf_at c h).1
    ∧ (∀ k k', (TaroCommitment_Proof c' k k' h').1
               = Panic missing_asset_commitments)
    ∧ (∀ x, Merge range x c' h' = (Err cannot_merge, h')).
Proof.
  intros Hc Hlen Hroot. rewrite (Copy_unfold h c tc Hc).
  rewrite decide_True by exact Hlen. rewrite Hroot.
  assert (Mssmt.Node_Copy root = root) as -> by by destruct root.
  eexists _, _. split; [reflexivity|]. cbn [new_taro assets_at taros_at].
  split; [apply is_fresh|]. split; [reflexivity|]. split; [reflexivity|].
  unfold TapLeaf_at, TaroCommitment_Proof, Merge, mbind, M_bind, bind,
    load_taro. cbn [taros_at].
  rewrite lookup_insert_eq, Hc. cbn [assetCommitments tree].
  split_and!; try done.
  unfold call, TapLeaf. cbn. by rewrite Hroot.
Qed.

(** X15: on the commitment that [NewTaroCommitmentWithRoot] makes, [Upsert]
    and [Delete] of an asset commitment panic at the nil tree and write
    nothing, with a nil argument they return
    [ErrMissingAssetCommitment]; the look-up [Commitment] finds nothing
    and [Commitments] is empty. *)
Theorem Root_only_commitment (h : Heap T Inner) (version : Z)
    (root : option Mssmt.Node) :
  let made := NewTaroCommitmentWithRoot version root h in
  ∃ c,
    made.1 = Ok c
    ∧ (c ∉ dom (taros_at h))
    ∧ (∀ p, Upsert c (Some p) made.2 = (Panic nil_dereference, made.2))
    ∧ (∀ p, Delete c (Some p) made.2 = (Panic nil_dereference, made.2))
    ∧ Upsert c None made.2 = (Err ErrMissingAssetCommitment, made.2)
    ∧ Delete c None made.2 = (Err ErrMissingAssetCommitment, made.2)
    ∧ (∀ x, TaroCommitment_Commitment Asset_TaroCommitmentKey c x made.2
            = (Ok None, made.2))
    ∧ Commitments c made.2 = (Ok ∅, made.2).
Proof.
  intros made. exists (fresh (dom (taros_at h))).
  split; [reflexivity|]. split; [apply is_fresh|].
  unfold made. cbn [NewTaroCommitmentWithRoot new_taro snd].
  set (h' := {| assets_at := _; taros_at := _ |}).
  assert (Hc : taros_at h' !! fresh (dom (taros_at h))
               = Some {| Version := version; TreeRoot := root;
                         assetCommitments := None; tree := None |})
    by apply lookup_insert_eq.
  split_and!.
  - intros p. unfold Upsert, mbind, M_bind, bind, load_asset.
    destruct (assets_at h' !! p) as [a|]; [|reflexivity].
    unfold c_tree_Delete, c_tree_Insert, mbind, M_bind, bind, load_taro.
    by case_decide; cbv beta; rewrite Hc.
  - intros p. unfold Delete, mbind, M_bind, bind, load_asset.
    destruct (assets_at h' !! p) as [a|]; [|reflexivity].
    unfold c_tree_Delete, mbind, M_bind, bind, load_taro.
    by cbv beta; rewrite Hc.
  - reflexivity.
  - reflexivity.
  - intros x. by rewrite (Commitment_lookup _ _ _ _ _ Hc).
  - unfold Commitments, mbind, M_bind, bind, load_taro. by rewrite Hc.
Qed.

End CommitmentCopies.

(** ** Strings *)

Lemma string_length_app (s1 s2 : string) :
  String.length (s1 +:+ s2) = (String.length s1 + String.length s2)%nat.
Proof. induction s1 as [|c s1 IH]; simpl; [done|]. by rewrite IH. Qed.

Lemma string_app_cons (c : Ascii.ascii) (s1 s2 : string) :
  String c s1 +:+ s2 = String c (s1 +:+ s2).
Proof. reflexivity. Qed.

Lemma string_app_nil (s : string) : "" +:+ s = s.
Proof. reflexivity. Qed.

(** Two concatenations with right parts of the same length. *)
Lemma string_app_inj (s1 s2 t1 t2 : string) :
  String.length s2 = String.length t2 →
  s1 +:+ s2 = t1 +:+ t2 → s1 = t1 ∧ s2 = t2.
Proof.
  intros Hlen. revert t1. induction s1 as [|c s1 IH]; intros [|d t1].
  - done.
  - change (s2 = String d (t1 +:+ t2) → "" = String d t1 ∧ s2 = t2).
    intros ->. simpl in Hlen. rewrite string_length_app in Hlen. lia.
  - change (String c (s1 +:+ s2) = t2 → String c s1 = "" ∧ s2 = t2).
    intros <-. simpl in Hlen. rewrite string_length_app in Hlen. lia.
  - change (String c (s1 +:+ s2) = String d (t1 +:+ t2)
            → String c s1 = String d t1 ∧ s2 = t2).
    intros [= -> H]. apply IH in H as [-> ->]. done.
Qed.

Lemma length_EncodeToString (src : list byte) :
  String.length (Bytes.EncodeToString src) = (2 * length src)%nat.
Proof. induction src as [|v src IH]; cbn; [done|]. rewrite IH. lia. Qed.

Lemma hexdigit_inj (n m : Z) :
  0 ≤ n < 16 → 0 ≤ m < 16 → Bytes.hexdigit n = Bytes.hexdigit m → n = m.
Proof.
  intros Hn Hm.
  assert (Hcases : ∀ k, 0 ≤ k < 16 →
            k = 0 ∨ k = 1 ∨ k = 2 ∨ k = 3 ∨ k = 4 ∨ k = 5 ∨ k = 6 ∨ k = 7
            ∨ k = 8 ∨ k = 9 ∨ k = 10 ∨ k = 11 ∨ k = 12 ∨ k = 13 ∨ k = 14
            ∨ k = 15) by (intros; lia).
  destruct (Hcases n Hn) as [->|[->|[->|[->|[->|[->|[->|[->|[->|[->|[->|[->|
    [->|[->|[->| ->]]]]]]]]]]]]]]];
  destruct (Hcases m Hm) as [->|[->|[->|[->|[->|[->|[->|[->|[->|[->|[->|[->|
    [->|[->|[->| ->]]]]]]]]]]]]]]];
  (reflexivity || (intros H; discriminate H)).
Qed.

Lemma to_Z_range (b : byte) : 0 ≤ Bytes.to_Z b < 256.
Proof.
  unfold Bytes.to_Z. pose proof (Byte.to_N_bounded b) as H. lia.
Qed.

Lemma EncodeToString_inj (a b : list byte) :
  Bytes.EncodeToString a = Bytes.EncodeToString b → a = b.
Proof.
  revert b. induction a as [|x a IH]; intros [|y b]; cbn; try done.
  intros [= Hhi Hlo H]. f_equal; [|by apply IH].
  pose proof (to_Z_range x) as Hx. pose proof (to_Z_range y) as Hy.
  apply to_Z_inj.
  apply hexdigit_inj in Hhi, Hlo.
  - rewrite !Z.shiftr_div_pow2 in Hhi by lia.
    change 0x0f with (Z.ones 4) in Hlo.
    rewrite !Z.land_ones in Hlo by lia.
    rewrite (Z.div_mod (Bytes.to_Z x) (2 ^ 4)),
            (Z.div_mod (Bytes.to_Z y) (2 ^ 4)) by lia.
    by rewrite Hhi, Hlo.
  - change 0x0f with (Z.ones 4). rewrite Z.land_ones by lia.
    apply Z.mod_pos_bound. lia.
  - change 0x0f with (Z.ones 4). rewrite Z.land_ones by lia.
    apply Z.mod_pos_bound. lia.
  - rewrite Z.shiftr_div_pow2 by lia. change (2 ^ 4) with 16.
    split; [apply Z.div_pos; lia|apply Z.div_lt_upper_bound; lia].
  - rewrite Z.shiftr_div_pow2 by lia. change (2 ^ 4) with 16.
    split; [apply Z.div_pos; lia|apply Z.div_lt_upper_bound; lia].
Qed.

Lemma array_of_vec_to_list {n} (v : vec byte n) :
  Bytes.array_of n (vec_to_list v) = v.
Proof. induction v as [|b n v IH]; cbn; [done|]. by rewrite IH. Qed.

(** ** Proof types and universe identifiers *)

Lemma ProofType_String_inj (t t' : Z) :
  Universe.ProofType_String t = Universe.ProofType_String t' → t = t'.
Proof.
  unfold Universe.ProofType_String, Universe.ProofTypeUnspecified,
    Universe.ProofTypeIssuance, Universe.ProofTypeTransfer,
    Universe.ProofTypeIgnore, Universe.ProofTypeBurn,
    Universe.ProofTypeMintSupply.
  repeat match goal with
         | |- context [?x =? ?y] => destruct (Z.eqb_spec x y)
         end; subst; try reflexivity;
    rewrite ?string_app_cons, ?string_app_nil;
    try (intros H; discriminate H).
  intros [= H]. apply string_app_inj in H as [H _]; [|done].
  by apply (inj pretty).
Qed.

Lemma ParseStrProofType_declared (t : Z) :
  0 ≤ t ≤ 5 →
  Universe.ParseStrProofType (Universe.ProofType_String t) = Go.Val t.
Proof.
  intros Ht.
  assert (t = 0 ∨ t = 1 ∨ t = 2 ∨ t = 3 ∨ t = 4 ∨ t = 5)
    as [->|[->|[->|[->|[->| ->]]]]] by lia; reflexivity.
Qed.

(** X16: [ParseStrProofType] is the inverse of [ProofType.String] on the six
    declared proof types, and rejects the string of any other value; a
    string that it accepts is the string of the proof type it returns. *)
Theorem ParseStrProofType_String :
  (∀ t, 0 ≤ t ≤ 5 →
     Universe.ParseStrProofType (Universe.ProofType_String t) = Go.Val t)
  ∧ (∀ t, ¬ 0 ≤ t ≤ 5 →
       Universe.ParseStrProofType (Universe.ProofType_String t)
       = Go.Fail (Go.ErrorString ("unknown proof type: unknown("
                                  +:+ pretty t +:+ ")")))
  ∧ (∀ s t, Universe.ParseStrProofType s = Go.Val t →
       Universe.ProofType_String t = s ∧ 0 ≤ t ≤ 5).
Proof.
  split_and!.
  - apply ParseStrProofType_declared.
  - intros t Ht. unfold Universe.ProofType_String,
      Universe.ProofTypeUnspecified, Universe.ProofTypeIssuance,
      Universe.ProofTypeTransfer, Universe.ProofTypeIgnore,
      Universe.ProofTypeBurn, Universe.ProofTypeMintSupply.
    repeat match goal with
           | |- context [?x =? ?y] => destruct (Z.eqb_spec x y); [lia|]
           end.
    unfold Universe.ParseStrProofType.
    rewrite ?string_app_cons, ?string_app_nil.
    repeat (rewrite decide_False by discriminate).
    reflexivity.
  - intros s t. unfold Universe.ParseStrProofType.
    repeat (case_decide; [subst s; intros [= <-]; split; [reflexivity|];
                          unfold Universe.ProofTypeUnspecified,
                            Universe.ProofTypeIssuance,
                            Universe.ProofTypeTransfer,
                            Universe.ProofTypeIgnore, Universe.ProofTypeBurn,
                            Universe.ProofTypeMintSupply; lia|]).
    discriminate.
Qed.

Section IdentifierFacts.

Import Go Universe.

Context {Asset PublicKey : Type}.
Variable IsGenesisAsset : Asset → bool.
Variable SerializePubKey : PublicKey → list byte.
Variable ParsePubKey : list byte → result PublicKey.
Variable PublicKey_IsEqual : PublicKey → PublicKey → bool.
Variable Asset_ID : Asset → vec byte 32.
Variable Asset_GroupPubKey : Asset → option PublicKey.

Lemma Identifier_Key_eq_iff (i j : Identifier (PublicKey := PublicKey)) :
  Identifier_Key SerializePubKey i = Identifier_Key SerializePubKey j
  ↔ Identifier_Bytes SerializePubKey i = Identifier_Bytes SerializePubKey j
    ∧ ProofType i mod 256 = ProofType j mod 256.
Proof.
  unfold Identifier_Key. split.
  - intros H. apply (f_equal vec_to_list) in H.
    rewrite !(vec_to_list_app (n := 32) (m := 1)) in H.
    apply app_inj_1 in H as [Hb Ht]; [|by rewrite !length_vec_to_list].
    split; [by apply vec_to_list_inj2|].
    apply of_Z_eq_iff. by injection Ht.
  - intros [-> Ht]. apply of_Z_eq_iff in Ht. by rewrite Ht.
Qed.

(** X17: [Identifier.Key] and [Identifier.String] carry the same information:
    two identifiers have the same string exactly when they have the same
    key. *)
Theorem Identifier_String_eq_iff_Key_eq
    (i j : Identifier (PublicKey := PublicKey)) :
  0 ≤ ProofType i < 256 →
  0 ≤ ProofType j < 256 →
  Identifier_String SerializePubKey i = Identifier_String SerializePubKey j
  ↔ Identifier_Key SerializePubKey i = Identifier_Key SerializePubKey j.
Proof.
  intros Hi Hj. rewrite Identifier_Key_eq_iff.
  rewrite !Z.mod_small by lia. unfold Identifier_String. split.
  - intros H. apply string_app_inj in H as [Ht H].
    + apply ProofType_String_inj in Ht. split; [|done].
      rewrite !string_app_cons, !string_app_nil in H.
      injection H as H. apply EncodeToString_inj in H.
      by apply vec_to_list_inj2.
    + by rewrite !string_length_app, !length_EncodeToString,
        !length_vec_to_list.
  - by intros [-> ->].
Qed.

(** X18: identifiers that [IsEqual] accepts as equal have the same key and
    the same string, when keys that [btcec.PublicKey.IsEqual] accepts have
    the same serialization. *)
Theorem Identifier_IsEqual_Key (i other : Identifier (PublicKey := PublicKey)) :
  (∀ k k', PublicKey_IsEqual k k' = true →
           SerializePubKey k = SerializePubKey k') →
  Identifier_IsEqual PublicKey_IsEqual (Some i) other = true →
  Identifier_Key SerializePubKey i = Identifier_Key SerializePubKey other
  ∧ Identifier_String SerializePubKey i
    = Identifier_String SerializePubKey other.
Proof.
  intros Hser. unfold Identifier_IsEqual.
  rewrite !andb_true_iff, !bool_decide_eq_true. intros [[Hid Hk] Ht].
  assert (Identifier_Bytes SerializePubKey i
          = Identifier_Bytes SerializePubKey other) as Hb.
  { unfold Identifier_Bytes.
    destruct (GroupKey i) as [k|], (GroupKey other) as [k'|]; try done.
    by rewrite (Hser k k' Hk). }
  split.
  - apply Identifier_Key_eq_iff. by rewrite Hb, Ht.
  - unfold Identifier_String. by rewrite Hb, Ht.
Qed.

(** X19: the identifier that [NewUniIDFromAsset] derives from an asset passes
    [ValidateProofUniverseType] for this asset. *)
Theorem NewUniIDFromAsset_valid (a : Asset) :
  ValidateProofUniverseType IsGenesisAsset (Some a)
    (NewUniIDFromAsset IsGenesisAsset Asset_ID Asset_GroupPubKey a)
  = Val tt.
Proof.
  unfold ValidateProofUniverseType, NewProofTypeFromAsset, NewUniIDFromAsset.
  destruct (IsGenesisAsset a), (Asset_GroupPubKey a); cbn;
    by rewrite decide_False by (intros Hne; by apply Hne).
Qed.

(** X20: [NewUniIDFromRawArgs] gives back an identifier without a group key
    from its asset id, no group key bytes and the string of its proof
    type. *)
Theorem NewUniIDFromRawArgs_asset_id
    (i : Identifier (PublicKey := PublicKey)) :
  GroupKey i = None →
  0 ≤ ProofType i ≤ 5 →
  NewUniIDFromRawArgs ParsePubKey (vec_to_list (AssetID i)) []
    (ProofType_String (ProofType i))
  = Val i.
Proof.
  intros Hk Ht. unfold NewUniIDFromRawArgs.
  rewrite (ParseStrProofType_declared _ Ht).
  rewrite decide_False by (intros Hne; by apply Hne).
  rewrite decide_False by (by rewrite length_vec_to_list).
  rewrite array_of_vec_to_list. destruct i; cbn in *. by subst.
Qed.

End IdentifierFacts.

Section IdentifierArgs.

Import Go Universe.

Context {PublicKey : Type}.
Variable ParsePubKey : list byte → result PublicKey.

(** X21: with group key bytes, [NewUniIDFromRawArgs] ignores the asset id
    bytes: the identifier it returns has the parsed group key and a zero
    asset id.  A group key of 33 bytes is parsed as its last 32 bytes, so a
    compressed key gives the identifier of its x-only key, whatever its
    first byte. *)
Theorem NewUniIDFromRawArgs_group_key
    (assetIDBytes assetIDBytes' : list byte) (b : byte) (rest : list byte)
    (proofTypeStr : string) :
  let r := NewUniIDFromRawArgs ParsePubKey assetIDBytes (b :: rest)
             proofTypeStr in
  r = NewUniIDFromRawArgs ParsePubKey assetIDBytes' (b :: rest) proofTypeStr
  ∧ (∀ i, r = Val i →
       AssetID i = ID_zero ∧ is_Some (GroupKey i)
       ∧ ProofType_String (ProofType i) = proofTypeStr
       ∧ (length rest = 31%nat ∨ length rest = 32%nat))
  ∧ (length rest = 32%nat →
     r = NewUniIDFromRawArgs ParsePubKey assetIDBytes rest proofTypeStr).
Proof.
  intros r. unfold r, NewUniIDFromRawArgs. split_and!.
  - reflexivity.
  - intros i.
    destruct (ParseStrProofType proofTypeStr) as [t|e] eqn:Ht; [|discriminate].
    rewrite decide_True by done. unfold parseGroupKey.
    unfold PubKeyBytesLen, PubKeyBytesLenCompressed. cbn [length].
    repeat case_decide;
      try (destruct (ParsePubKey _) as [k|e]; [|discriminate];
           intros [= <-]; cbn; split_and!; [done|by eexists| |lia]);
      try discriminate.
    all: unfold ParseStrProofType in Ht;
      repeat (case_decide; [subst proofTypeStr; by injection Ht as <-|]);
      discriminate.
  - intros Hlen.
    destruct (ParseStrProofType proofTypeStr) as [t|e]; [|reflexivity].
    rewrite !decide_True by (try done; by rewrite Hlen).
    unfold parseGroupKey, PubKeyBytesLen, PubKeyBytesLenCompressed.
    cbn [length drop]. rewrite Hlen.
    rewrite (decide_False (P := 33%nat = 32%nat)) by done.
    rewrite (decide_True (P := 33%nat = 33%nat)) by done.
    rewrite (decide_True (P := 32%nat = 32%nat)) by done.
    by rewrite drop_0.
Qed.

End IdentifierArgs.

Section ServerAddrFacts.

Import Go Universe.

Context {Addr World : Type}.
Variable SplitHostPort : string → result (string * string).
Variable Atoi : string → result Z.
Variable JoinHostPort : string → string → string.
Variable ResolveTCPAddr : World → string → string → result Addr.

Abbreviation Addr_of :=
  (ServerAddr_Addr SplitHostPort Atoi JoinHostPort ResolveTCPAddr).

(** X22: [ServerAddr.Addr] resolves the host once: after a call that returned
    an address, every later call returns this address, whatever the name
    service says by then; a call that returned an error has left the
    receiver as it was.  The host string and the id are never changed, and
    an empty host string is an error without a look at the name service. *)
Theorem ServerAddr_Addr_cached (w : World) (s : ServerAddr (Addr := Addr)) :
  let r := Addr_of w s in
  HostStr r.2 = HostStr s
  ∧ ServerAddr_ID r.2 = ServerAddr_ID s
  ∧ (∀ a, r.1 = Val a → ∀ w', Addr_of w' r.2 = (Val a, r.2))
  ∧ (∀ e, r.1 = Fail e → r.2 = s)
  ∧ (addr s = None → addrStr s = "" →
     r.1 = Fail (ErrorString "universe host cannot be empty")).
Proof.
  intros r. unfold r, ServerAddr_Addr.
  destruct (addr s) as [a|] eqn:Ha.
  - cbn. split_and!; try done.
    intros a' [= <-] w'. by rewrite Ha.
  - destruct (resolverUniverseAddr _ _ _ _ w (addrStr s)) as [a|e] eqn:Hr.
    + cbn. split_and!; try done.
      * by intros a' [= <-] w'.
      * intros _ Hs. revert Hr. unfold resolverUniverseAddr.
        by rewrite Hs, decide_True.
    + cbn. split_and!; try done.
      intros _ Hs. revert Hr. unfold resolverUniverseAddr.
      rewrite Hs, decide_True by done. by intros [= <-].
Qed.

End ServerAddrFacts.

(** ** Send states *)

(** X23: [SendState.String] tells the states apart: two values have the same
    string only when they are the same value. *)
Theorem SendState_String_inj (s s' : Z) :
  Tarofreighter.SendState_String s = Tarofreighter.SendState_String s'
  ↔ s = s'.
Proof.
  split; [|by intros ->].
  unfold Tarofreighter.SendState_String,
    Tarofreighter.SendStateVirtualCommitmentSelect,
    Tarofreighter.SendStateVirtualSign, Tarofreighter.SendStateAnchorSign,
    Tarofreighter.SendStateLogCommit, Tarofreighter.SendStateBroadcast,
    Tarofreighter.SendStateWaitTxConf, Tarofreighter.SendStateStoreProofs,
    Tarofreighter.SendStateReceiverProofTransfer,
    Tarofreighter.SendStateComplete.
  repeat match goal with
         | |- context [?x =? ?y] => destruct (Z.eqb_spec x y)
         end; subst; try reflexivity;
    rewrite ?string_app_cons, ?string_app_nil;
    try (intros H; discriminate H).
  intros [= H]. apply string_app_inj in H as [H _]; [|done].
  by apply (inj pretty).
Qed.

(** ** Sell requests *)

Section SellRequestFacts.

Import Go Rfqmsg.

Context {Vertex PublicKey : Type}.
Variable V0 : Z.
Variable MsgTypeRequest : Z.

(** X24: [Validate] accepts a sell request exactly when one of its asset id
    and its group key is set, and the other is not, and its version is at
    most the latest one. *)
Theorem Validate_iff (q : SellRequest (Vertex := Vertex) (PublicKey := PublicKey)) :
  Validate V0 q = Val tt
  ↔ (is_Some (AssetID q) ↔ AssetGroupKey q = None)
    ∧ Version q ≤ latestSellRequestVersion V0.
Proof.
  unfold Validate.
  destruct (AssetID q) as [id|], (AssetGroupKey q) as [k|].
  - split; [discriminate|]. intros [[H _] _]. by specialize (H (mk_is_Some _ _ eq_refl)).
  - destruct (Z.ltb_spec (latestSellRequestVersion V0) (Version q)).
    + split; [discriminate|lia].
    + split; [|done]. intros _. split; [|done]. split; [done|by eexists].
  - destruct (Z.ltb_spec (latestSellRequestVersion V0) (Version q)).
    + split; [discriminate|lia].
    + split; [|done]. intros _. split; [|done].
      split; [by intros []|discriminate].
  - split; [discriminate|]. intros [[_ H] _]. by destruct (H eq_refl).
Qed.

(** X25: a sell request that [NewSellRequestMsgFromWire] returns comes from a
    wire message of the request type, carries the peer of the wire message
    and the id, the version and the amount of the message data, and passes
    [Validate]. *)
Theorem NewSellRequestMsgFromWire_valid
    (wireMsg : WireMessage (Vertex := Vertex))
    (msgData : requestWireMsgData (PublicKey := PublicKey))
    (q : SellRequest) :
  NewSellRequestMsgFromWire V0 MsgTypeRequest wireMsg msgData = Val q →
  MsgType wireMsg = MsgTypeRequest
  ∧ Validate V0 q = Val tt
  ∧ Peer q = WireMessage_Peer wireMsg
  ∧ ID q = msgData_ID msgData
  ∧ Version q = msgData_Version msgData
  ∧ AssetAmount q = AssetMaxAmount msgData
  ∧ AssetID q = OutAssetID msgData
  ∧ AskPrice q = default 0 (SuggestedRateTick msgData).
Proof.
  unfold NewSellRequestMsgFromWire.
  destruct (Z.eqb_spec (MsgType wireMsg) MsgTypeRequest) as [Ht|];
    [|discriminate].
  cbn [negb].
  set (req := {| Peer := _ |}).
  destruct (OutAssetID msgData) as [id|] eqn:Hid;
    [|destruct (default None (OutAssetGroupKey msgData)) as [k|] eqn:Hk;
      [|discriminate]].
  all: destruct (Validate V0 req) as [[]|err] eqn:Hval; [|discriminate];
    intros [= <-]; by split_and!.
Qed.

(** X26: [NewSellRequest] does not validate: the request it returns has the
    latest version and the arguments as its fields, and it passes
    [Validate] exactly when one of the asset id and the group key was
    given. *)
Theorem NewSellRequest_valid (id : vec byte 32) (peer : Vertex)
    (assetID : option (vec byte 32)) (assetGroupKey : option PublicKey)
    (assetAmount askPrice : Z) :
  ∃ q,
    NewSellRequest V0 (Val id) peer assetID assetGroupKey assetAmount
      askPrice = Val q
    ∧ Version q = latestSellRequestVersion V0
    ∧ ID q = id
    ∧ (Validate V0 q = Val tt ↔ (is_Some assetID ↔ assetGroupKey = None)).
Proof.
  eexists. split; [reflexivity|]. cbn. split; [done|]. split; [done|].
  unfold Validate. cbn.
  rewrite (proj2 (Z.ltb_ge _ _)) by lia.
  destruct assetID as [a|], assetGroupKey as [k|].
  - split; [discriminate|].
    intros [H _]. by specialize (H (mk_is_Some _ _ eq_refl)).
  - split; [|done]. intros _. split; [done|by eexists].
  - split; [|done]. intros _. split; [by intros []|discriminate].
  - split; [discriminate|]. intros [_ H]. by destruct (H eq_refl).
Qed.

End SellRequestFacts.

(** ** Delivery of the broadcast response *)

Section DeliveryFacts.

Import Go Tarofreighter.

Context {Taro VPacket PassiveAssetReAnchor AnchorTransaction OutboundParcel
         FinalProofs TxConfirmation : Type}.

Abbreviation package :=
  (sendPackage (Taro := Taro) (VPacket := VPacket) (parcelKit := option positive)
     (PassiveAssetReAnchor := PassiveAssetReAnchor)
     (AnchorTransaction := AnchorTransaction)
     (OutboundParcel := OutboundParcel) (FinalProofs := FinalProofs)
     (TxConfirmation := TxConfirmation)).

(** X27: the response channel that [NewAddressParcel] makes holds one value,
    so the first [deliverTxBroadcastResp] of a package of this parcel
    returns with the outbound parcel queued on that channel and nothing
    else changed, and a second delivery, with no receiver in between,
    blocks.  A package without parcel (a resumed one) delivers nothing, and
    a package with a parcel and a nil [OutboundPkg] panics. *)
Theorem deliverTxBroadcastResp_buffered (destAddrs : list Taro)
    (f : Freight (OutboundParcel := OutboundParcel)) (s : package)
    (outboundPkg : OutboundParcel) :
  let made := NewAddressParcel destAddrs f in
  Parcel_ s = Some (OfAddressParcel made.1) →
  OutboundPkg s = Some outboundPkg →
  ∃ k ch f2,
    AddressParcel_parcelKit made.1 = Some k
    ∧ respChan <$> kits_at made.2 !! k = Some (Some ch)
    ∧ respChans_at made.2 !! ch = Some {| capacity := 1; waiting := [] |}
    ∧ deliverTxBroadcastResp s made.2 = (Returned, f2)
    ∧ respChans_at f2
      = <[ch := {| capacity := 1; waiting := [outboundPkg] |}]>
          (respChans_at made.2)
    ∧ kits_at f2 = kits_at made.2
    ∧ errChans_at f2 = errChans_at made.2
    ∧ deliverTxBroadcastResp s f2 = (Blocked, f2).
Proof.
  intros made Hp Ho. unfold made in *. clear made.
  unfold NewAddressParcel, new_parcelKit in *. cbn [fst snd] in *.
  set (k := fresh (dom (kits_at f))) in *.
  set (ch := fresh (dom (respChans_at f))) in *.
  set (ech := fresh (dom (errChans_at f))) in *.
  exists k, ch. eexists. cbn [AddressParcel_parcelKit kits_at respChans_at].
  split; [reflexivity|]. rewrite !lookup_insert_eq.
  split; [reflexivity|]. split; [reflexivity|].
  unfold deliverTxBroadcastResp. rewrite Hp, Ho.
  cbn [kit AddressParcel_parcelKit mbind option_bind kits_at respChans_at
       errChans_at].
  rewrite !lookup_insert_eq. cbn [respChan].
  unfold send. cbn [mbind option_bind]. rewrite !lookup_insert_eq.
  cbn [fmap option_fmap option_map waiting capacity length].
  rewrite decide_True by lia. cbn [app].
  split; [reflexivity|]. cbn [respChans_at kits_at errChans_at].
  rewrite insert_insert_eq.
  split; [reflexivity|]. split; [reflexivity|]. split; [reflexivity|].
  rewrite !lookup_insert_eq. cbn [respChan mbind option_bind].
  rewrite !lookup_insert_eq.
  cbn [fmap option_fmap option_map waiting capacity length].
  by rewrite decide_False by lia.
Qed.


End DeliveryFacts.

Section ConcreteDelivery.

Import Go Tarofreighter.

(** A parcel for no address in the empty store, and the package of this
    parcel once its outbound parcel (here the number 7) is set. *)
Lemma deliverTxBroadcastResp_buffered_witness :
  let f : Freight (OutboundParcel := Z) :=
    {| kits_at := ∅; respChans_at := ∅; errChans_at := ∅ |} in
  let made := NewAddressParcel (Taro := unit) [] f in
  let s : sendPackage (VPacket := unit) (PassiveAssetReAnchor := unit)
            (AnchorTransaction := unit) (FinalProofs := unit)
            (TxConfirmation := unit) :=
    {| SendState := 0; VirtualPacket := None; PassiveAssets := [];
       Parcel_ := Some (OfAddressParcel made.1); InputCommitment := None;
       AnchorTx := None; OutboundPkg := Some 7; FinalProofs_ := None;
       TransferTxConfEvent := None |} in
  ∃ k ch f2,
    AddressParcel_parcelKit made.1 = Some k
    ∧ respChan <$> kits_at made.2 !! k = Some (Some ch)
    ∧ respChans_at made.2 !! ch = Some {| capacity := 1; waiting := [] |}
    ∧ deliverTxBroadcastResp s made.2 = (Returned, f2)
    ∧ respChans_at f2
      = <[ch := {| capacity := 1; waiting := [7] |}]> (respChans_at made.2)
    ∧ kits_at f2 = kits_at made.2
    ∧ errChans_at f2 = errChans_at made.2
    ∧ deliverTxBroadcastResp s f2 = (Blocked, f2).
Proof.
  intros f made s.
  apply (deliverTxBroadcastResp_buffered [] f s 7); reflexivity.
Defined.

End ConcreteDelivery.

(** ** The further theorems at concrete inputs *)

Section ConcreteInputs.

Import Go Commitment Reference.

(** A commitment script of version 0 next to a leaf with an empty script,
    in both orders. *)
Lemma IdentifyTapScriptSibling_not_commitment_witness :
  let commitmentLeaf :=
    Txscript.NewBaseTapLeaf (x00 :: TaroMarker ++ repeat x00 40) in
  let other := Txscript.NewBaseTapLeaf [] in
  let identify :=
    Taroscript.IdentifyTapScriptSibling (λ _, key1) (λ _, key2) in
  (∃ sibling, identify [commitmentLeaf; other] = Val (key2, Some sibling)
              ∧ IsTaroCommitmentScript (Txscript.Script sibling) = false
              ∧ (sibling = commitmentLeaf ∨ sibling = other))
  ∧ (∃ sibling, identify [other; commitmentLeaf] = Val (key2, Some sibling)
                ∧ IsTaroCommitmentScript (Txscript.Script sibling) = false
                ∧ (sibling = other ∨ sibling = commitmentLeaf)).
Proof.
  intros commitmentLeaf other identify.
  assert (Hc : IsTaroCommitmentScript (Txscript.Script commitmentLeaf) = true)
    by (vm_compute; reflexivity).
  assert (Ho : IsTaroCommitmentScript (Txscript.Script other) = false)
    by reflexivity.
  split.
  - apply (IdentifyTapScriptSibling_not_commitment (λ _, key1) (λ _, key2)).
    rewrite Hc, Ho. discriminate.
  - apply (IdentifyTapScriptSibling_not_commitment (λ _, key1) (λ _, key2)).
    rewrite Hc, Ho. discriminate.
Defined.

(** [NewTaroCommitment(assetA, assetB)] in [heap0]. *)
Lemma NewTaroCommitment_Version_is_max_witness :
  ∃ tc,
    taros_at (NewTaroCommitment [1; 2]%positive heap0).2 !! 1%positive
    = Some tc
    ∧ V0 ≤ Version tc
    ∧ (∀ p a, p ∈ [1; 2]%positive → assets_at heap0 !! p = Some a →
         asset_Version a ≤ Version tc)
    ∧ (Version tc = V0
       ∨ ∃ p a, p ∈ [1; 2]%positive ∧ assets_at heap0 !! p = Some a
                ∧ asset_Version a = Version tc).
Proof.
  apply (NewTaroCommitment_Version_is_max [1; 2]%positive heap0 1).
  vm_compute. reflexivity.
Defined.

Lemma NewTaroCommitment_assetCommitments_witness :
  let h' := (NewTaroCommitment [1; 2]%positive heap0).2 in
  (1%positive ∉ dom (taros_at heap0))
  ∧ assets_at h' = assets_at heap0
  ∧ (∀ c', c' ≠ 1%positive → taros_at h' !! c' = taros_at heap0 !! c')
  ∧ ∃ tc t m,
      taros_at h' !! 1%positive = Some tc
      ∧ tree tc = Some t
      ∧ TreeRoot tc = (Mssmt.Root t).1
      ∧ assetCommitments tc = Some m
      ∧ (∀ k q, m !! k = Some q →
           q ∈ [1; 2]%positive
           ∧ ∃ a, assets_at heap0 !! q = Some a ∧ TaroCommitmentKey a = k)
      ∧ (∀ p, p ∈ [1; 2]%positive →
           ∃ a, assets_at heap0 !! p = Some a
                ∧ is_Some (m !! TaroCommitmentKey a)).
Proof.
  apply (NewTaroCommitment_assetCommitments [1; 2]%positive heap0 1).
  vm_compute. reflexivity.
Defined.

(** [c1.Upsert(assetC)] on the commitment of [heap_full], and the look-up
    of an asset with the key of [assetC]. *)
Lemma Commitment_after_Upsert_witness :
  (TaroCommitment_Commitment (λ _ : Mssmt.LeafNode, key1) 1 (unit_leaf 3)
     (Upsert 1 (Some 4%positive) heap_full).2).1
  = Ok (Some 4%positive).
Proof.
  assert (Hp : assets_at heap_full !! 4%positive = Some assetC)
    by reflexivity.
  assert (Hup : (Upsert 1 (Some 4%positive) heap_full).1 = Ok tt)
    by (vm_compute; reflexivity).
  assert (Hne : Mssmt.NodeHash (asset_TreeRoot assetC)
                ≠ Mssmt.EmptyTreeRootHash)
    by (vm_compute; discriminate).
  pose proof (Commitment_after_Upsert (λ _ : Mssmt.LeafNode, key1)
                heap_full 1 4 assetC (unit_leaf 3) Hp Hup) as H.
  cbv zeta in H. rewrite decide_True in H by reflexivity.
  by rewrite decide_False in H by exact Hne.
Defined.

(** [c1.Delete(assetA)] on the commitment of [heap_full]. *)
Lemma Commitment_after_Delete_witness :
  (TaroCommitment_Commitment (λ _ : Mssmt.LeafNode, key1) 1 (unit_leaf 3)
     (Delete 1 (Some 1%positive) heap_full).2).1
  = Ok None.
Proof.
  assert (Hp : assets_at heap_full !! 1%positive = Some assetA)
    by reflexivity.
  assert (Hdel : (Delete 1 (Some 1%positive) heap_full).1 = Ok tt)
    by (vm_compute; reflexivity).
  pose proof (Commitment_after_Delete (λ _ : Mssmt.LeafNode, key1)
                heap_full 1 1 assetA (unit_leaf 3) Hp Hdel) as H.
  cbv zeta in H. by rewrite decide_True in H by reflexivity.
Defined.

(** The copy of the full commitment without asset commitments at address 2
    of [heap_root_only_and_empty]. *)
Lemma Copy_without_asset_commitments_witness :
  ∃ c' h',
    Copy range 2 heap_root_only_and_empty = (Ok c', h')
    ∧ (c' ∉ dom (taros_at heap_root_only_and_empty))
    ∧ assets_at h' = assets_at heap_root_only_and_empty
    ∧ taros_at h'
      = <[c' := {| Version := 0; TreeRoot := Some (root_of ∅);
                   tree := None; assetCommitments := None |}]>
          (taros_at heap_root_only_and_empty)
    ∧ (TapLeaf_at c' h').1 = (TapLeaf_at 2 heap_root_only_and_empty).1
    ∧ (∀ k k', (TaroCommitment_Proof c' k k' h').1
               = Panic missing_asset_commitments)
    ∧ (∀ x, Merge range x c' h' = (Err cannot_merge, h')).
Proof.
  apply (Copy_without_asset_commitments range heap_root_only_and_empty 2
           {| Version := 0; TreeRoot := Some (root_of ∅);
              tree := Some ∅; assetCommitments := Some ∅ |} (root_of ∅));
    reflexivity.
Defined.

(** The root-only commitment made from the version and the root of the
    commitment at address 2 of [heap_root_only_and_empty]. *)
Lemma TapscriptRoot_of_root_only_witness :
  let tc : TaroCommitment (gmap (vec byte 32) Mssmt.LeafNode) :=
    {| Version := 0; TreeRoot := Some (root_of ∅);
       tree := Some ∅; assetCommitments := Some ∅ |} in
  let made :=
    NewTaroCommitmentWithRoot 0 (Some (root_of ∅)) heap_root_only_and_empty in
  ∃ c' tc',
    made.1 = Ok c'
    ∧ taros_at made.2 !! c' = Some tc'
    ∧ taros_at made.2 !! 2%positive = Some tc
    ∧ tree tc' = None
    ∧ assetCommitments tc' = None
    ∧ TapLeaf tc' = TapLeaf tc
    ∧ TapscriptRoot (λ _ _, key1) (λ _, key1) (λ _, key2) tc' (Some key2)
      = TapscriptRoot (λ _ _, key1) (λ _, key1) (λ _, key2) tc (Some key2).
Proof.
  intros tc.
  apply (TapscriptRoot_of_root_only (λ _ _, key1) (λ _, key1) (λ _, key2)
           heap_root_only_and_empty 2 tc (Some key2)).
  reflexivity.
Defined.

(** Two issuance identifiers without group key that differ in the asset
    id. *)
Lemma Identifier_String_eq_iff_Key_eq_witness :
  let i := {| Universe.AssetID := key1; Universe.GroupKey := None;
              Universe.ProofType := 1 |} in
  let j := {| Universe.AssetID := key2; Universe.GroupKey := None;
              Universe.ProofType := 1 |} in
  Universe.Identifier_String (λ _ : unit, []) i
  = Universe.Identifier_String (λ _ : unit, []) j
  ↔ Universe.Identifier_Key (λ _ : unit, []) i
    = Universe.Identifier_Key (λ _ : unit, []) j.
Proof.
  intros i j.
  apply (Identifier_String_eq_iff_Key_eq (λ _ : unit, []) i j); cbn; lia.
Defined.

(** Two identifiers with a group key, and distinct asset ids that
    [IsEqual] does look at: here they are the same. *)
Lemma Identifier_IsEqual_Key_witness :
  let i := {| Universe.AssetID := key1; Universe.GroupKey := Some tt;
              Universe.ProofType := 2 |} in
  Universe.Identifier_Key (λ _ : unit, [x02]) i
  = Universe.Identifier_Key (λ _ : unit, [x02]) i
  ∧ Universe.Identifier_String (λ _ : unit, [x02]) i
    = Universe.Identifier_String (λ _ : unit, [x02]) i.
Proof.
  intros i.
  apply (Identifier_IsEqual_Key (λ _ : unit, [x02]) (λ _ _, true) i i).
  - reflexivity.
  - unfold Universe.Identifier_IsEqual. cbn.
    by rewrite !bool_decide_eq_true_2.
Defined.

Lemma NewUniIDFromRawArgs_asset_id_witness :
  Universe.NewUniIDFromRawArgs (λ _, Fail (ErrorString "no key"))
    (vec_to_list key1) [] "transfer"
  = Val {| Universe.AssetID := key1; Universe.GroupKey := @None unit;
           Universe.ProofType := 2 |}.
Proof.
  apply (NewUniIDFromRawArgs_asset_id (λ _, Fail (ErrorString "no key"))
           {| Universe.AssetID := key1; Universe.GroupKey := @None unit;
              Universe.ProofType := 2 |}); cbn; [reflexivity|lia].
Defined.

(** A wire message of the request type with an asset id and no group
    key. *)
Lemma NewSellRequestMsgFromWire_valid_witness :
  let wireMsg := {| Rfqmsg.WireMessage_Peer := tt; Rfqmsg.MsgType := 7;
                    Rfqmsg.Data := [] |} in
  let msgData := {| Rfqmsg.msgData_Version := 0; Rfqmsg.msgData_ID := key1;
                    Rfqmsg.OutAssetID := Some key2;
                    Rfqmsg.OutAssetGroupKey := @None (option unit);
                    Rfqmsg.SuggestedRateTick := Some 5;
                    Rfqmsg.AssetMaxAmount := 100 |} in
  let q := {| Rfqmsg.Peer := tt; Rfqmsg.Version := 0; Rfqmsg.ID := key1;
              Rfqmsg.AssetID := Some key2;
              Rfqmsg.AssetGroupKey := @None unit;
              Rfqmsg.AssetAmount := 100; Rfqmsg.AskPrice := 5 |} in
  Rfqmsg.MsgType wireMsg = 7
  ∧ Rfqmsg.Validate 0 q = Val tt
  ∧ Rfqmsg.Peer q = Rfqmsg.WireMessage_Peer wireMsg
  ∧ Rfqmsg.ID q = Rfqmsg.msgData_ID msgData
  ∧ Rfqmsg.Version q = Rfqmsg.msgData_Version msgData
  ∧ Rfqmsg.AssetAmount q = Rfqmsg.AssetMaxAmount msgData
  ∧ Rfqmsg.AssetID q = Rfqmsg.OutAssetID msgData
  ∧ Rfqmsg.AskPrice q = default 0 (Rfqmsg.SuggestedRateTick msgData).
Proof.
  intros wireMsg msgData q.
  apply (NewSellRequestMsgFromWire_valid 0 7 wireMsg msgData q).
  reflexivity.
Defined.

End ConcreteInputs.
